(** * InvoTrack: document finalization and POS synchronization

    A shallow embedding of the finalization pipeline of InvoTrack:

    - [PriceCheck]: [checkProductPricesBeforeSaveService] of
      [src/services/backend.ts] (price reconciliation and its chunked
      inventory reads);
    - [DialogFlow]: the step machine of
      [src/app/edit-invoice/hooks/useDialogFlow.ts];
    - [Firestore]: the part of the document store the services use
      (documents, field paths, [updateDoc], transactions and their
      attempts);
    - [Backend]: [finalizeSaveProductsService], the POS server actions of
      [src/actions/pos-actions.ts], [createSupplierService] and
      [createSupplierAndSyncWithPosService];
    - [Scenarios]: concrete stores, adapters and calls;
    - [Lookup], [FinalizeSpec]: predicates on the lookup map of the price
      check and on what the finalizer leaves;
    - [Services]: the product, payment-status, supplier and batch
      services of [src/services/backend.ts], [linkReceiptToInvoiceAction]
      and [deactivatePosProductAction] of [src/actions/pos-actions.ts],
      and the lists of [src/actions/invoice-actions.ts];
    - [LocalStorage]: the temporary scan data of the browser;
    - [PaymentTerms], [ProductReview], [Session]: the payment-term texts,
      the fingerprint matcher and the start of the flow of
      [useDialogFlow.ts];
    - [MoreScenarios]: more concrete inputs;
    - the [...Facts] modules: what is proved of each of them.

    The prices the price check compares are the doubles of JavaScript
    ([float], binary64); the numbers of the store, of which the services
    take sums, are exact rationals ([Q]). A missing or [null] property is
    [None]; JavaScript objects that are used as dictionaries are
    [gmap string _]. A transaction is run with the attempts that the store
    aborts, and the writes that follow the commit with the store's answer
    to each of them. *)

From Stdlib Require Import QArith Floats.
From stdpp Require Import base gmap strings list.

#[local] Set Warnings "-register-all".
#[local] Set Warnings "-inexact-float".
#[local] Open Scope string_scope.

(** ** JavaScript truthiness of the values the services test *)

(** [!!s] for an optional string: [undefined], [null] and the empty string
    are falsy. *)
Definition truthyStr (o : option string) : bool :=
  match o with
  | Some s => negb (String.eqb s "")
  | None => false
  end.

(** The string a truthy optional string holds. *)
Definition nonEmpty (o : option string) : option string :=
  if truthyStr o then o else None.

(** [Number(x) || 0] on a numeric property: a missing property, [NaN]
    and both zeros give [0]. *)
Definition numberOr0 (o : option float) : float :=
  match o with
  | Some x =>
      if PrimFloat.is_nan x || PrimFloat.is_zero x then 0%float else x
  | None => 0%float
  end.

(** [values.slice(i, j)] on an array. *)
Definition slice {A} (values : list A) (i j : nat) : list A :=
  take (j - i) (drop i values).

(** * Price reconciliation *)

Module PriceCheck.

(** [Product] of [services/types.ts], with the fields the price check
    reads or copies. Its numbers are the doubles of JavaScript. *)
Record Product := mkProduct {
  id : string;
  userId : string;
  name : string;
  catalogNumber : option string;
  barcode : option string;
  unitPrice : option float;
  quantity : float;
  isActive : option bool
}.

(** [{ ...product, id: newId }] *)
Definition withId (product : Product) (newId : string) : Product :=
  {| id := newId; userId := userId product; name := name product;
     catalogNumber := catalogNumber product; barcode := barcode product;
     unitPrice := unitPrice product; quantity := quantity product;
     isActive := isActive product |}.

(** [ProductPriceDiscrepancy extends Product] *)
Record ProductPriceDiscrepancy := mkDiscrepancy {
  discProduct : Product;
  existingUnitPrice : float;
  newUnitPrice : float
}.

Record PriceCheckResult := mkResult {
  productsToSaveDirectly : list Product;
  priceDiscrepancies : list ProductPriceDiscrepancy
}.

(** The two fields the inventory is queried by. *)
Inductive Field := FCatalogNumber | FBarcode.

Definition fieldOf (f : Field) (p : Product) : option string :=
  match f with
  | FCatalogNumber => catalogNumber p
  | FBarcode => barcode p
  end.

(** One [getDocs(query(inventoryRef, where(field, "in", chunk)))]. *)
Record InQuery := mkQuery { qField : Field; qChunk : list string }.

(** The documents of the inventory subcollection, in the order the store
    returns them. A document answers [where(field, "in", chunk)] when the
    field is present and equal to one of the chunk's values. *)
Definition matchesIn (f : Field) (chunk : list string) (d : Product) : bool :=
  match fieldOf f d with
  | Some v => bool_decide (v ∈ chunk)
  | None => false
  end.

Definition getDocs (inventory : list Product) (q : InQuery) : list Product :=
  filter (fun d => matchesIn (qField q) (qChunk q) d = true) inventory.

(** [existingProductsMap.has(k)] *)
Definition has (m : gmap string Product) (k : string) : bool :=
  bool_decide (is_Some (m !! k)).

(** [addProductToMap]: catalog numbers and barcodes are keys of the one
    map; the first product under a key stays. *)
Definition addProductToMap (m : gmap string Product) (product : Product)
  : gmap string Product :=
  let m1 :=
    match nonEmpty (catalogNumber product) with
    | Some cn => if has m cn then m else <[cn := product]> m
    | None => m
    end in
  match nonEmpty (barcode product) with
  | Some b => if has m1 b then m1 else <[b := product]> m1
  | None => m1
  end.

(** The state the fetch loop threads: the map being filled and the reads
    issued so far, oldest first. *)
Record FetchState := mkFetch {
  existingProductsMap : gmap string Product;
  reads : list InQuery
}.

(** The body of the loop of [fetchInChunks] for the chunk at [i]. *)
Definition fetchChunk (inventory : list Product) (field : Field)
    (values : list string) (i : nat) (st : FetchState) : FetchState :=
  let chunk := slice values i (i + 10) in
  let q := mkQuery field chunk in
  {| existingProductsMap :=
       fold_left addProductToMap (getDocs inventory q) (existingProductsMap st);
     reads := reads st ++ [q] |}.

(** [for (let i = 0; i < values.length; i += 10)]: the loop from index [i];
    one unit of [fuel] per iteration. *)
Fixpoint fetchInChunks_from (fuel : nat) (inventory : list Product)
    (field : Field) (values : list string) (i : nat) (st : FetchState)
  : FetchState :=
  match fuel with
  | O => st
  | S fuel' =>
      if bool_decide (i < length values)%nat
      then fetchInChunks_from fuel' inventory field values (i + 10)
             (fetchChunk inventory field values i st)
      else st
  end.

(** [fetchInChunks(field, values)]. The loop runs at most
    [length values] times, see [fetchInChunks_from_reads]. *)
Definition fetchInChunks (inventory : list Product) (field : Field)
    (values : list string) (st : FetchState) : FetchState :=
  fetchInChunks_from (length values) inventory field values 0 st.

(** [productsToCheck.map(p => p.catalogNumber).filter(cn => !!cn)] *)
Definition catalogNumbers (productsToCheck : list Product) : list string :=
  omap (fun p => nonEmpty (catalogNumber p)) productsToCheck.

Definition barcodes (productsToCheck : list Product) : list string :=
  omap (fun p => nonEmpty (barcode p)) productsToCheck.

(** [(product.catalogNumber && map.get(product.catalogNumber)) ||
     (product.barcode && map.get(product.barcode))] *)
Definition findExisting (m : gmap string Product) (product : Product)
  : option Product :=
  match nonEmpty (catalogNumber product) ≫= (fun cn => m !! cn) with
  | Some e => Some e
  | None => nonEmpty (barcode product) ≫= (fun b => m !! b)
  end.

(** [Math.abs(existingUnitPrice - newUnitPrice) > 0.001], in the
    arithmetic of doubles: the subtraction rounds, [0.001] is the double
    nearest to it, and a comparison with [NaN] is false. *)
Definition priceDiffers (existingPrice newPrice : float) : bool :=
  PrimFloat.ltb 0.001 (PrimFloat.abs (PrimFloat.sub existingPrice newPrice)).

(** One iteration of the loop over [productsToCheck]: the product is
    pushed on exactly one of the two arrays. *)
Definition classify (m : gmap string Product) (product : Product)
  : Product + ProductPriceDiscrepancy :=
  match findExisting m product with
  | Some existingProduct =>
      let existingUnitPrice := numberOr0 (unitPrice existingProduct) in
      let newUnitPrice := numberOr0 (unitPrice product) in
      if priceDiffers existingUnitPrice newUnitPrice
      then inr (mkDiscrepancy (withId product (id existingProduct))
                  existingUnitPrice newUnitPrice)
      else inl (withId product (id existingProduct))
  | None => inl product
  end.

Definition pushClassified (m : gmap string Product) (acc : PriceCheckResult)
    (product : Product) : PriceCheckResult :=
  match classify m product with
  | inl p =>
      mkResult (productsToSaveDirectly acc ++ [p]) (priceDiscrepancies acc)
  | inr d =>
      mkResult (productsToSaveDirectly acc) (priceDiscrepancies acc ++ [d])
  end.

(** [checkProductPricesBeforeSaveService]: the result and the reads issued
    against the inventory. *)
Definition checkProductPricesBeforeSaveService (inventory : list Product)
    (productsToCheck : list Product) : PriceCheckResult * list InQuery :=
  let cns := catalogNumbers productsToCheck in
  let bcs := barcodes productsToCheck in
  if (length cns =? 0)%nat && (length bcs =? 0)%nat
  then (mkResult productsToCheck [], [])
  else
    let st0 := mkFetch ∅ [] in
    let st1 := if (0 <? length cns)%nat
               then fetchInChunks inventory FCatalogNumber cns st0 else st0 in
    let st2 := if (0 <? length bcs)%nat
               then fetchInChunks inventory FBarcode bcs st1 else st1 in
    (fold_left (pushClassified (existingProductsMap st2)) productsToCheck
       (mkResult [] []),
     reads st2).

(** A candidate that carries neither a catalog number nor a barcode. *)
Definition keyless (p : Product) : bool :=
  negb (truthyStr (catalogNumber p)) && negb (truthyStr (barcode p)).

(** The inventory record [existing] has the candidate's value of [f] in its
    own field [f]: the test of [where(f, "in", ...)], and the catalog-number
    and barcode matches of the fingerprint matcher. *)
Definition sameKey (f : Field) (existing candidate : Product) : bool :=
  match nonEmpty (fieldOf f candidate), fieldOf f existing with
  | Some k, Some k' => String.eqb k k'
  | _, _ => false
  end.

(** An inventory record matches a candidate's catalog number or barcode. *)
Definition matchesCandidate (existing candidate : Product) : bool :=
  sameKey FCatalogNumber existing candidate
  || sameKey FBarcode existing candidate.

End PriceCheck.

(** * The resolution flow of the edit-invoice page *)

Module DialogFlow.

(** [DialogFlowStep] of [services/types.ts]. *)
Inductive DialogFlowStep :=
| idle
| processing
| supplier_payment_details
| new_product_details
| prompt_link_invoice
| prompt_link_delivery_notes
| ready_to_save
| error_loading.

(** [Invoice["documentType"]]. *)
Inductive DocType := deliveryNote | invoice | invoiceReceipt | receipt.

#[export] Instance DocType_eq_dec : EqDecision DocType.
Proof. solve_decision. Defined.

#[export] Instance DialogFlowStep_eq_dec : EqDecision DialogFlowStep.
Proof. solve_decision. Defined.

(** The [useState] cells of [useDialogFlow] that the step handlers write. *)
Record FlowState := mkFlow {
  currentDialogStep : DialogFlowStep;
  isDialogFlowActive : bool;
  isLinkInvoiceSheetOpen : bool;
  isLinkDeliveryNotesSheetOpen : bool;
  finalizedSupplierId : option string;
  finalizedLinkedInvoiceId : option string;
  finalizedLinkedDeliveryNoteIds : list string
}.

Definition setCurrentDialogStep (step : DialogFlowStep) (st : FlowState)
  : FlowState :=
  {| currentDialogStep := step;
     isDialogFlowActive := isDialogFlowActive st;
     isLinkInvoiceSheetOpen := isLinkInvoiceSheetOpen st;
     isLinkDeliveryNotesSheetOpen := isLinkDeliveryNotesSheetOpen st;
     finalizedSupplierId := finalizedSupplierId st;
     finalizedLinkedInvoiceId := finalizedLinkedInvoiceId st;
     finalizedLinkedDeliveryNoteIds := finalizedLinkedDeliveryNoteIds st |}.

(** The [nextStep] that [advanceToNextStep(currentStep)] computes; the
    prop [docType] may be [null]. *)
Definition nextStep (docType : option DocType) (currentStep : DialogFlowStep)
  : DialogFlowStep :=
  match currentStep with
  | supplier_payment_details => new_product_details
  | new_product_details =>
      match docType with
      | Some invoice | Some invoiceReceipt => prompt_link_delivery_notes
      | Some receipt => prompt_link_invoice
      | _ => ready_to_save
      end
  | _ => ready_to_save
  end.

Definition advanceToNextStep (docType : option DocType)
    (currentStep : DialogFlowStep) (st : FlowState) : FlowState :=
  setCurrentDialogStep (nextStep docType currentStep) st.

(** [handleNewProductDetailsDialogComplete] as far as the flow state goes
    (the products go to the main form). *)
Definition handleNewProductDetailsDialogComplete (docType : option DocType)
    (st : FlowState) : FlowState :=
  advanceToNextStep docType new_product_details st.

(** The effect [processStep] that runs when [currentDialogStep] changes. *)
Definition processStep (docType : option DocType) (st : FlowState)
  : FlowState :=
  match currentDialogStep st with
  | prompt_link_invoice =>
      if bool_decide (docType = Some receipt)
         && truthyStr (finalizedSupplierId st)
      then {| currentDialogStep := currentDialogStep st;
              isDialogFlowActive := isDialogFlowActive st;
              isLinkInvoiceSheetOpen := true;
              isLinkDeliveryNotesSheetOpen := isLinkDeliveryNotesSheetOpen st;
              finalizedSupplierId := finalizedSupplierId st;
              finalizedLinkedInvoiceId := finalizedLinkedInvoiceId st;
              finalizedLinkedDeliveryNoteIds :=
                finalizedLinkedDeliveryNoteIds st |}
      else advanceToNextStep docType prompt_link_invoice st
  | prompt_link_delivery_notes =>
      if (bool_decide (docType = Some invoice)
          || bool_decide (docType = Some invoiceReceipt))
         && truthyStr (finalizedSupplierId st)
      then {| currentDialogStep := currentDialogStep st;
              isDialogFlowActive := isDialogFlowActive st;
              isLinkInvoiceSheetOpen := isLinkInvoiceSheetOpen st;
              isLinkDeliveryNotesSheetOpen := true;
              finalizedSupplierId := finalizedSupplierId st;
              finalizedLinkedInvoiceId := finalizedLinkedInvoiceId st;
              finalizedLinkedDeliveryNoteIds :=
                finalizedLinkedDeliveryNoteIds st |}
      else advanceToNextStep docType prompt_link_delivery_notes st
  | _ => st
  end.

(** [handleLinkInvoice(linkedInvoiceId)] *)
Definition handleLinkInvoice (linkedInvoiceId : string) (st : FlowState)
  : FlowState :=
  {| currentDialogStep := ready_to_save;
     isDialogFlowActive := false;
     isLinkInvoiceSheetOpen := false;
     isLinkDeliveryNotesSheetOpen := isLinkDeliveryNotesSheetOpen st;
     finalizedSupplierId := finalizedSupplierId st;
     finalizedLinkedInvoiceId := Some linkedInvoiceId;
     finalizedLinkedDeliveryNoteIds := finalizedLinkedDeliveryNoteIds st |}.

(** [handleLinkDeliveryNotes(deliveryNoteIds)] *)
Definition handleLinkDeliveryNotes (deliveryNoteIds : list string)
    (st : FlowState) : FlowState :=
  {| currentDialogStep := ready_to_save;
     isDialogFlowActive := false;
     isLinkInvoiceSheetOpen := isLinkInvoiceSheetOpen st;
     isLinkDeliveryNotesSheetOpen := false;
     finalizedSupplierId := finalizedSupplierId st;
     finalizedLinkedInvoiceId := finalizedLinkedInvoiceId st;
     finalizedLinkedDeliveryNoteIds := deliveryNoteIds |}.

End DialogFlow.

(** * The document store *)

Module Firestore.

(** Field values of a document. [VServerTimestamp] is the sentinel of
    [serverTimestamp()]; a property that is [undefined] is absent from the
    map (the store is opened with [ignoreUndefinedProperties]). *)
Inductive value :=
| VNull
| VBool (b : bool)
| VNum (q : Q)
| VStr (s : string)
| VTimestamp (t : Z)
| VServerTimestamp
| VArr (l : list value)
| VObj (m : gmap string value).

Abbreviation DocData := (gmap string value).

(** A document reference [users/{userId}/{collection}/{docId}]. *)
Abbreviation DocRef := (string * string * string)%type.

Abbreviation Store := (gmap (string * string * string) (gmap string value)).

(** A computation that returns or throws an [Error] with a message. *)
Inductive Outcome (A : Type) :=
| Returns (a : A)
| Throws (message : string).

Arguments Returns {A} a.
Arguments Throws {A} message.

Definition obind {A B} (c : Outcome A) (k : A -> Outcome B) : Outcome B :=
  match c with
  | Returns a => k a
  | Throws e => Throws e
  end.

(** JavaScript truthiness of a field value. *)
Definition truthy (v : value) : bool :=
  match v with
  | VNull => false
  | VBool b => b
  | VNum q => negb (Qeq_bool q 0)
  | VStr s => negb (String.eqb s "")
  | _ => true
  end.

(** [o.k || dflt] *)
Definition orElse (o : option value) (dflt : value) : value :=
  match o with
  | Some v => if truthy v then v else dflt
  | None => dflt
  end.

(** [s || null] for an optional string. *)
Definition strOrNull (o : option string) : value :=
  match nonEmpty o with
  | Some s => VStr s
  | None => VNull
  end.

(** A string-valued property. *)
Definition strField (d : gmap string value) (k : string) : option string :=
  match d !! k with
  | Some (VStr s) => Some s
  | _ => None
  end.

(** [d.k || 0] for a numeric property ([Supplier.totalSpent],
    [Supplier.invoiceCount] are numbers). *)
Definition numFieldOr0 (d : gmap string value) (k : string) : Q :=
  match d !! k with
  | Some (VNum q) => if Qeq_bool q 0 then 0%Q else q
  | _ => 0%Q
  end.

(** Reading a nested property along a field path, [a?.[b]?.c]. *)
Fixpoint getPath (path : list string) (d : gmap string value)
  : option value :=
  match path with
  | [] => None
  | [k] => d !! k
  | k :: rest =>
      match d !! k with
      | Some (VObj m) => getPath rest m
      | _ => None
      end
  end.

(** Writing a dotted field path, as [updateDoc] does for a key such as
    ["syncStatus.status"]: the maps on the way are kept or created. *)
Fixpoint setPath (path : list string) (v : value) (d : gmap string value)
  : gmap string value :=
  match path with
  | [] => d
  | [k] => <[k := v]> d
  | k :: rest =>
      let sub := match d !! k with
                 | Some (VObj m) => m
                 | _ => ∅
                 end in
      <[k := VObj (setPath rest v sub)]> d
  end.

Definition applyUpdates (updates : list (list string * value))
    (d : gmap string value) : gmap string value :=
  fold_left (fun d pv => setPath pv.1 pv.2 d) updates d.

Definition getDoc (ref : DocRef) (σ : Store) : option DocData := σ !! ref.

(** [updateDoc(ref, updates)]: fails when the document does not exist. *)
Definition updateDoc (ref : DocRef) (updates : list (list string * value))
    (σ : Store) : Outcome Store :=
  match σ !! ref with
  | Some d => Returns (<[ref := applyUpdates updates d]> σ)
  | None => Throws "No document to update"
  end.

(** [getDocs(query(collection, where(...), limit(1))).docs[0]]: the first
    document of the user's collection that satisfies the filter. *)
Definition queryFirst (σ : Store) (userId collection : string)
    (P : DocData -> bool) : option (string * DocData) :=
  head (omap (fun rd : (string * string * string) * gmap string value =>
                let '((u, c, i), d) := rd in
                if String.eqb u userId && String.eqb c collection && P d
                then Some (i, d) else None)
             (map_to_list σ)).

(** A write staged in a transaction. [WUpdate] is
    [transaction.update(ref, data)] with plain field names as keys. *)
Inductive Write :=
| WSet (ref : DocRef) (data : DocData) (merge : bool)
| WUpdate (ref : DocRef) (data : DocData).

Definition writeRef (w : Write) : DocRef :=
  match w with
  | WSet ref _ _ => ref
  | WUpdate ref _ => ref
  end.

Definition writeData (w : Write) : DocData :=
  match w with
  | WSet _ data _ => data
  | WUpdate _ data => data
  end.

(** The effect of one write. A set replaces the document, or with
    [{ merge: true }] keeps the fields the data does not name; an update
    of a missing document fails. *)
Definition applyWrite (w : Write) (σ : Store) : option Store :=
  match w with
  | WSet ref data false => Some (<[ref := data]> σ)
  | WSet ref data true => Some (<[ref := data ∪ default ∅ (σ !! ref)]> σ)
  | WUpdate ref data =>
      match σ !! ref with
      | Some d => Some (<[ref := data ∪ d]> σ)
      | None => None
      end
  end.

(** The commit works on a copy of the store: it applies the staged writes
    in order and gives no store at all when one of them fails or the store
    refuses it ([rejects]). *)
Fixpoint applyWrites (rejects : DocRef -> bool) (ws : list Write) (σ : Store)
  : option Store :=
  match ws with
  | [] => Some σ
  | w :: ws' =>
      if rejects (writeRef w) then None
      else match applyWrite w σ with
           | Some σ' => applyWrites rejects ws' σ'
           | None => None
           end
  end.

(** The transaction object: the writes staged so far, oldest first, and
    the supply of automatic document ids. *)
Record Transaction := mkTx {
  staged : list Write;
  nextAutoId : nat
}.

(** The update function of a transaction. *)
Definition Tx (A : Type) : Type := Transaction -> Outcome (A * Transaction).

Definition txRet {A} (a : A) : Tx A := fun tx => Returns (a, tx).

Definition txThrow {A} (message : string) : Tx A := fun _ => Throws message.

Definition txBind {A B} (c : Tx A) (k : A -> Tx B) : Tx B :=
  fun tx =>
    match c tx with
    | Returns (a, tx') => k a tx'
    | Throws e => Throws e
    end.

Definition txLift {A} (c : Outcome A) : Tx A :=
  fun tx =>
    match c with
    | Returns a => Returns (a, tx)
    | Throws e => Throws e
    end.

Definition txStage (w : Write) : Tx unit :=
  fun tx => Returns (tt, mkTx (staged tx ++ [w]) (nextAutoId tx)).

(** [doc(collectionRef).id]: the next automatic id. *)
Definition txNewId : Tx nat :=
  fun tx => Returns (nextAutoId tx, mkTx (staged tx) (S (nextAutoId tx))).

Notation "'let!' x ':=' c 'in' k" := (txBind c (fun x => k))
  (at level 10, x name, c at level 100, k at level 200).

(** One attempt of a transaction, and a [writeBatch] with its [commit]:
    the update function runs on a new transaction object, then its writes
    are committed together. When the update function throws or the commit
    is refused, the error is thrown and the store stays as it was. (The
    store words its own errors; the messages given to them here and in
    [abortedAttempts] only tell them apart.) *)
Definition commitOnce {A : Type} (rejects : DocRef -> bool) (σ : Store)
    (autoIds : nat) (updateFunction : Tx A) : Outcome (A * Store * nat) :=
  match updateFunction (mkTx [] autoIds) with
  | Throws e => Throws e
  | Returns (a, tx) =>
      match applyWrites rejects (staged tx) σ with
      | Some σ' => Returns (a, σ', nextAutoId tx)
      | None => Throws "Transaction failed: the commit was rejected"
      end
  end.

(** [maxAttempts] of [runTransaction], by default. *)
Definition DEFAULT_MAX_ATTEMPTS : nat := 5.

(** The attempts of a transaction whose commit the store aborts, because
    another client has changed a document the attempt read: [aborted]
    lists, oldest first, what each of them saw of the store ([V]). Such an
    attempt writes nothing, and the update function is called again; what
    it did to the variables of its closure ([S]) stays, and so do the
    automatic ids it took. The result is the state in which the next
    attempt starts. An update function that throws ends the transaction,
    and so does the abort of the last attempt there is. *)
Fixpoint abortedAttempts {A S V : Type} (attemptsRemaining : nat)
    (updateFunction : V -> S -> Tx (A * S)) (aborted : list V) (closure : S)
    (autoIds : nat) {struct aborted} : Outcome (S * nat) :=
  match aborted with
  | [] => Returns (closure, autoIds)
  | seen :: rest =>
      match updateFunction seen closure (mkTx [] autoIds) with
      | Throws e => Throws e
      | Returns ((_, closure'), tx) =>
          match attemptsRemaining with
          | O => Throws "Transaction failed: the commit was aborted"
          | S n =>
              abortedAttempts n updateFunction rest closure' (nextAutoId tx)
          end
      end
  end.

(** [runTransaction(db, updateFunction)]: the attempts that are aborted,
    then the attempt that sees [seen] and commits to [σ]. A transaction
    nobody interferes with has no aborted attempt. *)
Definition runTransaction {A S V : Type} (rejects : DocRef -> bool)
    (updateFunction : V -> S -> Tx (A * S)) (aborted : list V) (seen : V)
    (σ : Store) (closure : S) (autoIds : nat) : Outcome (A * Store * nat) :=
  match abortedAttempts (DEFAULT_MAX_ATTEMPTS - 1) updateFunction aborted
          closure autoIds with
  | Throws e => Throws e
  | Returns (closure', autoIds') =>
      match commitOnce rejects σ autoIds' (updateFunction seen closure') with
      | Returns ((a, _), σ', n) => Returns (a, σ', n)
      | Throws e => Throws e
      end
  end.

(** A sequence of reads and writes outside a transaction: every write
    takes effect at once, and stays when a later step throws. *)
Definition Sync (A : Type) : Type := Store -> Outcome A * Store.

Definition syncRet {A : Type} (a : A) : Sync A := fun σ => (Returns a, σ).

Definition syncThrow {A : Type} (message : string) : Sync A :=
  fun σ => (Throws message, σ).

Definition syncBind {A B : Type} (c : Sync A) (k : A -> Sync B) : Sync B :=
  fun σ =>
    match c σ with
    | (Returns a, σ') => k a σ'
    | (Throws e, σ') => (Throws e, σ')
    end.

Definition syncLift {A : Type} (c : Outcome A) : Sync A := fun σ => (c, σ).

Definition syncGetDoc (ref : DocRef) : Sync (option DocData) :=
  fun σ => (Returns (σ !! ref), σ).

(** [await updateDoc(ref, updates)] on a store that takes the write. *)
Definition syncUpdateDoc (ref : DocRef) (updates : list (list string * value))
  : Sync unit :=
  fun σ =>
    match updateDoc ref updates σ with
    | Returns σ' => (Returns tt, σ')
    | Throws e => (Throws e, σ)
    end.

(** [await updateDoc(ref, updates)] on a store that can refuse the write:
    [refuses ref updates] is the message of the error it then rejects
    with, and nothing is written. *)
Definition syncUpdateDocUnless
    (refuses : DocRef -> list (list string * value) -> option string)
    (ref : DocRef) (updates : list (list string * value)) : Sync unit :=
  match refuses ref updates with
  | Some e => syncThrow e
  | None => syncUpdateDoc ref updates
  end.

(** [try { c } catch (e) { handler(e) }] *)
Definition syncCatch {A : Type} (c : Sync A) (handler : string -> Sync A)
  : Sync A :=
  fun σ =>
    match c σ with
    | (Returns a, σ') => (Returns a, σ')
    | (Throws e, σ') => handler e σ'
    end.

Notation "'do!' x ':=' c 'in' k" := (syncBind c (fun x => k))
  (at level 10, x name, c at level 100, k at level 200).

(** Every run of [c] relates the store before to the store after by [R],
    whether it returns or throws. *)
Definition syncInv (R : Store -> Store -> Prop) {A : Type} (c : Sync A)
  : Prop :=
  forall σ r σ', c σ = (r, σ') -> R σ σ'.

End Firestore.

(** * The backend services *)

Module Backend.

Import Firestore.
Export DialogFlow(DocType, deliveryNote, invoice, invoiceReceipt, receipt).

Definition INVENTORY_SUBCOLLECTION := "inventoryProducts".
Definition DOCUMENTS_SUBCOLLECTION := "documents".
Definition SUPPLIERS_SUBCOLLECTION := "suppliers".
Definition USER_SETTINGS_SUBCOLLECTION := "settings".

(** [getUserSubcollectionRef(userId, collectionName)]; the collection is
    identified by the user and its name. *)
Definition getUserSubcollectionRef (userId collectionName : string)
  : Outcome (string * string) :=
  if String.eqb userId ""
  then Throws "User ID is required to access subcollections."
  else Returns (userId, collectionName).

(** [getUserSubcollectionDocRef(userId, collectionName, docId)] *)
Definition getUserSubcollectionDocRef (userId collectionName docId : string)
  : Outcome DocRef :=
  if String.eqb userId "" || String.eqb docId ""
  then Throws
    "User ID and Document ID are required to access a subcollection document."
  else Returns (userId, collectionName, docId).

(** The values [convertToTimestampIfValid] accepts: [null], a [Date]
    (invalid when it has no time value), a [Timestamp], a string, or a
    server-timestamp [FieldValue]. *)
Inductive DateVal :=
| DateNull
| DateObject (time : option Z)
| DateTimestamp (time : Z)
| DateString (s : string)
| DateFieldValue.

(** The documentType strings the store holds. *)
Definition docTypeName (t : DocType) : string :=
  match t with
  | deliveryNote => "deliveryNote"
  | invoice => "invoice"
  | invoiceReceipt => "invoiceReceipt"
  | receipt => "receipt"
  end.

(** [FinalizeInvoiceData]; a line item is the object the caller sends,
    with [_originalId] among its properties. *)
Record FinalizeInvoiceData := mkFinalizeData {
  products : list DocData;
  originalFileName : string;
  docType : DocType;
  userId : string;
  existingDocumentId : option string;
  invoiceNumber : option string;
  supplierName : option string;
  totalAmount : option Q;
  paymentDueDate : DateVal;
  invoiceDate : DateVal;
  paymentMethod : option string;
  originalImagePreviewUri : option string;
  compressedImageForFinalRecordUri : option string;
  rawScanResultJson : option string;
  paymentTerms : option string;
  osekMorshe : option string
}.

(** What an adapter's [upsertProduct] or [upsertSupplier] resolves to, and
    what the server actions return. *)
Record ActionResult := mkActionResult {
  success : bool;
  message : string;
  externalId : option string
}.

(** [IPosSystemAdapter], with the methods the finalizer reaches through
    the server actions. A method is a function of the entity sent to the
    external system: it resolves or it throws. *)
Record PosAdapter := mkAdapter {
  systemName : string;
  upsertProduct : option (DocData -> Outcome ActionResult);
  upsertSupplier : option (DocData -> Outcome ActionResult);
  createTaxInvoice : option (DocData -> Outcome (option string))
}.

(** [HashavshevetAdapter]: both upserts are not implemented and throw;
    there is no [createTaxInvoice]. *)
Definition HashavshevetAdapter : PosAdapter :=
  {| systemName := "Hashavshevet (חשבשבת)";
     upsertProduct := Some (fun _ =>
       Throws "Method 'upsertProduct' not implemented for Hashavshevet.");
     upsertSupplier := Some (fun _ =>
       Throws "Method 'upsertSupplier' not implemented for Hashavshevet.");
     createTaxInvoice := None |}.

(** [n || 0] and [n ?? 0] on an optional number. *)
Definition numOr0 (o : option Q) : Q :=
  match o with
  | Some q => if Qeq_bool q 0 then 0%Q else q
  | None => 0%Q
  end.

Definition numNullish0 (o : option Q) : Q := default 0%Q o.

(** The string a value holds when it is a truthy string. *)
Definition truthyString (v : option value) : option string :=
  match v with
  | Some (VStr s) => nonEmpty (Some s)
  | _ => None
  end.

Section Services.

(** The environment of the services: the id the store generates for the
    [n]-th [doc(collection)], the wall clock as an ISO string, the date
    parser behind [convertToTimestampIfValid], the Caspit system behind
    [CaspitAdapter], the staged writes the store refuses at commit, and
    the writes it refuses after the commit, with the error of each. *)
Variable autoId : nat -> string.
Variable now : string.
Variable parseDate : string -> option Z.
Variable caspit : PosAdapter.
Variable rejects : DocRef -> bool.
Variable refuses : DocRef -> list (list string * value) -> option string.

Definition convertToTimestampIfValid (dateVal : DateVal) : value :=
  match dateVal with
  | DateNull => VNull
  | DateObject (Some t) => VTimestamp t
  | DateObject None => VNull
  | DateTimestamp t => VTimestamp t
  | DateString s =>
      if String.eqb s "" then VNull
      else match parseDate s with
           | Some t => VTimestamp t
           | None => VNull
           end
  | DateFieldValue => VServerTimestamp
  end.

(** [getPosAdapter(systemId, credentials)] *)
Definition getPosAdapter (systemId : string) : Outcome PosAdapter :=
  if String.eqb systemId "caspit" then Returns caspit
  else if String.eqb systemId "hashavshevet" then Returns HashavshevetAdapter
  else Throws ("POS adapter not found for system: " ++ systemId).

Definition failed (message : string) : ActionResult :=
  mkActionResult false message None.

(** The adapter a server action works with; the failure of the lookup is
    the message of the error the action catches. *)
Definition actionAdapter (config : DocData) : Outcome PosAdapter :=
  match nonEmpty (strField config "systemId") with
  | None => Throws "POS system ID is missing from the configuration."
  | Some systemId => getPosAdapter systemId
  end.

(** [upsertPosProductAction]: every error is caught and returned as an
    unsuccessful result. *)
Definition upsertPosProductAction (config : DocData) (appProduct : DocData)
  : ActionResult :=
  match actionAdapter config with
  | Throws e => failed e
  | Returns adapter =>
      match upsertProduct adapter with
      | None => failed ("The '" ++ systemName adapter ++
          "' adapter does not support creating or updating products.")
      | Some method =>
          match method appProduct with
          | Returns result => result
          | Throws e => failed e
          end
      end
  end.

(** [upsertPosSupplierAction] *)
Definition upsertPosSupplierAction (config : DocData) (supplier : DocData)
  : ActionResult :=
  match actionAdapter config with
  | Throws e => failed e
  | Returns adapter =>
      match upsertSupplier adapter with
      | None => failed ("The '" ++ systemName adapter ++
          "' adapter does not support creating or updating suppliers.")
      | Some method =>
          match method supplier with
          | Returns result => result
          | Throws e => failed e
          end
      end
  end.

(** [createPosExpenseAction] *)
Definition createPosExpenseAction (config : DocData) (document : DocData)
  : ActionResult :=
  match actionAdapter config with
  | Throws e => failed e
  | Returns adapter =>
      match createTaxInvoice adapter with
      | None => failed ("The '" ++ systemName adapter ++
          "' adapter does not support creating expenses.")
      | Some method =>
          match method document with
          | Returns extId =>
              mkActionResult true
                ("Expense created successfully in " ++ systemName adapter
                 ++ ".") extId
          | Throws e => failed e
          end
      end
  end.

(** ** The transaction of [finalizeSaveProductsService] *)

(** [where("name", "==", supplierName)] *)
Definition supplierNamed (supplierName : string) (d : DocData) : bool :=
  match d !! "name" with
  | Some (VStr s) => String.eqb s supplierName
  | _ => false
  end.

(** The pending document, read first: its data, or [{}]. *)
Definition readPendingDoc (σ : Store) (data : FinalizeInvoiceData)
  : Tx DocData :=
  match nonEmpty (existingDocumentId data) with
  | Some docId =>
      let! existingDocRef :=
        txLift (getUserSubcollectionDocRef (userId data)
                  DOCUMENTS_SUBCOLLECTION docId) in
      txRet (default ∅ (σ !! existingDocRef))
  | None => txRet ∅
  end.

(** The supplier of that name: found by a plain query, which sees the
    store as [σq], then read again through the transaction, which sees
    [σ]. With nothing else writing, [σq] and [σ] are the same store. *)
Definition readSupplier (σq σ : Store) (data : FinalizeInvoiceData)
    (supplierName : string) : Tx (option (string * DocData)) :=
  match queryFirst σq (userId data) SUPPLIERS_SUBCOLLECTION
          (supplierNamed supplierName) with
  | Some (existingSupplierId, _) =>
      match σ !! (userId data, SUPPLIERS_SUBCOLLECTION, existingSupplierId)
      with
      | Some supplierData => txRet (Some (existingSupplierId, supplierData))
      | None =>
          txThrow ("Supplier was deleted between the initial query " ++
                   "and the transaction start.")
      end
  | None => txRet None
  end.

(** The fields written on an existing supplier. *)
Definition supplierCounters (supplierData : DocData)
    (data : FinalizeInvoiceData) : DocData :=
  list_to_map
    [("totalSpent",
      VNum (numFieldOr0 supplierData "totalSpent"
            + numOr0 (totalAmount data)));
     ("invoiceCount", VNum (numFieldOr0 supplierData "invoiceCount" + 1));
     ("lastActivityDate", VServerTimestamp)].

(** The document of a supplier created by the finalizer. *)
Definition newSupplierDoc (finalSupplierId supplierName : string)
    (data : FinalizeInvoiceData) : DocData :=
  list_to_map
    [("id", VStr finalSupplierId);
     ("userId", VStr (userId data));
     ("name", VStr supplierName);
     ("totalSpent", VNum (numOr0 (totalAmount data)));
     ("invoiceCount", VNum 1);
     ("createdAt", VServerTimestamp);
     ("lastActivityDate", VServerTimestamp);
     ("paymentTerms", strOrNull (paymentTerms data));
     ("osekMorshe", strOrNull (osekMorshe data));
     ("posRefs", VObj ∅)].

(** The supplier write; the result is [finalSupplierId]. *)
Definition stageSupplier (data : FinalizeInvoiceData) (supplierName : string)
    (existing : option (string * DocData)) : Tx string :=
  match existing with
  | Some (existingSupplierId, supplierData) =>
      let! _ := txStage
        (WUpdate (userId data, SUPPLIERS_SUBCOLLECTION, existingSupplierId)
           (supplierCounters supplierData data)) in
      txRet existingSupplierId
  | None =>
      let! n := txNewId in
      let finalSupplierId := autoId n in
      let! _ := txStage
        (WSet (userId data, SUPPLIERS_SUBCOLLECTION, finalSupplierId)
           (newSupplierDoc finalSupplierId supplierName data) false) in
      txRet finalSupplierId
  end.

(** The update of an existing inventory record. *)
Definition updateLineItem (userId originalId : string) (productData : DocData)
    (saved : list DocData) : Tx (list DocData) :=
  let! productRef :=
    txLift (getUserSubcollectionDocRef userId INVENTORY_SUBCOLLECTION
              originalId) in
  let! _ := txStage
    (WUpdate productRef
       (<["isActive" := VBool true]>
          (<["lastUpdated" := VServerTimestamp]> productData))) in
  txRet (saved ++ [<["userId" := VStr userId]>
                     (<["id" := VStr originalId]> productData)])%list.

(** The creation of an inventory record under a generated id. *)
Definition createLineItem (userId : string) (productData : DocData)
    (saved : list DocData) : Tx (list DocData) :=
  let! n := txNewId in
  let newProductData :=
    <["isActive" := VBool true]>
      (<["lastUpdated" := VServerTimestamp]>
         (<["userId" := VStr userId]>
            (<["id" := VStr (autoId n)]> productData))) in
  let! _ := txStage
    (WSet (userId, INVENTORY_SUBCOLLECTION, autoId n) newProductData false) in
  txRet (saved ++ [delete "lastUpdated" newProductData])%list.

(** One iteration of [for (const product of products)]. A truthy
    [_originalId] that is not a string has no [startsWith]. *)
Definition saveLineItem (userId : string) (product : DocData)
    (saved : list DocData) : Tx (list DocData) :=
  let _originalId := product !! "_originalId" in
  let productData := delete "_originalId" product in
  match _originalId with
  | Some v =>
      if truthy v then
        match v with
        | VStr originalId =>
            if negb (String.prefix "prod-temp-" originalId)
            then updateLineItem userId originalId productData saved
            else createLineItem userId productData saved
        | _ => txThrow "_originalId.startsWith is not a function"
        end
      else createLineItem userId productData saved
  | None => createLineItem userId productData saved
  end.

Fixpoint saveLineItems (userId : string) (products : list DocData)
    (saved : list DocData) : Tx (list DocData) :=
  match products with
  | [] => txRet saved
  | product :: rest =>
      let! saved' := saveLineItem userId product saved in
      saveLineItems userId rest saved'
  end.

(** [invoiceData], the document written for the invoice. *)
Definition invoiceRecord (data : FinalizeInvoiceData) (supplierName : string)
    (pendingDocData : DocData) (invoiceId finalSupplierId : string)
    (savedOrUpdatedProducts : list DocData) : DocData :=
  list_to_map
    [("fileType", orElse (pendingDocData !! "fileType") (VStr "unknown"));
     ("fileSize", orElse (pendingDocData !! "fileSize") (VNum 0));
     ("imageUri", orElse (pendingDocData !! "imageUri") VNull);
     ("compressedImageUri",
      orElse (pendingDocData !! "compressedImageUri") VNull);
     ("uploadTime", orElse (pendingDocData !! "uploadTime") VServerTimestamp);
     ("id", VStr invoiceId);
     ("userId", VStr (userId data));
     ("originalFileName", VStr (originalFileName data));
     ("generatedFileName",
      VStr (supplierName ++ "_" ++
            default "N_A" (nonEmpty (invoiceNumber data))));
     ("status", VStr "completed");
     ("documentType", VStr (docTypeName (docType data)));
     ("supplierName", VStr supplierName);
     ("supplierId", VStr finalSupplierId);
     ("invoiceNumber", strOrNull (invoiceNumber data));
     ("date", convertToTimestampIfValid (invoiceDate data));
     ("totalAmount", VNum (numNullish0 (totalAmount data)));
     ("paymentMethod", strOrNull (paymentMethod data));
     ("dueDate", convertToTimestampIfValid (paymentDueDate data));
     ("paymentStatus",
      VStr (match docType data with
            | receipt | invoiceReceipt => "paid"
            | _ => "unpaid"
            end));
     ("products", VArr (VObj <$> savedOrUpdatedProducts));
     ("isArchived", VBool false);
     ("syncedPos", VNull);
     ("originalImagePreviewUri",
      orElse (pendingDocData !! "originalImagePreviewUri") VNull);
     ("compressedImageForFinalRecordUri",
      orElse (pendingDocData !! "compressedImageForFinalRecordUri") VNull);
     ("linkedDeliveryNoteIds", VArr []);
     ("linkedInvoiceId", VNull);
     ("paymentTerms", strOrNull (paymentTerms data));
     ("osekMorshe", strOrNull (osekMorshe data));
     ("rawScanResultJson", strOrNull (rawScanResultJson data));
     ("errorMessage", VNull);
     ("paymentReceiptImageUri", VNull);
     ("taxAmount", VNull);
     ("subtotalAmount", VNull)].

(** [finalInvoiceRef]: the pending document, or a new one. *)
Definition finalInvoiceRef (data : FinalizeInvoiceData) : Tx DocRef :=
  match nonEmpty (existingDocumentId data) with
  | Some docId =>
      txLift (getUserSubcollectionDocRef (userId data)
                DOCUMENTS_SUBCOLLECTION docId)
  | None =>
      let! n := txNewId in
      txRet (userId data, DOCUMENTS_SUBCOLLECTION, autoId n)
  end.

(** What the update function leaves in the variables of the service. *)
Record Finalized := mkFinalized {
  finalInvoiceRecord : DocData;
  savedOrUpdatedProducts : list DocData;
  finalSupplierId : string
}.

(** The update function passed to [runTransaction]: all reads, then the
    supplier write, the line items, and the invoice. The array
    [savedOrUpdatedProducts] is declared outside the update function: the
    loop pushes onto what the array holds when the update function is
    called ([pushed]), and the invoice takes the whole array. *)
Definition finalizeTransaction (σq σ : Store) (data : FinalizeInvoiceData)
    (supplierName : string) (pushed : list DocData) : Tx Finalized :=
  let! pendingDocData := readPendingDoc σ data in
  let! existingSupplier := readSupplier σq σ data supplierName in
  let! supplierId := stageSupplier data supplierName existingSupplier in
  let! saved := saveLineItems (userId data) (products data) pushed in
  let! invoiceRef := finalInvoiceRef data in
  let invoiceData :=
    invoiceRecord data supplierName pendingDocData invoiceRef.2 supplierId
      saved in
  let! _ := txStage (WSet invoiceRef invoiceData true) in
  txRet (mkFinalized invoiceData saved supplierId).

(** The update function as [runTransaction] calls it, attempt after
    attempt: the attempt sees the store as [seen.1] through the supplier
    query and as [seen.2] through the transaction, and leaves the array
    with what it has pushed. *)
Definition finalizeAttempt (data : FinalizeInvoiceData)
    (supplierName : string) (seen : Store * Store) (pushed : list DocData)
  : Tx (Finalized * list DocData) :=
  let! fin := finalizeTransaction seen.1 seen.2 data supplierName pushed in
  txRet (fin, savedOrUpdatedProducts fin).

(** Where the attempt that commits starts: the products the aborted
    attempts of the call have pushed, and the next automatic id. *)
Definition earlierAttempts (data : FinalizeInvoiceData)
    (supplierName : string) (aborted : list (Store * Store)) (autoIds : nat)
  : Outcome (list DocData * nat) :=
  abortedAttempts (DEFAULT_MAX_ATTEMPTS - 1)
    (finalizeAttempt data supplierName) aborted [] autoIds.

(** ** The POS synchronization of [finalizeSaveProductsService] *)

(** [getUserSettingsService(userId)]: the settings document, or [{}]. *)
Definition getUserSettingsService (userId : string) : Sync DocData :=
  do! settingsRef :=
    syncLift (getUserSubcollectionDocRef userId USER_SETTINGS_SUBCOLLECTION
                "userProfile") in
  do! docSnap := syncGetDoc settingsRef in
  syncRet (default ∅ docSnap).

(** [userSettings.posConfig], when it is truthy. *)
Definition posConfigOf (userSettings : DocData) : option DocData :=
  match userSettings !! "posConfig" with
  | Some v =>
      if truthy v
      then Some (match v with VObj config => config | _ => ∅ end)
      else None
  | None => None
  end.

(** The key [`posRefs.${config.systemId}`] as a field path. *)
Definition posRefsPath (systemId : option string) : list string :=
  ["posRefs"; default "undefined" systemId].

(** [{ systemId: config.systemId, externalId, lastSync: <now> }] *)
Definition posRef (systemId : option string) (extId : string) : value :=
  let fields : gmap string value :=
    <["externalId" := VStr extId]> (<["lastSync" := VStr now]> ∅) in
  VObj (match systemId with
        | Some sys => <["systemId" := VStr sys]> fields
        | None => fields
        end).

(** A string or [null], as it is. *)
Definition strOrNullRaw (o : option string) : value :=
  match o with
  | Some s => VStr s
  | None => VNull
  end.

(** Step 1: the supplier's external id, taken from [posRefs] or obtained
    from the supplier upsert and written back. *)
Definition syncSupplier (config : DocData) (supplierDocRef : DocRef)
    (supplierData : DocData) : Sync value :=
  let systemId := strField config "systemId" in
  let posSupplierId :=
    match nonEmpty systemId with
    | Some sys => getPath ["posRefs"; sys; "externalId"] supplierData
    | None => None
    end in
  if truthy (default VNull posSupplierId)
  then syncRet (default VNull posSupplierId)
  else
    let contactResult := upsertPosSupplierAction config supplierData in
    match success contactResult, nonEmpty (externalId contactResult) with
    | true, Some extId =>
        do! _ := syncUpdateDocUnless refuses supplierDocRef
                   [(posRefsPath systemId, posRef systemId extId)] in
        syncRet (VStr extId)
    | _, _ =>
        syncThrow ("POS supplier sync failed: " ++ message contactResult)
    end.

(** Step 2 for one product: an unsuccessful upsert is passed over. *)
Definition syncProduct (config : DocData) (userId : string)
    (product : DocData) : Sync unit :=
  let systemId := strField config "systemId" in
  let pResult :=
    upsertPosProductAction config (<["userId" := VStr userId]> product) in
  match success pResult, nonEmpty (externalId pResult),
        truthyString (product !! "id") with
  | true, Some extId, Some productId =>
      do! productRef :=
        syncLift (getUserSubcollectionDocRef userId INVENTORY_SUBCOLLECTION
                    productId) in
      syncUpdateDocUnless refuses productRef
        [(posRefsPath systemId, posRef systemId extId)]
  | _, _, _ => syncRet tt
  end.

Fixpoint syncProducts (config : DocData) (userId : string)
    (products : list DocData) : Sync unit :=
  match products with
  | [] => syncRet tt
  | product :: rest =>
      do! _ := syncProduct config userId product in
      syncProducts config userId rest
  end.

Definition syncSuccessFields : list (list string * value) :=
  [(["isSyncedToPos"], VBool true);
   (["syncStatus"; "status"], VStr "success");
   (["syncStatus"; "lastSync"], VStr now);
   (["syncStatus"; "error"], VNull)].

Definition syncErrorFields (posErrorMessage : string)
  : list (list string * value) :=
  [(["isSyncedToPos"], VBool false);
   (["syncStatus"; "status"], VStr "error");
   (["syncStatus"; "error"], VStr ("POS Sync Failed: " ++ posErrorMessage))].

(** Step 3: the expense for a payable document, and the sync status. *)
Definition syncDocument (config : DocData) (docType : DocType)
    (invoiceDocRef : DocRef) (finalInvoiceRecord : DocData) : Sync unit :=
  let systemId := strField config "systemId" in
  match docType with
  | invoice | invoiceReceipt | receipt =>
      let expenseResult := createPosExpenseAction config finalInvoiceRecord in
      match success expenseResult, nonEmpty (externalId expenseResult) with
      | true, Some extId =>
          syncUpdateDocUnless refuses invoiceDocRef
            (syncSuccessFields ++ [(posRefsPath systemId, posRef systemId extId)])
      | _, _ =>
          syncThrow ("POS expense creation failed: " ++ message expenseResult)
      end
  | deliveryNote => syncUpdateDocUnless refuses invoiceDocRef syncSuccessFields
  end.

(** [finalInvoiceRecord.id] *)
Definition invoiceIdOf (fin : Finalized) : string :=
  default "" (strField (finalInvoiceRecord fin) "id").

(** Steps 1 to 3 for a supplier document that exists. *)
Definition syncEntities (config : DocData) (data : FinalizeInvoiceData)
    (fin : Finalized) (supplierDocRef invoiceDocRef : DocRef)
    (storedSupplier : DocData) : Sync unit :=
  let supplierData :=
    <["osekMorshe" := strOrNullRaw (osekMorshe data)]> storedSupplier in
  do! posSupplierId := syncSupplier config supplierDocRef supplierData in
  if truthy posSupplierId then
    do! _ := syncProducts config (userId data) (savedOrUpdatedProducts fin) in
    syncDocument config (docType data) invoiceDocRef (finalInvoiceRecord fin)
  else syncRet tt.

(** The synchronization when [userSettings.posConfig] is set. *)
Definition posSyncConfigured (config : DocData) (data : FinalizeInvoiceData)
    (fin : Finalized) : Sync unit :=
  do! supplierDocRef :=
    syncLift (getUserSubcollectionDocRef (userId data)
                SUPPLIERS_SUBCOLLECTION (finalSupplierId fin)) in
  do! invoiceDocRef :=
    syncLift (getUserSubcollectionDocRef (userId data)
                DOCUMENTS_SUBCOLLECTION (invoiceIdOf fin)) in
  do! supplierDoc := syncGetDoc supplierDocRef in
  match supplierDoc with
  | Some storedSupplier =>
      syncEntities config data fin supplierDocRef invoiceDocRef storedSupplier
  | None => syncRet tt
  end.

(** The body of the inner [try]. *)
Definition posSync (data : FinalizeInvoiceData) (fin : Finalized)
  : Sync unit :=
  do! userSettings := getUserSettingsService (userId data) in
  match posConfigOf userSettings with
  | Some config => posSyncConfigured config data fin
  | None => syncRet tt
  end.

(** The [catch (posError)] of the inner [try]. Its own [updateDoc] is not
    guarded: an error of that write leaves the handler. *)
Definition recordSyncError (data : FinalizeInvoiceData) (fin : Finalized)
    (posErrorMessage : string) : Sync unit :=
  if negb (String.eqb (invoiceIdOf fin) "") then
    do! invoiceDocRef :=
      syncLift (getUserSubcollectionDocRef (userId data)
                  DOCUMENTS_SUBCOLLECTION (invoiceIdOf fin)) in
    syncUpdateDocUnless refuses invoiceDocRef (syncErrorFields posErrorMessage)
  else syncRet tt.

(** [finalizeSaveProductsService(data)] on the store [σ]: what it returns
    or throws, and the store it leaves. [σq] is the store as the supplier
    query of the attempt that commits saw it, see [readSupplier];
    [aborted] is what the attempts before it saw, when the store aborted
    their commits. The outer [catch] rethrows. *)
Definition finalizeSaveProductsService (aborted : list (Store * Store))
    (σq σ : Store) (autoIds : nat) (data : FinalizeInvoiceData)
  : Outcome (DocData * list DocData) * Store :=
  if String.eqb (userId data) "" then (Throws "User ID is missing.", σ)
  else
    match nonEmpty (supplierName data) with
    | None => (Throws "Supplier name is required.", σ)
    | Some supplierName =>
        match runTransaction rejects (finalizeAttempt data supplierName)
                aborted (σq, σ) σ [] autoIds with
        | Throws e => (Throws e, σ)
        | Returns (fin, σc, _) =>
            match syncCatch (posSync data fin) (recordSyncError data fin) σc
            with
            | (Returns _, σ') =>
                (Returns (finalInvoiceRecord fin, savedOrUpdatedProducts fin),
                 σ')
            | (Throws e, σ') => (Throws e, σ')
            end
        end
    end.

(** ** Supplier creation *)

(** [createSupplierService(supplierData, userId)] *)
Definition createSupplierService (σ : Store) (autoIds : nat)
    (supplierData : DocData) (userId : string) : Outcome DocData * Store :=
  match nonEmpty (strField supplierData "name") with
  | None =>
      (Throws "Supplier name is required to create a new supplier.", σ)
  | Some supplierName =>
      match getUserSubcollectionRef userId "suppliers" with
      | Throws e => (Throws e, σ)
      | Returns _ =>
          match queryFirst σ userId "suppliers" (supplierNamed supplierName)
          with
          | Some (existingId, existingData) =>
              (Returns (existingData ∪ {["id" := VStr existingId]}), σ)
          | None =>
              let newSupplierData : gmap string value :=
                <["posRefs" := VObj ∅]>
                  (<["totalSpent" := VNum 0]>
                     (<["invoiceCount" := VNum 0]>
                        (<["lastActivityDate" := VServerTimestamp]>
                           (<["createdAt" := VServerTimestamp]>
                              (<["userId" := VStr userId]>
                                 (<["name" := VStr supplierName]>
                                    supplierData)))))) in
              let newId := autoId autoIds in
              (Returns (newSupplierData ∪ {["id" := VStr newId]}),
               <[(userId, "suppliers", newId) := newSupplierData]> σ)
          end
      end
  end.

(** The POS part of [createSupplierAndSyncWithPosService]: [Some] supplier
    when the function returns from inside the [try]. *)
Definition syncNewSupplier (userId : string) (finalSupplierObject : DocData)
  : Sync (option DocData) :=
  do! userSettings := getUserSettingsService userId in
  match posConfigOf userSettings with
  | Some config =>
      let systemId := strField config "systemId" in
      let result := upsertPosSupplierAction config finalSupplierObject in
      match success result, nonEmpty (externalId result) with
      | true, Some extId =>
          match truthyString (finalSupplierObject !! "id") with
          | None =>
              syncThrow "Failed to get ID for the newly created supplier."
          | Some supplierId =>
              do! supplierRef :=
                syncLift (getUserSubcollectionDocRef userId
                            SUPPLIERS_SUBCOLLECTION supplierId) in
              do! _ := syncUpdateDoc supplierRef
                         [(posRefsPath systemId, posRef systemId extId)] in
              syncRet (Some
                (match nonEmpty systemId with
                 | Some sys =>
                     setPath ["posRefs"; sys] (posRef systemId extId)
                       finalSupplierObject
                 | None => finalSupplierObject
                 end))
          end
      | _, _ => syncRet None
      end
  | None => syncRet None
  end.

(** [createSupplierAndSyncWithPosService(supplierData, userId)]: no read
    of the suppliers collection, and no write of the new supplier. *)
Definition createSupplierAndSyncWithPosService (σ : Store) (autoIds : nat)
    (supplierData : DocData) (userId : string) : Outcome DocData * Store :=
  match getUserSubcollectionRef userId "suppliers" with
  | Throws e => (Throws e, σ)
  | Returns _ =>
      let newSupplierId := autoId autoIds in
      match nonEmpty (strField supplierData "name") with
      | None =>
          (Throws "Supplier name is required to create a new supplier.", σ)
      | Some supplierName =>
          let newSupplierData : gmap string value :=
            <["posRefs" := VObj ∅]>
              (<["lastActivityDate" := VServerTimestamp]>
                 (<["createdAt" := VServerTimestamp]>
                    (<["userId" := VStr userId]>
                       (<["name" := VStr supplierName]> supplierData)))) in
          let finalSupplierObject : gmap string value :=
            <["lastActivityDate" := VStr now]>
              (<["createdAt" := VStr now]>
                 (<["id" := VStr newSupplierId]> newSupplierData)) in
          let recordError (posErrorMessage : string) : Sync (option DocData) :=
            if negb (String.eqb newSupplierId "") then
              do! supplierRef :=
                syncLift (getUserSubcollectionDocRef userId
                            SUPPLIERS_SUBCOLLECTION newSupplierId) in
              do! _ := syncUpdateDoc supplierRef
                         (syncErrorFields posErrorMessage) in
              syncRet None
            else syncRet None in
          match syncCatch (syncNewSupplier userId finalSupplierObject)
                  recordError σ with
          | (Returns (Some updatedSupplier), σ') =>
              (Returns updatedSupplier, σ')
          | (Returns None, σ') => (Returns finalSupplierObject, σ')
          | (Throws e, σ') => (Throws e, σ')
          end
      end
  end.

(** ** What the claims about the finalizer speak of *)

(** The line items of a call and the writes staged for them, with the
    supply of automatic ids before and after: a line item whose
    [_originalId] is a non-empty string without the prefix ["prod-temp-"]
    is an update of the inventory record of that id; any other line item
    is a set of a new record under the next automatic id, which the record
    carries as its [id]. Both stamp [isActive = true]. *)
Inductive lineItemWrites (userId : string)
  : nat -> list DocData -> list Write -> nat -> Prop :=
| items_done n : lineItemWrites userId n [] [] n
| item_updated n n' product rest ws originalId fields :
    product !! "_originalId" = Some (VStr originalId) ->
    originalId <> "" ->
    String.prefix "prod-temp-" originalId = false ->
    fields !! "isActive" = Some (VBool true) ->
    lineItemWrites userId n rest ws n' ->
    lineItemWrites userId n (product :: rest)
      (WUpdate (userId, INVENTORY_SUBCOLLECTION, originalId) fields :: ws) n'
| item_created n n' product rest ws record :
    (product !! "_originalId" = None
     \/ (exists v, product !! "_originalId" = Some v /\ truthy v = false)
     \/ (exists originalId, product !! "_originalId" = Some (VStr originalId)
                            /\ String.prefix "prod-temp-" originalId = true)) ->
    record !! "id" = Some (VStr (autoId n)) ->
    record !! "isActive" = Some (VBool true) ->
    lineItemWrites userId (S n) rest ws n' ->
    lineItemWrites userId n (product :: rest)
      (WSet (userId, INVENTORY_SUBCOLLECTION, autoId n) record false :: ws) n'.

End Services.

(** A line item as [EditableProduct] types it: [_originalId], when it is
    there and truthy, is a string. *)
Definition wellTypedItem (product : DocData) : Prop :=
  forall v, product !! "_originalId" = Some v -> truthy v = true ->
            exists s, v = VStr s.

(** The fields in which the POS synchronization keeps its books. *)
Definition posBookkeeping : list string :=
  ["posRefs"; "syncStatus"; "isSyncedToPos"].

(** Updates that only write bookkeeping fields. *)
Definition bookkeepingUpdates (updates : list (list string * value)) : Prop :=
  Forall (fun pv => exists k rest, pv.1 = k :: rest /\ k ∈ posBookkeeping)
    updates.

(** [σ'] still holds every document of [σ], with every field outside the
    POS bookkeeping as it was. *)
Definition keeps (σ σ' : Store) : Prop :=
  forall ref (d : gmap string value), σ !! ref = Some d ->
    exists d' : gmap string value,
      σ' !! ref = Some d'
      /\ forall k, k ∉ posBookkeeping -> d' !! k = d !! k.

(** The document at [ref] is there and active. *)
Definition activeAt (σ : Store) (ref : DocRef) : Prop :=
  exists d : DocData, σ !! ref = Some d /\ d !! "isActive" = Some (VBool true).

(** [σ'] is [σ] but for the document at [ref]. *)
Definition sameExceptAt (ref : DocRef) (σ σ' : Store) : Prop :=
  forall ref', ref' <> ref -> σ' !! ref' = σ !! ref'.

(** An adapter method that throws on every call. *)
Definition alwaysThrows {A : Type} (method : option (DocData -> Outcome A))
  : Prop :=
  forall f, method = Some f -> forall x, exists e, f x = Throws e.

Definition adapterAlwaysThrows (adapter : PosAdapter) : Prop :=
  alwaysThrows (upsertProduct adapter)
  /\ alwaysThrows (upsertSupplier adapter)
  /\ alwaysThrows (createTaxInvoice adapter).

(** A settings document that configures the POS system [systemId]. *)
Definition posConfigured (σ : Store) (userId : string) (config : DocData)
  : Prop :=
  exists settings : gmap string value,
    σ !! (userId, USER_SETTINGS_SUBCOLLECTION, "userProfile") = Some settings
    /\ posConfigOf settings = Some config.

End Backend.

(** * Concrete inputs *)

Module Scenarios.

Import PriceCheck.

(** An inventory with one record, catalog number [X] and barcode [Z]. *)
Definition oliveOil : Product :=
  mkProduct "p-1" "u1" "Olive oil" (Some "X") (Some "Z") (Some 1%float) 3
    (Some true).

Definition inventory1 : list Product := [oliveOil].

(** Two scanned lines: the first has the catalog number [Z] and no barcode,
    the second the catalog number [X]. *)
Definition vinegarLine : Product :=
  mkProduct "" "u1" "Vinegar" (Some "Z") None (Some 5%float) 1 None.

Definition oliveOilLine : Product :=
  mkProduct "" "u1" "Olive oil" (Some "X") None (Some 1%float) 2 None.

(** A line with no key at all. *)
Definition looseLine : Product :=
  mkProduct "" "u1" "Bread" None (Some "") (Some 2%float) 1 None.

Import Firestore Backend.

(** An environment to run the services in: ids [auto], [auto'], ...; a
    fixed clock; no parsable dates; a store that accepts every commit. *)
Fixpoint ticks (n : nat) : string :=
  match n with
  | O => ""
  | S k => "'" ++ ticks k
  end.

Definition autoId0 (n : nat) : string := "auto" ++ ticks n.

Definition now0 : string := "2025-01-01T00:00:00.000Z".

Definition parseDate0 (s : string) : option Z := None.

Definition acceptAll (ref : DocRef) : bool := false.

Definition acceptUpdates (ref : DocRef)
    (updates : list (list string * value)) : option string := None.

(** A store that refuses every write after the commit. *)
Definition refuseUpdates (ref : DocRef)
    (updates : list (list string * value)) : option string :=
  Some "Missing or insufficient permissions.".

(** A Caspit that takes suppliers and expenses and fails on products. *)
Definition caspitRejectingProducts : PosAdapter :=
  {| systemName := "Caspit";
     upsertProduct := Some (fun _ => Throws "Caspit API error 500");
     upsertSupplier := Some (fun _ =>
       Returns (mkActionResult true "Supplier synced." (Some "C-100")));
     createTaxInvoice := Some (fun _ => Returns (Some "E-200")) |}.

(** A Caspit that is down: every call throws. *)
Definition caspitDown : PosAdapter :=
  {| systemName := "Caspit";
     upsertProduct := Some (fun _ => Throws "Caspit unreachable");
     upsertSupplier := Some (fun _ => Throws "Caspit unreachable");
     createTaxInvoice := Some (fun _ => Throws "Caspit unreachable") |}.

(** The supplier Acme of user [u1], with two invoices so far. *)
Definition acme : DocData :=
  list_to_map
    [("id", VStr "s1"); ("userId", VStr "u1"); ("name", VStr "Acme");
     ("totalSpent", VNum 100); ("invoiceCount", VNum 2);
     ("posRefs", VObj ∅)].

Definition storeAcme : gmap (string * string * string) (gmap string value) :=
  {[ ("u1", SUPPLIERS_SUBCOLLECTION, "s1") := acme ]}.

(** The same store for a user who has configured Caspit. *)
Definition caspitSettings : DocData :=
  list_to_map
    [("posConfig", VObj (list_to_map [("systemId", VStr "caspit")]))].

Definition storeAcmeCaspit
  : gmap (string * string * string) (gmap string value) :=
  <[("u1", USER_SETTINGS_SUBCOLLECTION, "userProfile") := caspitSettings]>
    storeAcme.

Definition milk : DocData :=
  list_to_map [("name", VStr "Milk"); ("unitPrice", VNum 5);
               ("quantity", VNum 10)].

(** A line that claims to update an inventory record that does not exist. *)
Definition ghostLine : DocData :=
  list_to_map [("_originalId", VStr "ghost"); ("name", VStr "Ghost");
               ("unitPrice", VNum 1)].

Definition tempLine : DocData :=
  list_to_map [("_originalId", VStr "prod-temp-17"); ("name", VStr "Tea")].

Definition knownLine : DocData :=
  list_to_map [("_originalId", VStr "p-9"); ("name", VStr "Salt")].

(** The inventory record that line names, inactive, beside Acme. *)
Definition salt : DocData :=
  list_to_map [("id", VStr "p-9"); ("userId", VStr "u1");
               ("name", VStr "Salt"); ("isActive", VBool false)].

Definition storeAcmeSalt
  : gmap (string * string * string) (gmap string value) :=
  <[("u1", INVENTORY_SUBCOLLECTION, "p-9") := salt]> storeAcme.

(** A receipt from Acme with one new product. *)
Definition receiptFromAcme (items : list DocData) (type : DocType)
  : FinalizeInvoiceData :=
  {| products := items;
     originalFileName := "scan.jpg";
     docType := type;
     userId := "u1";
     existingDocumentId := None;
     invoiceNumber := Some "R-1";
     supplierName := Some "Acme";
     totalAmount := Some 50%Q;
     paymentDueDate := DateNull;
     invoiceDate := DateNull;
     paymentMethod := None;
     originalImagePreviewUri := None;
     compressedImageForFinalRecordUri := None;
     rawScanResultJson := None;
     paymentTerms := None;
     osekMorshe := Some "514000000" |}.

End Scenarios.

(** * Predicates on the lookup map of the price reconciliation *)

Module Lookup.

Import PriceCheck.

(** The product has [k] as its catalog number or as its barcode, and [k]
    is truthy: the keys [addProductToMap] files a product under, and the
    keys [findExisting] looks a candidate up by. *)
Definition carriesKey (k : string) (p : Product) : Prop :=
  nonEmpty (catalogNumber p) = Some k \/ nonEmpty (barcode p) = Some k.

(** Every entry of the map is an inventory record filed under one of its
    own keys. *)
Definition mapSound (inventory : list Product) (m : gmap string Product)
  : Prop :=
  forall k e, m !! k = Some e -> e ∈ inventory /\ carriesKey k e.

(** The map has an entry for every one of [values] that some inventory
    record has in its field [f]. *)
Definition mapCovers (inventory : list Product) (f : Field)
    (values : list string) (m : gmap string Product) : Prop :=
  forall k e, k ∈ values -> k <> "" -> e ∈ inventory ->
    fieldOf f e = Some k -> is_Some (m !! k).

End Lookup.

(** * Predicates on what the finalizer leaves *)

Module FinalizeSpec.

Import Firestore Backend.

(** An entry of [savedOrUpdatedProducts] made from the line item
    [product]: it carries the user, has no [_originalId], and has every
    property of the line item but the ones the loop sets itself. *)
Definition savedFrom (userId : string) (product saved : DocData) : Prop :=
  saved !! "userId" = Some (VStr userId)
  /\ saved !! "_originalId" = None
  /\ forall k,
       k ∉ ["id"; "userId"; "_originalId"; "isActive"; "lastUpdated"] ->
       saved !! k = product !! k.

(** The store changed at most at the references that satisfy [P]. *)
Definition sameOutside (P : DocRef -> Prop) (σ σ' : Store) : Prop :=
  forall ref, ~ P ref -> σ' !! ref = σ !! ref.

(** The documents of one user in the three collections the finalizer
    writes to. *)
Definition finalizeScope (userId : string) (ref : DocRef) : Prop :=
  ref.1.1 = userId
  /\ ref.1.2 ∈ [SUPPLIERS_SUBCOLLECTION; INVENTORY_SUBCOLLECTION;
                DOCUMENTS_SUBCOLLECTION].

End FinalizeSpec.

(** * More of the backend services *)

Module Services.

Import Firestore Backend.

(** [getDocs(query(collection, where(...)))]: the documents of the user's
    collection that satisfy the filter, with their ids, in the order the
    store returns them. [queryFirst] is the head of this list. *)
Definition queryAll (σ : Store) (userId collection : string)
    (P : DocData -> bool) : list (string * DocData) :=
  omap (fun rd : (string * string * string) * gmap string value =>
          let '((u, c, i), d) := rd in
          if String.eqb u userId && String.eqb c collection && P d
          then Some (i, d) else None)
       (map_to_list σ).

Definition syncQuery (userId collection : string) (P : DocData -> bool)
  : Sync (list (string * DocData)) :=
  fun σ => (Returns (queryAll σ userId collection P), σ).

(** [updateDoc(ref, data)] where the keys of [data] are plain field names:
    the named fields are replaced, the others stay. *)
Definition syncUpdateFields (ref : DocRef) (data : DocData) : Sync unit :=
  fun σ =>
    match σ !! ref with
    | Some d => (Returns tt, <[ref := data ∪ d]> σ)
    | None => (Throws "No document to update", σ)
    end.

(** [{ id: doc.id, ...doc.data() }] *)
Definition withDocId (doc : string * DocData) : DocData :=
  doc.2 ∪ {["id" := VStr doc.1]}.

(** [where(k, "==", v)] for a string [v], and for [null]. *)
Definition fieldIs (k v : string) (d : DocData) : bool :=
  match d !! k with
  | Some (VStr s) => String.eqb s v
  | _ => false
  end.

Definition fieldIsNull (k : string) (d : DocData) : bool :=
  match d !! k with
  | Some VNull => true
  | _ => false
  end.

(** [where("isActive", "==", true)] *)
Definition isActiveProduct (d : DocData) : bool :=
  match d !! "isActive" with
  | Some (VBool b) => b
  | _ => false
  end.

(** [error.message || dflt] *)
Definition messageOr (e dflt : string) : string :=
  if String.eqb e "" then dflt else e.

Section Products.

Variable caspit : PosAdapter.

(** [deactivatePosProductAction] of [actions/pos-actions.ts]: an upsert
    with [isActive: false]; every error is caught. *)
Definition deactivatePosProductAction (config appProduct : DocData)
  : ActionResult :=
  let unknown := "An unknown error occurred while deactivating the product." in
  match actionAdapter caspit config with
  | Throws e => failed (messageOr e unknown)
  | Returns adapter =>
      match upsertProduct adapter with
      | None =>
          failed (messageOr
                    ("The '" ++ systemName adapter ++
                     "' adapter does not support deactivating products.")
                    unknown)
      | Some method =>
          match method (<["isActive" := VBool false]> appProduct) with
          | Returns result =>
              mkActionResult (success result) (message result) None
          | Throws e => failed (messageOr e unknown)
          end
      end
  end.

(** [getProductsService(userId, { includeInactive })] *)
Definition getProductsService (userId : string) (includeInactive : bool)
  : Sync (list DocData) :=
  do! _ := syncLift (getUserSubcollectionRef userId INVENTORY_SUBCOLLECTION) in
  do! docs := syncQuery userId INVENTORY_SUBCOLLECTION
                (fun d => includeInactive || isActiveProduct d) in
  syncRet (snd <$> docs).

(** [getProductByIdService(productId, userId)] *)
Definition getProductByIdService (productId userId : string)
  : Sync (option DocData) :=
  do! productRef :=
    syncLift (getUserSubcollectionDocRef userId INVENTORY_SUBCOLLECTION
                productId) in
  syncGetDoc productRef.

(** The POS part of [updateProductService] and [deleteProductService]:
    the result of the action is logged and otherwise ignored. *)
Definition notifyPos (userId : string)
    (action : DocData -> DocData -> ActionResult) (product : DocData)
  : Sync unit :=
  do! userSettings := getUserSettingsService userId in
  match posConfigOf userSettings with
  | Some config =>
      match nonEmpty (strField config "systemId") with
      | Some _ => let _ := action config product in syncRet tt
      | None => syncRet tt
      end
  | None => syncRet tt
  end.

(** [updateProductService(productId, productData, userId)] *)
Definition updateProductService (productId : string) (productData : DocData)
    (userId : string) : Sync unit :=
  if String.eqb userId ""
  then syncThrow "DB not initialized or User ID missing."
  else
    do! productRef :=
      syncLift (getUserSubcollectionDocRef userId INVENTORY_SUBCOLLECTION
                  productId) in
    let dataToUpdate := <["lastUpdated" := VServerTimestamp]> productData in
    do! productDoc := syncGetDoc productRef in
    match productDoc with
    | None => syncThrow "Product not found for update."
    | Some stored =>
        let productBeforeUpdate : gmap string value :=
          stored ∪ <["id" := VStr productId]> {["userId" := VStr userId]} in
        do! _ := syncUpdateFields productRef dataToUpdate in
        notifyPos userId (upsertPosProductAction caspit)
          (dataToUpdate ∪ productBeforeUpdate)
    end.

(** [deleteProductService(productId, userId)]: the product is marked
    inactive, not removed. *)
Definition deleteProductService (productId userId : string) : Sync unit :=
  do! productRef :=
    syncLift (getUserSubcollectionDocRef userId INVENTORY_SUBCOLLECTION
                productId) in
  do! productDoc := syncGetDoc productRef in
  match productDoc with
  | None => syncThrow "Product not found for deactivation."
  | Some stored =>
      let productToDeactivate : gmap string value :=
        stored ∪ <["id" := VStr productId]> {["userId" := VStr userId]} in
      do! _ := syncUpdateDoc productRef
                 [(["isActive"], VBool false);
                  (["lastUpdated"], VServerTimestamp)] in
      notifyPos userId deactivatePosProductAction productToDeactivate
  end.

End Products.

(** [reactivateProductService(productId, userId)] *)
Definition reactivateProductService (productId userId : string) : Sync unit :=
  do! productRef :=
    syncLift (getUserSubcollectionDocRef userId INVENTORY_SUBCOLLECTION
                productId) in
  syncUpdateDoc productRef
    [(["isActive"], VBool true); (["lastUpdated"], VServerTimestamp)].

(** ** Payment status *)

(** [Invoice["paymentStatus"]] *)
Inductive PaymentStatus :=
| paid | unpaid | pending_payment | partially_paid | linked.

Definition paymentStatusName (s : PaymentStatus) : string :=
  match s with
  | paid => "paid"
  | unpaid => "unpaid"
  | pending_payment => "pending_payment"
  | partially_paid => "partially_paid"
  | linked => "linked"
  end.

(** [updateInvoicePaymentStatusService]; the optional receipt image is
    [None] when the argument is [undefined], [Some None] when it is
    [null]. *)
Definition updateInvoicePaymentStatusService (invoiceId : string)
    (paymentStatus : PaymentStatus) (userId : string)
    (paymentReceiptImageUri : option (option string)) : Sync unit :=
  do! invoiceRef :=
    syncLift (getUserSubcollectionDocRef userId DOCUMENTS_SUBCOLLECTION
                invoiceId) in
  let updateData : list (list string * value) :=
    (["paymentStatus"], VStr (paymentStatusName paymentStatus)) ::
    match paymentStatus with
    | paid =>
        match paymentReceiptImageUri with
        | Some uri => [(["paymentReceiptImageUri"], strOrNullRaw uri)]
        | None => []
        end
    | _ => [(["paymentReceiptImageUri"], VNull)]
    end in
  syncUpdateDoc invoiceRef updateData.

(** [linkReceiptToInvoiceAction] of [actions/pos-actions.ts]; the result
    has no [externalId]. *)
Definition linkReceiptToInvoiceAction (invoiceId userId receiptDataUri : string)
  : Sync ActionResult :=
  syncCatch
    (if String.eqb invoiceId "" || String.eqb userId ""
        || String.eqb receiptDataUri ""
     then syncThrow "Missing required data to link receipt."
     else
       do! _ := updateInvoicePaymentStatusService invoiceId paid userId
                  (Some (Some receiptDataUri)) in
       syncRet (mkActionResult true "Receipt linked successfully." None))
    (fun e => syncRet (failed (messageOr e "Failed to link receipt."))).

(** ** The lists the linking sheets show *)

(** The documents [getUnpaidInvoicesBySupplier] of
    [actions/invoice-actions.ts] reads. *)
Definition unpaidInvoiceDocs (σ : Store) (supplierId userId : string)
  : list (string * DocData) :=
  queryAll σ userId DOCUMENTS_SUBCOLLECTION
    (fun d => fieldIs "supplierId" supplierId d
              && fieldIs "paymentStatus" "unpaid" d
              && fieldIs "documentType" "invoice" d).

Definition getUnpaidInvoicesBySupplier (σ : Store) (supplierId : string)
    (userId : option string) : Outcome (list DocData) :=
  match nonEmpty userId with
  | None => Throws "User not authenticated"
  | Some uid =>
      if String.eqb supplierId "" then Returns []
      else Returns (withDocId <$> unpaidInvoiceDocs σ supplierId uid)
  end.

(** The documents [getUnlinkedDeliveryNotesBySupplier] reads: the filter
    [where("linkedToInvoiceId", "==", null)] takes the documents in which
    the field is there and is [null]. *)
Definition unlinkedDeliveryNoteDocs (σ : Store) (supplierId userId : string)
  : list (string * DocData) :=
  queryAll σ userId DOCUMENTS_SUBCOLLECTION
    (fun d => fieldIs "supplierId" supplierId d
              && fieldIs "documentType" "deliveryNote" d
              && fieldIsNull "linkedToInvoiceId" d).

Definition getUnlinkedDeliveryNotesBySupplier (σ : Store) (supplierId : string)
    (userId : option string) : Outcome (list DocData) :=
  match nonEmpty userId with
  | None => Throws "User not authenticated"
  | Some uid =>
      if String.eqb supplierId "" then Returns []
      else Returns (withDocId <$> unlinkedDeliveryNoteDocs σ supplierId uid)
  end.

(** The [status] argument of [getInvoicesByStatusService]. *)
Inductive StatusFilter :=
| byUnpaid | byPaid | byPending | byProcessing | byError.

Definition statusFilterName (s : StatusFilter) : string :=
  match s with
  | byUnpaid => "unpaid"
  | byPaid => "paid"
  | byPending => "pending"
  | byProcessing => "processing"
  | byError => "error"
  end.

Section Ordered.

(** [orderBy("date", "desc")] is the store's: it keeps the documents that
    have the field and puts them in its order of field values, of which
    [dateBefore a b] tells whether [a] comes before [b]. *)
Variable dateBefore : value -> value -> bool.

Fixpoint insertByDate (doc : string * DocData) (v : value)
    (sorted : list (string * DocData)) : list (string * DocData) :=
  match sorted with
  | [] => [doc]
  | doc' :: rest =>
      match doc'.2 !! "date" with
      | Some v' =>
          if dateBefore v' v then doc' :: insertByDate doc v rest
          else doc :: sorted
      | None => doc :: sorted
      end
  end.

Definition orderByDate (docs : list (string * DocData))
  : list (string * DocData) :=
  foldr (fun doc sorted =>
           match doc.2 !! "date" with
           | Some v => insertByDate doc v sorted
           | None => sorted
           end) [] docs.

(** The documents [getInvoicesByStatusService] reads: the filter is on
    the field [status]. *)
Definition invoicesByStatusDocs (σ : Store) (userId : string)
    (status : StatusFilter) (supplierId : option string)
  : list (string * DocData) :=
  orderByDate
    (queryAll σ userId DOCUMENTS_SUBCOLLECTION
       (fun d =>
          fieldIs "status" (statusFilterName status) d
          && match nonEmpty supplierId with
             | Some sid => fieldIs "supplierId" sid d
             | None => true
             end)).

Definition getInvoicesByStatusService (userId : string)
    (status : StatusFilter) (supplierId : option string)
  : Sync (list DocData) :=
  do! _ := syncLift (getUserSubcollectionRef userId DOCUMENTS_SUBCOLLECTION) in
  fun σ =>
    (Returns (withDocId <$> invoicesByStatusDocs σ userId status supplierId),
     σ).

End Ordered.

(** ** Suppliers *)

(** [getSupplierByIdService(supplierId, userId)] *)
Definition getSupplierByIdService (supplierId userId : string)
  : Sync (option DocData) :=
  if String.eqb supplierId "" || String.eqb userId "" then syncRet None
  else
    do! supplierRef :=
      syncLift (getUserSubcollectionDocRef userId SUPPLIERS_SUBCOLLECTION
                  supplierId) in
    do! docSnap := syncGetDoc supplierRef in
    syncRet ((fun d => withDocId (supplierId, d)) <$> docSnap).

(** [getSupplierByOsekMorsheService(osekMorshe, userId)] *)
Definition getSupplierByOsekMorsheService (osekMorshe userId : string)
  : Sync (option DocData) :=
  if String.eqb osekMorshe "" then syncRet None
  else
    do! _ := syncLift (getUserSubcollectionRef userId SUPPLIERS_SUBCOLLECTION) in
    fun σ =>
      (Returns (withDocId <$>
                  queryFirst σ userId SUPPLIERS_SUBCOLLECTION
                    (fieldIs "osekMorshe" osekMorshe)), σ).

(** ** Batches of products *)

Section Batch.

Variable autoId : nat -> string.
Variable rejects : DocRef -> bool.

(** The callback of [existingProductsSnapshot.forEach]: a later document
    under the same key replaces an earlier one. ([catalogNumber] and
    [barcode] are strings, as [Product] types them.) *)
Definition indexExisting (existingProductsMap : gmap string DocData)
    (product : DocData) : gmap string DocData :=
  let m1 :=
    match truthyString (product !! "catalogNumber") with
    | Some cn => <[cn := product]> existingProductsMap
    | None => existingProductsMap
    end in
  match truthyString (product !! "barcode") with
  | Some b => <[b := product]> m1
  | None => m1
  end.

(** [(product.catalogNumber && map.get(product.catalogNumber)) ||
     (product.barcode && map.get(product.barcode))] *)
Definition lookupExisting (existingProductsMap : gmap string DocData)
    (product : DocData) : option DocData :=
  match truthyString (product !! "catalogNumber")
          ≫= (fun cn => existingProductsMap !! cn) with
  | Some existingProduct => Some existingProduct
  | None =>
      truthyString (product !! "barcode")
        ≫= (fun b => existingProductsMap !! b)
  end.

(** The reference of the existing product: [existingProduct.id] has to be
    a non-empty string. *)
Definition existingProductRef (userId : string) (existingId : value)
  : Outcome DocRef :=
  match existingId with
  | VStr productId =>
      getUserSubcollectionDocRef userId INVENTORY_SUBCOLLECTION productId
  | v =>
      if truthy v
      then Throws "Invalid document reference: the id is not a string."
      else Throws
        "User ID and Document ID are required to access a subcollection document."
  end.

(** The body of [for (const product of products)]. *)
Definition upsertOne (userId : string)
    (existingProductsMap : gmap string DocData) (product : DocData)
  : Tx unit :=
  let create : Tx unit :=
    let! n := txNewId in
    txStage
      (WSet (userId, INVENTORY_SUBCOLLECTION, autoId n)
         (<["isActive" := VBool true]>
            (<["createdAt" := VServerTimestamp]>
               (<["lastUpdated" := VServerTimestamp]>
                  (<["userId" := VStr userId]>
                     (<["id" := VStr (autoId n)]> product))))) false) in
  match lookupExisting existingProductsMap product with
  | Some existingProduct =>
      match existingProduct !! "id" with
      | Some existingId =>
          let! productRef := txLift (existingProductRef userId existingId) in
          txStage
            (WUpdate productRef
               (<["isActive" := VBool true]>
                  (<["lastUpdated" := VServerTimestamp]> product)))
      | None => create
      end
  | None => create
  end.

Fixpoint upsertAll (userId : string)
    (existingProductsMap : gmap string DocData) (products : list DocData)
    (upsertedCount : nat) : Tx nat :=
  match products with
  | [] => txRet upsertedCount
  | product :: rest =>
      let! _ := upsertOne userId existingProductsMap product in
      upsertAll userId existingProductsMap rest (S upsertedCount)
  end.

(** [batchUpsertProductsService(products, userId)]: the writes go to one
    [writeBatch], which commits them together or not at all. *)
Definition batchUpsertProductsService (σ : Store) (autoIds : nat)
    (products : list DocData) (userId : string) : Outcome nat * Store :=
  match getUserSubcollectionRef userId INVENTORY_SUBCOLLECTION with
  | Throws e => (Throws e, σ)
  | Returns _ =>
      let existingProductsMap :=
        fold_left indexExisting
          (snd <$> queryAll σ userId INVENTORY_SUBCOLLECTION (fun _ => true))
          ∅ in
      match commitOnce rejects σ autoIds
              (upsertAll userId existingProductsMap products 0) with
      | Returns (upsertedCount, σ', _) => (Returns upsertedCount, σ')
      | Throws e => (Throws e, σ)
      end
  end.

End Batch.

(** ** The POS systems on offer *)

(** [getAvailablePosSystems()] of [pos-integration/integration-manager.ts]:
    [systemId] and [systemName] of every system. *)
Definition getAvailablePosSystems : list (string * string) :=
  (fun system : string * string => (system.1, system.2))
    <$> [("caspit", "Caspit"); ("hashavshevet", "Hashavshevet")].

End Services.

(** * Temporary scan data in the browser's local storage *)

Module LocalStorage.

Import Firestore.

Definition TEMP_DATA_KEY_PREFIX : string := "temp-scan-result-".

Definition TEMP_DATA_EXPIRATION_MS : Z := 24 * 60 * 60 * 1000.

(** [localStorage]: strings under string keys. *)
Abbreviation Storage := (gmap string string).

(** [getStorageKey(baseKey, userId)] *)
Definition getStorageKey (baseKey userId : string) : string :=
  baseKey ++ ":" ++ userId.

(** [clearTemporaryScanData(tempId, userId)] *)
Definition clearTemporaryScanData (tempId userId : string)
    (localStorage : Storage) : Storage :=
  delete (getStorageKey (TEMP_DATA_KEY_PREFIX ++ tempId) userId) localStorage.

(** [s.endsWith(suffix)] *)
Fixpoint endsWith (s suffix : string) : bool :=
  String.eqb s suffix
  || match s with
     | EmptyString => false
     | String _ rest => endsWith rest suffix
     end.

Section Clock.

(** [Date.now()], and the number [JSON.parse(stored).timestamp] stands
    for in the subtraction: [None] when it is not a number ([NaN]), an
    error when parsing or destructuring throws. *)
Variable nowMs : Z.
Variable timestampOf : string -> Outcome (option Z).

(** The [try] block for a stored value: is the entry to be removed? *)
Definition expired (stored : string) : bool :=
  if String.eqb stored "" then false
  else
    match timestampOf stored with
    | Returns (Some timestamp) =>
        bool_decide (TEMP_DATA_EXPIRATION_MS < nowMs - timestamp)%Z
    | Returns None => false
    | Throws _ => true
    end.

(** The callback of [Object.keys(localStorage).forEach] for one key. *)
Definition visitKey (force : bool) (currentUserId : option string)
    (localStorage : Storage) (key : string) : Storage :=
  if String.prefix TEMP_DATA_KEY_PREFIX key then
    if force
       && match nonEmpty currentUserId with
          | Some userId => endsWith key userId
          | None => false
          end
    then delete key localStorage
    else
      match localStorage !! key with
      | Some stored =>
          if expired stored then delete key localStorage else localStorage
      | None => localStorage
      end
  else localStorage.

(** [clearOldTemporaryScanData(force, currentUserId)] *)
Definition clearOldTemporaryScanData (force : bool)
    (currentUserId : option string) (localStorage : Storage) : Storage :=
  fold_left (visitKey force currentUserId) (map_to_list localStorage).*1
    localStorage.

(** Whether the entry [stored] under [key] goes. *)
Definition removes (force : bool) (currentUserId : option string)
    (key stored : string) : bool :=
  String.prefix TEMP_DATA_KEY_PREFIX key
  && ((force
       && match nonEmpty currentUserId with
          | Some userId => endsWith key userId
          | None => false
          end)
      || expired stored).

End Clock.

End LocalStorage.

(** * Payment terms of a supplier, as text *)

Module PaymentTerms.

(** [DueDateOption] *)
Inductive DueDateOption := immediate | net30 | net60 | net90 | eom | custom.

Definition optionKey (o : DueDateOption) : string :=
  "payment_terms_option_" ++
  match o with
  | immediate => "immediate"
  | net30 => "net30"
  | net60 => "net60"
  | net90 => "net90"
  | eom => "eom"
  | custom => "custom"
  end.

Section Translations.

(** The translation function [t(key, { defaultValue })], [parseISO] with
    [isValid], and [format(date, "PP", { locale })] under the locale the
    translations name. *)
Variable t : string -> option string -> string.
Variable parseISO : string -> option Z.
Variable formatPP : Z -> string.

(** [parsePaymentTermString(termString, t)] *)
Definition parsePaymentTermString (termString : option string)
  : option DueDateOption * option Z :=
  match nonEmpty termString with
  | None => (None, None)
  | Some termString =>
      let immediateText := t "payment_terms_option_immediate" (Some "Immediate") in
      let net30Text := t "payment_terms_option_net30" (Some "Net 30") in
      let net60Text := t "payment_terms_option_net60" (Some "Net 60") in
      let net90Text := t "payment_terms_option_net90" (Some "Net 90") in
      let eomText := t "payment_terms_option_eom" (Some "End of Month") in
      if String.eqb termString immediateText then (Some immediate, None)
      else if String.eqb termString net30Text then (Some net30, None)
      else if String.eqb termString net60Text then (Some net60, None)
      else if String.eqb termString net90Text then (Some net90, None)
      else if String.eqb termString eomText then (Some eom, None)
      else
        match parseISO termString with
        | Some parsedDate => (Some custom, Some parsedDate)
        | None => (Some custom, None)
        end
  end.

(** [getPaymentTermStringForSupplierPersistence(currentOption,
    paymentDueDate, t)] *)
Definition getPaymentTermStringForSupplierPersistence
    (currentOption : option DueDateOption) (paymentDueDate : option Z)
  : option string :=
  match currentOption with
  | None => None
  | Some custom =>
      Some match paymentDueDate with
           | Some date => formatPP date
           | None => t "payment_terms_option_custom_fallback" None
           end
  | Some option => Some (t (optionKey option) None)
  end.

(** The five standard options have translations that do not depend on a
    default value, are not empty and differ from one another. *)
Definition standard (o : DueDateOption) : bool :=
  match o with custom => false | _ => true end.

Definition translationsDistinct : Prop :=
  (forall o dflt, standard o = true ->
     t (optionKey o) dflt = t (optionKey o) None)
  /\ (forall o, standard o = true -> t (optionKey o) None <> "")
  /\ (forall o o', standard o = true -> standard o' = true ->
        t (optionKey o) None = t (optionKey o') None -> o = o').

End Translations.

End PaymentTerms.

(** * The fingerprint matcher of the flow *)

Module ProductReview.

Import PriceCheck.

(** [p.catalogNumber && p.catalogNumber !== "N/A"] *)
Definition usableCatalogNumber (p : Product) : option string :=
  match nonEmpty (catalogNumber p) with
  | Some cn => if String.eqb cn "N/A" then None else Some cn
  | None => None
  end.

(** The callback of [currentInventory.forEach]: the product is filed under
    its id, its catalog number and its barcode, each with its own prefix;
    a later product under the same key replaces an earlier one. *)
Definition indexProduct (inventoryMap : gmap string Product) (p : Product)
  : gmap string Product :=
  let m1 :=
    if negb (String.eqb (id p) "") then <["id:" ++ id p := p]> inventoryMap
    else inventoryMap in
  let m2 :=
    match usableCatalogNumber p with
    | Some cn => <["catalog:" ++ cn := p]> m1
    | None => m1
    end in
  match nonEmpty (barcode p) with
  | Some b => <["barcode:" ++ b := p]> m2
  | None => m2
  end.

Definition inventoryMapOf (currentInventory : list Product)
  : gmap string Product :=
  fold_left indexProduct currentInventory ∅.

(** The test of [productsToCheck.filter], before the negation. *)
Definition knownProduct (inventoryMap : gmap string Product) (p : Product)
  : bool :=
  (negb (String.eqb (id p) "") && has inventoryMap ("id:" ++ id p))
  || match usableCatalogNumber p with
     | Some cn => has inventoryMap ("catalog:" ++ cn)
     | None => false
     end
  || match nonEmpty (barcode p) with
     | Some b => has inventoryMap ("barcode:" ++ b)
     | None => false
     end.

(** [productsNeedingReview] for an inventory and the scanned products. *)
Definition productsNeedingReview (currentInventory productsToCheck
    : list Product) : list Product :=
  let inventoryMap := inventoryMapOf currentInventory in
  filter (fun p => knownProduct inventoryMap p = false) productsToCheck.



End ProductReview.

(** * The start of the resolution flow *)

Module Session.

Import Firestore DialogFlow PaymentTerms.

(** [Supplier], with the fields the flow reads. *)
Record Supplier := mkSupplier {
  id : option string;
  name : string;
  osekMorshe : option string;
  paymentTerms : option string
}.

(** What the hook sends out: a toast (by the key of its title) and the
    calls of [onProductsUpdatedFromDialog] and [onDialogError]. *)
Inductive Event :=
| Toast (title : string)
| ProductsUpdatedFromDialog (updatedProducts : option (list PriceCheck.Product))
| DialogError (errorMessage : string).

(** The [useState] cells of [useDialogFlow]: those of [FlowState] and the
    others the start of the flow writes, with the events sent so far,
    oldest first. *)
Record Session := mkSession {
  flow : FlowState;
  dialogFlowError : option string;
  existingSuppliers : list Supplier;
  potentialSupplierNameForSheet : option string;
  potentialOsekMorsheForSheet : option string;
  finalSupplierNameFromFlow : option string;
  finalOsekMorsheFromFlow : option string;
  finalPaymentTermOptionFromFlow : option DueDateOption;
  finalPaymentDueDateFromFlow : option Z;
  productsToDisplayForNewDetails : list PriceCheck.Product;
  hasFlowStarted : bool;
  isSupplierFlowLocked : bool;
  events : list Event
}.

Definition setFlow (f : FlowState) (s : Session) : Session :=
  mkSession f (dialogFlowError s) (existingSuppliers s)
    (potentialSupplierNameForSheet s) (potentialOsekMorsheForSheet s)
    (finalSupplierNameFromFlow s) (finalOsekMorsheFromFlow s)
    (finalPaymentTermOptionFromFlow s) (finalPaymentDueDateFromFlow s)
    (productsToDisplayForNewDetails s) (hasFlowStarted s)
    (isSupplierFlowLocked s) (events s).

Definition setDialogFlowError (e : option string) (s : Session) : Session :=
  mkSession (flow s) e (existingSuppliers s)
    (potentialSupplierNameForSheet s) (potentialOsekMorsheForSheet s)
    (finalSupplierNameFromFlow s) (finalOsekMorsheFromFlow s)
    (finalPaymentTermOptionFromFlow s) (finalPaymentDueDateFromFlow s)
    (productsToDisplayForNewDetails s) (hasFlowStarted s)
    (isSupplierFlowLocked s) (events s).

Definition setExistingSuppliers (suppliers : list Supplier) (s : Session)
  : Session :=
  mkSession (flow s) (dialogFlowError s) suppliers
    (potentialSupplierNameForSheet s) (potentialOsekMorsheForSheet s)
    (finalSupplierNameFromFlow s) (finalOsekMorsheFromFlow s)
    (finalPaymentTermOptionFromFlow s) (finalPaymentDueDateFromFlow s)
    (productsToDisplayForNewDetails s) (hasFlowStarted s)
    (isSupplierFlowLocked s) (events s).

(** [setPotentialSupplierNameForSheet] and [setPotentialOsekMorsheForSheet] *)
Definition setPotential (supplierName taxId : option string) (s : Session)
  : Session :=
  mkSession (flow s) (dialogFlowError s) (existingSuppliers s)
    supplierName taxId
    (finalSupplierNameFromFlow s) (finalOsekMorsheFromFlow s)
    (finalPaymentTermOptionFromFlow s) (finalPaymentDueDateFromFlow s)
    (productsToDisplayForNewDetails s) (hasFlowStarted s)
    (isSupplierFlowLocked s) (events s).

(** The four setters of the final supplier and payment details. *)
Definition setFinal (supplierName taxId : option string)
    (termOption : option DueDateOption) (date : option Z) (s : Session)
  : Session :=
  mkSession (flow s) (dialogFlowError s) (existingSuppliers s)
    (potentialSupplierNameForSheet s) (potentialOsekMorsheForSheet s)
    supplierName taxId termOption date
    (productsToDisplayForNewDetails s) (hasFlowStarted s)
    (isSupplierFlowLocked s) (events s).

Definition setProductsToDisplayForNewDetails
    (products : list PriceCheck.Product) (s : Session) : Session :=
  mkSession (flow s) (dialogFlowError s) (existingSuppliers s)
    (potentialSupplierNameForSheet s) (potentialOsekMorsheForSheet s)
    (finalSupplierNameFromFlow s) (finalOsekMorsheFromFlow s)
    (finalPaymentTermOptionFromFlow s) (finalPaymentDueDateFromFlow s)
    products (hasFlowStarted s) (isSupplierFlowLocked s) (events s).

Definition setHasFlowStarted (b : bool) (s : Session) : Session :=
  mkSession (flow s) (dialogFlowError s) (existingSuppliers s)
    (potentialSupplierNameForSheet s) (potentialOsekMorsheForSheet s)
    (finalSupplierNameFromFlow s) (finalOsekMorsheFromFlow s)
    (finalPaymentTermOptionFromFlow s) (finalPaymentDueDateFromFlow s)
    (productsToDisplayForNewDetails s) b (isSupplierFlowLocked s) (events s).

Definition setIsSupplierFlowLocked (b : bool) (s : Session) : Session :=
  mkSession (flow s) (dialogFlowError s) (existingSuppliers s)
    (potentialSupplierNameForSheet s) (potentialOsekMorsheForSheet s)
    (finalSupplierNameFromFlow s) (finalOsekMorsheFromFlow s)
    (finalPaymentTermOptionFromFlow s) (finalPaymentDueDateFromFlow s)
    (productsToDisplayForNewDetails s) (hasFlowStarted s) b (events s).

Definition emit (e : Event) (s : Session) : Session :=
  mkSession (flow s) (dialogFlowError s) (existingSuppliers s)
    (potentialSupplierNameForSheet s) (potentialOsekMorsheForSheet s)
    (finalSupplierNameFromFlow s) (finalOsekMorsheFromFlow s)
    (finalPaymentTermOptionFromFlow s) (finalPaymentDueDateFromFlow s)
    (productsToDisplayForNewDetails s) (hasFlowStarted s)
    (isSupplierFlowLocked s) (events s ++ [e]).

Definition setStep (step : DialogFlowStep) (s : Session) : Session :=
  setFlow (setCurrentDialogStep step (flow s)) s.

Definition setIsDialogFlowActive (b : bool) (s : Session) : Session :=
  setFlow (mkFlow (currentDialogStep (flow s)) b
             (isLinkInvoiceSheetOpen (flow s))
             (isLinkDeliveryNotesSheetOpen (flow s))
             (finalizedSupplierId (flow s))
             (finalizedLinkedInvoiceId (flow s))
             (finalizedLinkedDeliveryNoteIds (flow s))) s.

Definition setFinalizedSupplierId (supplierId : option string) (s : Session)
  : Session :=
  setFlow (mkFlow (currentDialogStep (flow s)) (isDialogFlowActive (flow s))
             (isLinkInvoiceSheetOpen (flow s))
             (isLinkDeliveryNotesSheetOpen (flow s))
             supplierId
             (finalizedLinkedInvoiceId (flow s))
             (finalizedLinkedDeliveryNoteIds (flow s))) s.

Section Props.

(** The props of the hook and the services it calls: [user?.id], the
    document type, the scanned products, what the scan found of the
    supplier, the translations, and the three reads. *)
Variable user : option string.
Variable docType : option DocType.
Variable productsForNextStep : list PriceCheck.Product.
Variable initialScannedSupplierId : option string.
Variable aiScannedOsekMorsheFromStorage : option string.
Variable aiScannedSupplierNameFromStorage : option string.
Variable t : string -> option string -> string.
Variable parseISO : string -> option Z.
Variable getSupplierByIdService : string -> string -> Outcome (option Supplier).
Variable getSuppliersService : string -> Outcome (list Supplier).
Variable getProductsService : string -> Outcome (list PriceCheck.Product).

(** [checkForNewProductsAndDetails(productsToCheck)] *)
Definition checkForNewProductsAndDetails
    (productsToCheck : list PriceCheck.Product) (s : Session) : Session :=
  match nonEmpty user with
  | None => emit (Toast "edit_invoice_user_not_authenticated_title") s
  | Some userId =>
      if (length productsToCheck =? 0)%nat
      then setFlow (advanceToNextStep docType new_product_details (flow s)) s
      else
        match getProductsService userId with
        | Returns currentInventory =>
            let productsNeedingReview :=
              ProductReview.productsNeedingReview currentInventory
                productsToCheck in
            if (0 <? length productsNeedingReview)%nat
            then setStep new_product_details
                   (setProductsToDisplayForNewDetails productsNeedingReview s)
            else
              let s1 := emit (ProductsUpdatedFromDialog (Some productsToCheck))
                          s in
              setFlow (advanceToNextStep docType new_product_details (flow s1))
                s1
        | Throws _ =>
            setStep error_loading
              (emit (Toast "edit_invoice_product_check_error_title") s)
        end
  end.

(** The supplier the scan points to among the user's suppliers: by tax
    id first, then by name. *)
Definition matchAmong (suppliers : list Supplier) : option Supplier :=
  let byTaxId :=
    match nonEmpty aiScannedOsekMorsheFromStorage with
    | Some taxId =>
        find (fun s => bool_decide (osekMorshe s = Some taxId)) suppliers
    | None => None
    end in
  match byTaxId with
  | Some matched => Some matched
  | None =>
      match nonEmpty aiScannedSupplierNameFromStorage with
      | Some supplierName =>
          find (fun s => String.eqb (name s) supplierName) suppliers
      | None => None
      end
  end.

(** The [try] block of [startInitialDialogFlow] up to the supplier: the
    session, with the suppliers when they were read, and the match. *)
Definition resolveSupplier (userId : string) (s : Session)
  : Outcome (Session * option Supplier) :=
  obind
    (match nonEmpty initialScannedSupplierId with
     | Some supplierId => getSupplierByIdService supplierId userId
     | None => Returns None
     end)
    (fun byId =>
       match byId with
       | Some matched => Returns (s, Some matched)
       | None =>
           obind (getSuppliersService userId)
             (fun suppliers =>
                Returns (setExistingSuppliers suppliers s,
                         matchAmong suppliers))
       end).

(** [startInitialDialogFlow()] *)
Definition startInitialDialogFlow (s : Session) : Session :=
  match nonEmpty user with
  | None => s
  | Some userId =>
      if hasFlowStarted s then s
      else
        let s1 :=
          setStep processing
            (setDialogFlowError None
               (setIsDialogFlowActive true (setHasFlowStarted true s))) in
        match resolveSupplier userId s1 with
        | Returns (s2, Some matchedSupplier) =>
            let parsed :=
              parsePaymentTermString t parseISO
                (paymentTerms matchedSupplier) in
            checkForNewProductsAndDetails productsForNextStep
              (setFinal (Some (name matchedSupplier))
                 (osekMorshe matchedSupplier) parsed.1 parsed.2
                 (setFinalizedSupplierId (id matchedSupplier)
                    (setIsSupplierFlowLocked true s2)))
        | Returns (s2, None) =>
            setStep supplier_payment_details
              (setPotential (nonEmpty aiScannedSupplierNameFromStorage)
                 (nonEmpty aiScannedOsekMorsheFromStorage) s2)
        | Throws errorMessage =>
            emit (DialogError "Failed to process invoice details.")
              (setIsDialogFlowActive false
                 (setStep error_loading
                    (setDialogFlowError
                       (Some ("Error during initial flow: " ++ errorMessage))
                       s1)))
        end
  end.

End Props.

(** [resetDialogFlow()]: the resolved supplier id and the suppliers read
    are not among the cells it resets. *)
Definition resetDialogFlow (s : Session) : Session :=
  mkSession
    (mkFlow idle false false false (finalizedSupplierId (flow s)) None [])
    None (existingSuppliers s)
    (potentialSupplierNameForSheet s) (potentialOsekMorsheForSheet s)
    None None None None [] false false (events s).

(** The flow has settled on the supplier [matched]. *)
Definition resolvedTo (matched : Supplier) (s : Session) : Prop :=
  finalizedSupplierId (flow s) = id matched
  /\ finalSupplierNameFromFlow s = Some (name matched)
  /\ finalOsekMorsheFromFlow s = osekMorshe matched
  /\ isSupplierFlowLocked s = true
  /\ currentDialogStep (flow s) <> supplier_payment_details.

End Session.

(** * More concrete inputs *)

Module MoreScenarios.

Import Firestore Backend Scenarios.

(** The store of a user who has configured Hashavshevet. *)
Definition hashavshevetSettings : DocData :=
  list_to_map
    [("posConfig", VObj (list_to_map [("systemId", VStr "hashavshevet")]))].

Definition storeAcmeHashavshevet
  : gmap (string * string * string) (gmap string value) :=
  <[("u1", USER_SETTINGS_SUBCOLLECTION, "userProfile") :=
      hashavshevetSettings]> storeAcme.

(** A scan that was uploaded and is waiting as the pending document
    [doc-1]. *)
Definition pendingDoc : DocData :=
  list_to_map
    [("id", VStr "doc-1"); ("userId", VStr "u1"); ("status", VStr "pending");
     ("fileType", VStr "image/jpeg"); ("uploadTime", VTimestamp 1700000000);
     ("scanNotes", VStr "blurry")].

Definition storePending
  : gmap (string * string * string) (gmap string value) :=
  <[("u1", DOCUMENTS_SUBCOLLECTION, "doc-1") := pendingDoc]> storeAcme.

(** The call that finalizes the pending document. *)
Definition pendingInvoice : FinalizeInvoiceData :=
  {| products := [milk];
     originalFileName := "scan.jpg";
     docType := invoice;
     userId := "u1";
     existingDocumentId := Some "doc-1";
     invoiceNumber := Some "I-7";
     supplierName := Some "Acme";
     totalAmount := Some 50%Q;
     paymentDueDate := DateNull;
     invoiceDate := DateNull;
     paymentMethod := None;
     originalImagePreviewUri := None;
     compressedImageForFinalRecordUri := None;
     rawScanResultJson := None;
     paymentTerms := None;
     osekMorshe := None |}.

(** A call that names no supplier. *)
Definition unnamedInvoice : FinalizeInvoiceData :=
  {| products := [milk];
     originalFileName := "scan.jpg";
     docType := invoice;
     userId := "u1";
     existingDocumentId := None;
     invoiceNumber := None;
     supplierName := Some "";
     totalAmount := None;
     paymentDueDate := DateNull;
     invoiceDate := DateNull;
     paymentMethod := None;
     originalImagePreviewUri := None;
     compressedImageForFinalRecordUri := None;
     rawScanResultJson := None;
     paymentTerms := None;
     osekMorshe := None |}.

(** An inventory with one active product, and a store with one unpaid
    invoice of Acme. *)
Definition oliveOilDoc : DocData :=
  list_to_map
    [("id", VStr "p-1"); ("userId", VStr "u1"); ("name", VStr "Olive oil");
     ("catalogNumber", VStr "X"); ("unitPrice", VNum 1);
     ("isActive", VBool true)].

Definition storeOliveOil
  : gmap (string * string * string) (gmap string value) :=
  {[ ("u1", INVENTORY_SUBCOLLECTION, "p-1") := oliveOilDoc ]}.

Definition unpaidInvoice : DocData :=
  list_to_map
    [("id", VStr "inv-7"); ("userId", VStr "u1"); ("supplierId", VStr "s1");
     ("status", VStr "completed"); ("documentType", VStr "invoice");
     ("paymentStatus", VStr "unpaid"); ("totalAmount", VNum 50)].

Definition storeUnpaid
  : gmap (string * string * string) (gmap string value) :=
  {[ ("u1", DOCUMENTS_SUBCOLLECTION, "inv-7") := unpaidInvoice ]}.

Definition receiptImage : string := "data:image/png;base64,AAAA".


(** English translations of the payment term options; any other key
    falls back to its default value, or to the key. *)
Definition english (key : string) (dflt : option string) : string :=
  if String.eqb key "payment_terms_option_immediate" then "Immediate"
  else if String.eqb key "payment_terms_option_net30" then "Net 30"
  else if String.eqb key "payment_terms_option_net60" then "Net 60"
  else if String.eqb key "payment_terms_option_net90" then "Net 90"
  else if String.eqb key "payment_terms_option_eom" then "End of Month"
  else default key dflt.

(** Two products from a POS import: one has the catalog number of the
    olive oil in stock, the other is new. *)
Definition importedOliveOil : DocData :=
  list_to_map [("name", VStr "Olive oil 1L"); ("catalogNumber", VStr "X");
               ("unitPrice", VNum 2)].

Definition importedSalt : DocData :=
  list_to_map [("name", VStr "Salt"); ("catalogNumber", VStr "S-1")].

(** Two suppliers of the user: the scan carries the tax id of the second
    and the name of the first. *)
Definition acmeSupplier : Session.Supplier :=
  Session.mkSupplier (Some "s1") "Acme" (Some "511111111") None.

Definition bakerySupplier : Session.Supplier :=
  Session.mkSupplier (Some "s2") "Bakery" (Some "515000000") (Some "Net 30").

Definition freshSession : Session.Session :=
  Session.mkSession
    (DialogFlow.mkFlow DialogFlow.idle false false false None None [])
    None [] None None None None None None [] false false [].

End MoreScenarios.

(** * Facts about truthiness *)

Module JsFacts.

Lemma nonEmpty_Some o s : nonEmpty o = Some s -> o = Some s /\ s <> "".
Proof.
  unfold nonEmpty, truthyStr. destruct o as [t|]; [|discriminate].
  destruct (String.eqb_spec t ""); simpl; [discriminate|].
  intros [= ->]. split; [reflexivity|assumption].
Qed.

Lemma nonEmpty_falsy o : truthyStr o = false -> nonEmpty o = None.
Proof. unfold nonEmpty. intros ->. reflexivity. Qed.

Lemma nonEmpty_truthy o : truthyStr o = true -> nonEmpty o = o.
Proof. unfold nonEmpty. intros ->. reflexivity. Qed.

End JsFacts.

(** * Facts about the price reconciliation *)

Module PriceCheckFacts.

Import PriceCheck JsFacts.

Lemma slice_window {A} (values : list A) i :
  slice values i (i + 10) = take 10 (drop i values).
Proof. unfold slice. replace (i + 10 - i)%nat with 10%nat by lia. reflexivity. Qed.

(** The reads of the loop from index [i], given fuel for the rest of the
    array: they are appended to the log, carry the field, are never empty
    and never longer than 10, and cover [values] from [i] on, in order. *)
Lemma fetchInChunks_from_reads fuel inventory field values i st :
  (length values <= i + 10 * fuel)%nat ->
  exists new,
    reads (fetchInChunks_from fuel inventory field values i st)
      = (reads st ++ new)%list
    /\ Forall (fun q => qField q = field) new
    /\ Forall (fun q => (1 <= length (qChunk q) <= 10)%nat) new
    /\ concat (qChunk <$> new) = drop i values.
Proof.
  revert i st. induction fuel as [|fuel IH]; intros i st Hfuel; simpl.
  - exists []. rewrite app_nil_r, drop_ge by lia. repeat split; constructor.
  - case_bool_decide as Hi.
    + destruct (IH (i + 10)%nat (fetchChunk inventory field values i st))
        as (new & Hreads & Hfield & Hlen & Hcat); [lia|].
      exists (mkQuery field (slice values i (i + 10)) :: new).
      rewrite Hreads. simpl. rewrite <- app_assoc. simpl.
      split; [reflexivity|]. split; [constructor; [reflexivity|assumption]|].
      split.
      * constructor; [|assumption]. simpl. rewrite slice_window.
        rewrite length_take, length_drop. lia.
      * change (list_fmap _ _ qChunk new) with (qChunk <$> new).
        rewrite Hcat, slice_window, <- drop_drop. apply take_drop.
    + exists []. rewrite app_nil_r, drop_ge by lia. repeat split; constructor.
Qed.

Lemma fetchInChunks_reads inventory field values st :
  exists new,
    reads (fetchInChunks inventory field values st) = (reads st ++ new)%list
    /\ Forall (fun q => qField q = field) new
    /\ Forall (fun q => (1 <= length (qChunk q) <= 10)%nat) new
    /\ concat (qChunk <$> new) = values.
Proof.
  unfold fetchInChunks.
  destruct (fetchInChunks_from_reads (length values) inventory field values 0
              st) as (new & ? & ? & ? & Hcat); [lia|].
  exists new. rewrite drop_0 in Hcat. auto.
Qed.

(** All chunks of one [fetchInChunks] but the last hold exactly 10 values. *)
Lemma fetchInChunks_from_full fuel inventory field values i st :
  (length values <= i + 10 * fuel)%nat ->
  exists new,
    reads (fetchInChunks_from fuel inventory field values i st)
      = (reads st ++ new)%list
    /\ forall k q, (S k < length new)%nat -> new !! k = Some q ->
                   length (qChunk q) = 10%nat.
Proof.
  revert i st. induction fuel as [|fuel IH]; intros i st Hfuel; simpl.
  - exists []. rewrite app_nil_r. split; [reflexivity|]. simpl. lia.
  - case_bool_decide as Hi.
    + destruct (IH (i + 10)%nat (fetchChunk inventory field values i st))
        as (new & Hreads & Hfull); [lia|].
      exists (mkQuery field (slice values i (i + 10)) :: new).
      rewrite Hreads. simpl. rewrite <- app_assoc. simpl.
      split; [reflexivity|]. intros [|k] q Hk Hq; simpl in *.
      * injection Hq as <-. simpl. rewrite slice_window.
        rewrite length_take, length_drop.
        destruct (fetchInChunks_from_reads fuel inventory field values
                    (i + 10)%nat (fetchChunk inventory field values i st))
          as (new2 & Hreads2 & _ & Hlen2 & Hcat2); [lia|].
        rewrite Hreads in Hreads2. apply app_inv_head in Hreads2.
        subst new2. destruct new as [|q' rest]; [simpl in Hk; lia|].
        apply Forall_cons in Hlen2 as [Hq' _].
        apply (f_equal length) in Hcat2.
        rewrite fmap_cons in Hcat2. simpl in Hcat2.
        rewrite length_app, length_drop in Hcat2. lia.
      * apply (Hfull k q); [lia|assumption].
    + exists []. rewrite app_nil_r. split; [reflexivity|]. simpl. lia.
Qed.

(** C8. The reads that price reconciliation issues are the catalog-number
    reads followed by the barcode reads; every read asks for at least one
    and at most 10 values; the chunks of the catalog-number reads, put end
    to end, are exactly the candidates' catalog numbers, and those of the
    barcode reads exactly their barcodes: consecutive chunks, every value
    in exactly one of them, whatever the length of the input. *)
Theorem price_check_reads_in_chunks_of_10 inventory productsToCheck :
  let log := (checkProductPricesBeforeSaveService inventory productsToCheck).2
  in
  exists catalogReads barcodeReads,
    log = (catalogReads ++ barcodeReads)%list
    /\ Forall (fun q => qField q = FCatalogNumber) catalogReads
    /\ Forall (fun q => qField q = FBarcode) barcodeReads
    /\ Forall (fun q => (1 <= length (qChunk q) <= 10)%nat) log
    /\ concat (qChunk <$> catalogReads) = catalogNumbers productsToCheck
    /\ concat (qChunk <$> barcodeReads) = barcodes productsToCheck.
Proof.
  unfold checkProductPricesBeforeSaveService.
  set (cns := catalogNumbers productsToCheck).
  set (bcs := barcodes productsToCheck).
  destruct (Nat.eqb_spec (length cns) 0) as [Hc|Hc];
    destruct (Nat.eqb_spec (length bcs) 0) as [Hb|Hb]; simpl.
  - exists [], []. apply nil_length_inv in Hc, Hb. rewrite Hc, Hb.
    repeat split; constructor.
  - destruct (Nat.ltb_spec 0 (length cns)) as [?|_]; [lia|].
    destruct (Nat.ltb_spec 0 (length bcs)) as [_|?]; [|lia].
    destruct (fetchInChunks_reads inventory FBarcode bcs (mkFetch ∅ []))
      as (new & -> & Hf & Hl & Hcat).
    exists [], new. apply nil_length_inv in Hc. rewrite Hc. simpl.
    repeat split; auto.
  - destruct (Nat.ltb_spec 0 (length cns)) as [_|?]; [|lia].
    destruct (Nat.ltb_spec 0 (length bcs)) as [?|_]; [lia|].
    destruct (fetchInChunks_reads inventory FCatalogNumber cns (mkFetch ∅ []))
      as (new & -> & Hf & Hl & Hcat).
    exists new, []. apply nil_length_inv in Hb. rewrite Hb, app_nil_r. simpl.
    repeat split; auto.
  - destruct (Nat.ltb_spec 0 (length cns)) as [_|?]; [|lia].
    destruct (Nat.ltb_spec 0 (length bcs)) as [_|?]; [|lia].
    destruct (fetchInChunks_reads inventory FCatalogNumber cns (mkFetch ∅ []))
      as (new1 & H1 & Hf1 & Hl1 & Hcat1).
    destruct (fetchInChunks_reads inventory FBarcode bcs
                (fetchInChunks inventory FCatalogNumber cns (mkFetch ∅ [])))
      as (new2 & -> & Hf2 & Hl2 & Hcat2).
    rewrite H1. simpl. exists new1, new2.
    repeat split; auto. apply Forall_app. auto.
Qed.

(** ** The classification loop *)

Lemma findExisting_keyless m p : keyless p = true -> findExisting m p = None.
Proof.
  unfold keyless, findExisting. intros [Hc Hb]%andb_prop.
  apply negb_true_iff in Hc, Hb.
  rewrite (nonEmpty_falsy _ Hc), (nonEmpty_falsy _ Hb). reflexivity.
Qed.

Lemma classify_keyless m p : keyless p = true -> classify m p = inl p.
Proof. intros H. unfold classify. rewrite findExisting_keyless; auto. Qed.

Lemma keyless_withId p i : keyless (withId p i) = keyless p.
Proof. reflexivity. Qed.

(** A candidate reported as a discrepancy was found in the map. *)
Lemma classify_discrepancy m p d :
  classify m p = inr d ->
  exists e, findExisting m p = Some e
    /\ d = mkDiscrepancy (withId p (id e)) (numberOr0 (unitPrice e))
             (numberOr0 (unitPrice p))
    /\ priceDiffers (numberOr0 (unitPrice e)) (numberOr0 (unitPrice p)) = true.
Proof.
  unfold classify. destruct (findExisting m p) as [e|]; [|discriminate].
  destruct (priceDiffers _ _) eqn:Hd; [|discriminate].
  intros [= <-]. eauto.
Qed.

Lemma fold_pushClassified_direct m ps acc x :
  x ∈ productsToSaveDirectly (fold_left (pushClassified m) ps acc) <->
  x ∈ productsToSaveDirectly acc \/ exists p, p ∈ ps /\ classify m p = inl x.
Proof.
  revert acc. induction ps as [|p ps IH]; intros acc; simpl.
  - split; [auto|]. intros [?|(p & Hp & _)]; [assumption|].
    apply elem_of_nil in Hp as [].
  - rewrite IH. unfold pushClassified at 1.
    destruct (classify m p) as [y|d] eqn:Hcl; simpl.
    + rewrite elem_of_app, list_elem_of_singleton. split.
      * intros [[?| ->]|(q & Hq & ?)]; [auto| |].
        -- right. exists p. split; [left|]; auto.
        -- right. exists q. split; [right|]; auto.
      * intros [?|(q & Hq & Hcq)]; [auto|].
        apply elem_of_cons in Hq as [->|Hq].
        -- left. right. congruence.
        -- right. eauto.
    + split.
      * intros [?|(q & Hq & ?)]; [auto|]. right. exists q.
        split; [right|]; auto.
      * intros [?|(q & Hq & Hcq)]; [auto|].
        apply elem_of_cons in Hq as [->|Hq]; [congruence|]. right. eauto.
Qed.

Lemma fold_pushClassified_discrepancy m ps acc d :
  d ∈ priceDiscrepancies (fold_left (pushClassified m) ps acc) <->
  d ∈ priceDiscrepancies acc \/ exists p, p ∈ ps /\ classify m p = inr d.
Proof.
  revert acc. induction ps as [|p ps IH]; intros acc; simpl.
  - split; [auto|]. intros [?|(p & Hp & _)]; [assumption|].
    apply elem_of_nil in Hp as [].
  - rewrite IH. unfold pushClassified at 1.
    destruct (classify m p) as [y|d'] eqn:Hcl; simpl.
    + split.
      * intros [?|(q & Hq & ?)]; [auto|]. right. exists q.
        split; [right|]; auto.
      * intros [?|(q & Hq & Hcq)]; [auto|].
        apply elem_of_cons in Hq as [->|Hq]; [congruence|]. right. eauto.
    + rewrite elem_of_app, list_elem_of_singleton. split.
      * intros [[?| ->]|(q & Hq & ?)]; [auto| |].
        -- right. exists p. split; [left|]; auto.
        -- right. exists q. split; [right|]; auto.
      * intros [?|(q & Hq & Hcq)]; [auto|].
        apply elem_of_cons in Hq as [->|Hq].
        -- left. right. congruence.
        -- right. eauto.
Qed.

(** Every candidate is pushed on exactly one of the two arrays. *)
Lemma fold_pushClassified_length m ps acc :
  let out := fold_left (pushClassified m) ps acc in
  (length (productsToSaveDirectly out) + length (priceDiscrepancies out)
   = length (productsToSaveDirectly acc) + length (priceDiscrepancies acc)
     + length ps)%nat.
Proof.
  revert acc. induction ps as [|p ps IH]; intros acc; simpl; [lia|].
  rewrite IH. unfold pushClassified.
  destruct (classify m p); simpl; rewrite length_app; simpl; lia.
Qed.

Lemma keyless_all_no_keys ps :
  Forall (fun p => keyless p = true) ps ->
  catalogNumbers ps = [] /\ barcodes ps = [].
Proof.
  unfold catalogNumbers, barcodes.
  induction 1 as [|p ps Hp _ [IHc IHb]]; [split; reflexivity|].
  apply andb_prop in Hp as [Hc Hb]. apply negb_true_iff in Hc, Hb.
  simpl. rewrite (nonEmpty_falsy _ Hc), (nonEmpty_falsy _ Hb). simpl.
  auto.
Qed.

(** C9. A candidate with neither a catalog number nor a barcode is among
    [productsToSaveDirectly], as it came in; every reported discrepancy is
    about a candidate that carries a key, so a keyless candidate is never
    reported, whatever the inventory holds; and when no candidate carries a
    key the whole list is returned as [productsToSaveDirectly] and no read
    of the inventory is issued. *)
Theorem keyless_candidates_are_saved_directly inventory productsToCheck :
  let out := checkProductPricesBeforeSaveService inventory productsToCheck in
  (forall p, p ∈ productsToCheck -> keyless p = true ->
             p ∈ productsToSaveDirectly out.1)
  /\ (forall d, d ∈ priceDiscrepancies out.1 ->
                keyless (discProduct d) = false)
  /\ (Forall (fun p => keyless p = true) productsToCheck ->
      out = (mkResult productsToCheck [], [])).
Proof.
  unfold checkProductPricesBeforeSaveService.
  destruct ((length (catalogNumbers productsToCheck) =? 0)%nat
            && (length (barcodes productsToCheck) =? 0)%nat) eqn:Hnone; simpl.
  - repeat split; auto. intros d Hd. apply elem_of_nil in Hd as [].
  - split; [|split].
    + intros p Hp Hk. apply fold_pushClassified_direct. right.
      exists p. split; [assumption|]. apply classify_keyless, Hk.
    + intros d Hd. apply fold_pushClassified_discrepancy in Hd
        as [Hd|(p & _ & Hcl)]; [apply elem_of_nil in Hd as []|].
      apply classify_discrepancy in Hcl as (e & He & -> & _). simpl.
      rewrite keyless_withId. destruct (keyless p) eqn:Hk; [|reflexivity].
      rewrite findExisting_keyless in He by assumption. discriminate.
    + intros Hall. apply keyless_all_no_keys in Hall as [Hc Hb].
      rewrite Hc, Hb in Hnone. discriminate.
Qed.

(** ** The price comparison *)

(** The three outcomes of one candidate, by the record the map gives for
    its catalog number or barcode and the comparison of the two prices. *)
Lemma classify_by_lookup m p :
  match findExisting m p with
  | None => classify m p = inl p
  | Some e =>
      let existingPrice := numberOr0 (unitPrice e) in
      let newPrice := numberOr0 (unitPrice p) in
      (priceDiffers existingPrice newPrice = false
       /\ classify m p = inl (withId p (id e)))
      \/ (priceDiffers existingPrice newPrice = true
          /\ classify m p
             = inr (mkDiscrepancy (withId p (id e)) existingPrice newPrice))
  end.
Proof.
  unfold classify. destruct (findExisting m p) as [e|]; [|reflexivity].
  simpl. destruct (priceDiffers _ _) eqn:Hd.
  - right. split; reflexivity.
  - left. split; reflexivity.
Qed.

Example price_within_epsilon_is_safe :
  priceDiffers 10 10.0005 = false /\ priceDiffers 10 10.01 = true.
Proof. split; reflexivity. Qed.

(** At the tolerance itself the outcome follows the rounding of the
    doubles, not the decimal figures: 5 against 5.001 is reported, 10
    against 10.001 is not, and neither is 0 against 0.001. *)
Example price_at_the_tolerance :
  priceDiffers 5 5.001 = true
  /\ priceDiffers 10 10.001 = false
  /\ priceDiffers 0 0.001 = false.
Proof. repeat split; reflexivity. Qed.

(** Prices that are not numbers are no discrepancy: [NaN] counts as 0 on
    either side, and the difference of two infinite prices is [NaN], which
    exceeds nothing. *)
Example price_not_a_number :
  priceDiffers (numberOr0 (Some nan)) (numberOr0 None) = false
  /\ priceDiffers infinity infinity = false
  /\ priceDiffers infinity 1 = true.
Proof. repeat split; reflexivity. Qed.

(** Every candidate ends in exactly one of the two lists. *)
Lemma price_check_partitions inventory productsToCheck :
  let out := (checkProductPricesBeforeSaveService inventory productsToCheck).1
  in
  (length (productsToSaveDirectly out) + length (priceDiscrepancies out)
   = length productsToCheck)%nat.
Proof.
  unfold checkProductPricesBeforeSaveService.
  destruct (_ && _); simpl; [lia|].
  rewrite fold_pushClassified_length. simpl. lia.
Qed.

(** C3, at an input where it fails. The inventory holds one record, with
    catalog number X and barcode Z, priced 1. The scan has a line with
    catalog number Z and no barcode, priced 5, and a line with catalog
    number X. No inventory record matches the first line's catalog number
    or barcode, and still the line is not saved directly: it is reported
    as a price discrepancy against the record whose barcode is Z, because
    the map keeps catalog numbers and barcodes under the same keys. *)
Theorem price_check_confuses_catalog_number_with_barcode :
  let out :=
    (checkProductPricesBeforeSaveService Scenarios.inventory1
       [Scenarios.vinegarLine; Scenarios.oliveOilLine]).1 in
  forallb (fun existing => negb (matchesCandidate existing Scenarios.vinegarLine))
    Scenarios.inventory1 = true
  /\ priceDiscrepancies out
     = [mkDiscrepancy (withId Scenarios.vinegarLine "p-1") 1 5]
  /\ productsToSaveDirectly out = [withId Scenarios.oliveOilLine "p-1"].
Proof. vm_compute. repeat split; reflexivity. Qed.

(** The same line, scanned alone, is saved directly and unchanged: the
    record with barcode Z is not among the records fetched by catalog
    number. *)
Example price_check_line_alone :
  (checkProductPricesBeforeSaveService Scenarios.inventory1
     [Scenarios.vinegarLine]).1
  = mkResult [Scenarios.vinegarLine] [].
Proof. vm_compute. reflexivity. Qed.

Lemma keyless_candidates_are_saved_directly_witness :
  Scenarios.looseLine
    ∈ productsToSaveDirectly
        (checkProductPricesBeforeSaveService Scenarios.inventory1
           [Scenarios.vinegarLine; Scenarios.looseLine]).1.
Proof.
  apply (keyless_candidates_are_saved_directly Scenarios.inventory1
           [Scenarios.vinegarLine; Scenarios.looseLine]).
  - apply elem_of_cons. right. apply elem_of_cons. left. reflexivity.
  - reflexivity.
Defined.

End PriceCheckFacts.

(** * Facts about the resolution flow *)

Module DialogFlowFacts.

Import DialogFlow.

(** C4. Out of product review the flow only moves forward: for an invoice
    or an invoice-receipt to [prompt_link_delivery_notes], for a receipt to
    [prompt_link_invoice], for a delivery note (and when no type is set) to
    [ready_to_save]; never to [supplier_payment_details] or [processing]. *)
Theorem forward_only_from_product_review (docType : option DocType)
    (st : FlowState) :
  let st' := advanceToNextStep docType new_product_details st in
  (docType = Some invoice \/ docType = Some invoiceReceipt ->
   currentDialogStep st' = prompt_link_delivery_notes)
  /\ (docType = Some receipt -> currentDialogStep st' = prompt_link_invoice)
  /\ (docType = Some deliveryNote \/ docType = None ->
      currentDialogStep st' = ready_to_save)
  /\ currentDialogStep st' <> supplier_payment_details
  /\ currentDialogStep st' <> processing
  /\ currentDialogStep st' <> idle
  /\ currentDialogStep st' <> new_product_details.
Proof.
  simpl. repeat split.
  - intros [-> | ->]; reflexivity.
  - intros ->; reflexivity.
  - intros [-> | ->]; reflexivity.
  - destruct docType as [[]|]; discriminate.
  - destruct docType as [[]|]; discriminate.
  - destruct docType as [[]|]; discriminate.
  - destruct docType as [[]|]; discriminate.
Qed.

Lemma forward_only_from_product_review_witness :
  currentDialogStep
    (advanceToNextStep (Some receipt) new_product_details
       (mkFlow new_product_details true false false (Some "s1") None []))
  = prompt_link_invoice.
Proof.
  apply (forward_only_from_product_review (Some receipt)
           (mkFlow new_product_details true false false (Some "s1") None [])).
  reflexivity.
Defined.

(** Completing the product dialog takes exactly that transition. *)
Lemma product_dialog_complete_step docType st :
  currentDialogStep (handleNewProductDetailsDialogComplete docType st)
  = nextStep docType new_product_details.
Proof. reflexivity. Qed.

(** A receipt with a resolved supplier: the flow opens the invoice sheet,
    and the selection is kept in the flow state. *)
Lemma receipt_flow_links_invoice st linkedInvoiceId :
  currentDialogStep st = new_product_details ->
  truthyStr (finalizedSupplierId st) = true ->
  let st1 := processStep (Some receipt)
               (handleNewProductDetailsDialogComplete (Some receipt) st) in
  currentDialogStep st1 = prompt_link_invoice
  /\ isLinkInvoiceSheetOpen st1 = true
  /\ finalizedLinkedInvoiceId (handleLinkInvoice linkedInvoiceId st1)
     = Some linkedInvoiceId
  /\ currentDialogStep (handleLinkInvoice linkedInvoiceId st1) = ready_to_save.
Proof.
  intros _ Hs. destruct st as [step act s1 s2 sup inv notes].
  simpl in Hs. unfold handleNewProductDetailsDialogComplete, processStep.
  simpl. rewrite Hs. simpl. auto.
Qed.

End DialogFlowFacts.

(** * Facts about the store *)

Module FirestoreFacts.

Import Firestore.

Lemma txBind_returns {A B} (c : Tx A) (k : A -> Tx B) tx b tx' :
  txBind c k tx = Returns (b, tx') ->
  exists a tx1, c tx = Returns (a, tx1) /\ k a tx1 = Returns (b, tx').
Proof.
  unfold txBind. destruct (c tx) as [[a tx1]|e]; [|discriminate]. eauto.
Qed.

Lemma txBind_step {A B} (c : Tx A) (k : A -> Tx B) tx a tx1 :
  c tx = Returns (a, tx1) -> txBind c k tx = k a tx1.
Proof. unfold txBind. intros ->. reflexivity. Qed.

Lemma txBind_throws {A B} (c : Tx A) (k : A -> Tx B) tx e :
  c tx = Throws e -> txBind c k tx = Throws e.
Proof. unfold txBind. intros ->. reflexivity. Qed.

(** A commit that goes through has applied every staged write: after it,
    each written document exists. *)
Lemma applyWrite_keeps_docs w σ σ' ref :
  applyWrite w σ = Some σ' -> is_Some (σ !! ref) -> is_Some (σ' !! ref).
Proof.
  intros Hw Hin. destruct w as [r d [|]|r d]; simpl in Hw.
  - injection Hw as <-. rewrite lookup_insert. case_decide; eauto.
  - injection Hw as <-. rewrite lookup_insert. case_decide; eauto.
  - destruct (σ !! r) eqn:E; [|discriminate]. injection Hw as <-.
    rewrite lookup_insert. case_decide; eauto.
Qed.

Lemma applyWrite_writes w σ σ' :
  applyWrite w σ = Some σ' -> is_Some (σ' !! writeRef w).
Proof.
  intros Hw. destruct w as [r d [|]|r d]; simpl in *.
  - injection Hw as <-. rewrite lookup_insert_eq. eauto.
  - injection Hw as <-. rewrite lookup_insert_eq. eauto.
  - destruct (σ !! r) eqn:E; [|discriminate]. injection Hw as <-.
    rewrite lookup_insert_eq. eauto.
Qed.

Lemma applyWrites_keeps_docs rejects ws σ σ' ref :
  applyWrites rejects ws σ = Some σ' ->
  is_Some (σ !! ref) -> is_Some (σ' !! ref).
Proof.
  revert σ. induction ws as [|w ws IH]; intros σ; simpl.
  - intros [= <-]. auto.
  - destruct (rejects (writeRef w)); [discriminate|].
    destruct (applyWrite w σ) as [σ1|] eqn:Hw; [|discriminate].
    intros H Hin. apply (IH σ1 H). eapply applyWrite_keeps_docs; eauto.
Qed.

Lemma applyWrites_all_written rejects ws σ σ' w :
  applyWrites rejects ws σ = Some σ' -> w ∈ ws ->
  is_Some (σ' !! writeRef w).
Proof.
  revert σ. induction ws as [|w' ws IH]; intros σ; simpl.
  - intros _ Hin. apply elem_of_nil in Hin as [].
  - destruct (rejects (writeRef w')); [discriminate|].
    destruct (applyWrite w' σ) as [σ1|] eqn:Hw; [|discriminate].
    intros H Hin. apply elem_of_cons in Hin as [->|Hin].
    + eapply applyWrites_keeps_docs; [exact H|].
      eapply applyWrite_writes; eauto.
    + eapply IH; eauto.
Qed.

(** A write the store refuses makes the whole commit fail. *)
Lemma applyWrites_rejected rejects ws σ w :
  w ∈ ws -> rejects (writeRef w) = true -> applyWrites rejects ws σ = None.
Proof.
  revert σ. induction ws as [|w' ws IH]; intros σ Hin Hr; simpl.
  - apply elem_of_nil in Hin as [].
  - apply elem_of_cons in Hin as [->|Hin].
    + rewrite Hr. reflexivity.
    + destruct (rejects (writeRef w')); [reflexivity|].
      destruct (applyWrite w' σ); [|reflexivity]. apply IH; auto.
Qed.

(** The document a commit leaves where its last write was a merging set. *)
Lemma applyWrites_last_set rejects ws ref data σ σ' :
  applyWrites rejects (ws ++ [WSet ref data true]) σ = Some σ' ->
  exists old : gmap string value, σ' !! ref = Some (data ∪ old).
Proof.
  revert σ. induction ws as [|w ws IH]; intros σ; simpl.
  - destruct (rejects ref); [discriminate|]. intros [= <-].
    rewrite lookup_insert_eq. eauto.
  - destruct (rejects (writeRef w)); [discriminate|].
    destruct (applyWrite w σ) as [σ1|]; [|discriminate]. apply IH.
Qed.

Lemma applyWrite_frame w σ σ' (ref : DocRef) :
  applyWrite w σ = Some σ' -> writeRef w <> ref -> σ' !! ref = σ !! ref.
Proof.
  intros Hw Hne. destruct w as [r d [|]|r d]; simpl in *.
  - injection Hw as <-. apply lookup_insert_ne. assumption.
  - injection Hw as <-. apply lookup_insert_ne. assumption.
  - destruct (σ !! r); [|discriminate]. injection Hw as <-.
    apply lookup_insert_ne. assumption.
Qed.

Lemma applyWrites_frame rejects ws σ σ' (ref : DocRef) :
  applyWrites rejects ws σ = Some σ' ->
  Forall (fun w => writeRef w <> ref) ws -> σ' !! ref = σ !! ref.
Proof.
  revert σ. induction ws as [|w ws IH]; intros σ; simpl.
  - intros [= <-] _. reflexivity.
  - destruct (rejects (writeRef w)); [discriminate|].
    destruct (applyWrite w σ) as [σ1|] eqn:Hw; [|discriminate].
    intros H Hall. apply Forall_cons in Hall as [Hne Hall].
    rewrite (IH σ1 H Hall). eapply applyWrite_frame; eauto.
Qed.

Lemma applyWrites_app rejects ws1 ws2 σ σ' :
  applyWrites rejects (ws1 ++ ws2) σ = Some σ' ->
  exists σ1, applyWrites rejects ws1 σ = Some σ1
             /\ applyWrites rejects ws2 σ1 = Some σ'.
Proof.
  revert σ. induction ws1 as [|w ws1 IH]; intros σ; simpl.
  - eauto.
  - destruct (rejects (writeRef w)); [discriminate|].
    destruct (applyWrite w σ) as [σ1|]; [|discriminate]. apply IH.
Qed.

Lemma syncBind_returns_step {A B : Type} (c : Sync A) (k : A -> Sync B) σ a σ1 :
  c σ = (Returns a, σ1) -> syncBind c k σ = k a σ1.
Proof. unfold syncBind. intros ->. reflexivity. Qed.

Lemma syncBind_throws_step {A B : Type} (c : Sync A) (k : A -> Sync B) σ e σ1 :
  c σ = (Throws e, σ1) -> syncBind c k σ = (Throws e, σ1).
Proof. unfold syncBind. intros ->. reflexivity. Qed.

End FirestoreFacts.

(** * Facts about the backend services *)

Module BackendFacts.

Import Firestore Backend FirestoreFacts JsFacts.

(** ** Field paths *)

Lemma setPath_other_key k rest v (d : gmap string value) k' :
  k' <> k -> setPath (k :: rest) v d !! k' = d !! k'.
Proof.
  intros Hne. destruct rest; simpl; rewrite lookup_insert_ne; auto.
Qed.

Lemma getPath_insert_other k v (d : gmap string value) k' rest :
  k' <> k -> getPath (k' :: rest) (<[k := v]> d) = getPath (k' :: rest) d.
Proof.
  intros Hne. destruct rest; simpl; rewrite lookup_insert_ne; auto.
Qed.

Lemma applyUpdates_other_keys updates (d : gmap string value) k' :
  bookkeepingUpdates updates -> k' ∉ posBookkeeping ->
  applyUpdates updates d !! k' = d !! k'.
Proof.
  unfold applyUpdates. intros Hall Hk. revert d.
  induction Hall as [|[path v] updates (k & rest & Hp & Hin) _ IH];
    intros d; simpl; [reflexivity|].
  rewrite IH. simpl in Hp. subst path. apply setPath_other_key.
  intros ->. contradiction.
Qed.

Lemma bookkeeping_posRefs systemId v :
  bookkeepingUpdates [(posRefsPath systemId, v)].
Proof.
  constructor; [|constructor]. eexists _, _. split; [reflexivity|].
  unfold posBookkeeping. set_solver.
Qed.

Lemma bookkeeping_success now : bookkeepingUpdates (syncSuccessFields now).
Proof.
  unfold syncSuccessFields.
  repeat (constructor;
          [eexists _, _; split; [reflexivity|unfold posBookkeeping; set_solver]|]).
  constructor.
Qed.

Lemma bookkeeping_error e : bookkeepingUpdates (syncErrorFields e).
Proof.
  unfold syncErrorFields.
  repeat (constructor;
          [eexists _, _; split; [reflexivity|unfold posBookkeeping; set_solver]|]).
  constructor.
Qed.

Lemma bookkeeping_app u1 u2 :
  bookkeepingUpdates u1 -> bookkeepingUpdates u2 ->
  bookkeepingUpdates (u1 ++ u2).
Proof. unfold bookkeepingUpdates. intros. apply Forall_app. auto. Qed.

Lemma getPath_setPath_same a b v (d : gmap string value) :
  getPath [a; b] (setPath [a; b] v d) = Some v.
Proof.
  cbn [getPath setPath]. rewrite lookup_insert_eq. apply lookup_insert_eq.
Qed.

Lemma getPath_setPath_sibling a b c v (d : gmap string value) :
  b <> c -> getPath [a; b] (setPath [a; c] v d) = getPath [a; b] d.
Proof.
  intros Hne. cbn [getPath setPath]. rewrite lookup_insert_eq.
  rewrite lookup_insert_ne by auto.
  destruct (d !! a) as [[]|]; try apply lookup_empty. reflexivity.
Qed.

Lemma getPath_setPath_other a rest a' rest' v (d : gmap string value) :
  a <> a' ->
  getPath (a :: rest) (setPath (a' :: rest') v d) = getPath (a :: rest) d.
Proof.
  intros Hne. destruct rest, rest'; cbn [getPath setPath];
    rewrite lookup_insert_ne by auto; reflexivity.
Qed.

(** What the catch handler writes can be read back. *)
Lemma syncErrorFields_read e (d : gmap string value) :
  getPath ["syncStatus"; "status"] (applyUpdates (syncErrorFields e) d)
  = Some (VStr "error")
  /\ getPath ["syncStatus"; "error"] (applyUpdates (syncErrorFields e) d)
     = Some (VStr ("POS Sync Failed: " ++ e)).
Proof.
  unfold applyUpdates, syncErrorFields. cbn [fold_left fst snd]. split.
  - rewrite getPath_setPath_sibling by discriminate.
    apply getPath_setPath_same.
  - apply getPath_setPath_same.
Qed.

(** ** Relations kept by a synchronization *)

Instance keeps_preorder : PreOrder keeps.
Proof.
  split.
  - intros σ ref d H. eauto.
  - intros σ1 σ2 σ3 H12 H23 ref d H.
    destruct (H12 ref d H) as (d2 & H2 & Hk2).
    destruct (H23 ref d2 H2) as (d3 & H3 & Hk3).
    exists d3. split; [assumption|]. intros k Hk.
    rewrite Hk3, Hk2; auto.
Qed.

Instance sameExceptAt_preorder ref : PreOrder (sameExceptAt ref).
Proof.
  split.
  - intros σ ref' _. reflexivity.
  - intros σ1 σ2 σ3 H12 H23 ref' Hne. rewrite H23, H12; auto.
Qed.

Instance eq_store_preorder : PreOrder (@eq Store).
Proof. split; [intros ?; reflexivity|intros ? ? ? -> ->; reflexivity]. Qed.

Section SyncInv.

Context (R : Store -> Store -> Prop) `{!PreOrder R}.

Lemma syncInv_ret {A : Type} (a : A) : syncInv R (syncRet a).
Proof. intros σ r σ' [= _ <-]. reflexivity. Qed.

Lemma syncInv_throw {A : Type} e : syncInv R (@syncThrow A e).
Proof. intros σ r σ' [= _ <-]. reflexivity. Qed.

Lemma syncInv_lift {A : Type} (c : Outcome A) : syncInv R (syncLift c).
Proof. intros σ r σ' [= _ <-]. reflexivity. Qed.

Lemma syncInv_getDoc ref : syncInv R (syncGetDoc ref).
Proof. intros σ r σ' [= _ <-]. reflexivity. Qed.

Lemma syncInv_bind {A B : Type} (c : Sync A) (k : A -> Sync B) :
  syncInv R c -> (forall a, syncInv R (k a)) -> syncInv R (syncBind c k).
Proof.
  intros Hc Hk σ r σ'. unfold syncBind.
  destruct (c σ) as [[a|e] σ1] eqn:E.
  - intros H. transitivity σ1; [eapply Hc|eapply Hk]; eauto.
  - intros [= _ <-]. eapply Hc; eauto.
Qed.

Lemma syncInv_catch {A : Type} (c : Sync A) (h : string -> Sync A) :
  syncInv R c -> (forall e, syncInv R (h e)) -> syncInv R (syncCatch c h).
Proof.
  intros Hc Hh σ r σ'. unfold syncCatch.
  destruct (c σ) as [[a|e] σ1] eqn:E.
  - intros [= _ <-]. eapply Hc; eauto.
  - intros H. transitivity σ1; [eapply Hc|eapply Hh]; eauto.
Qed.

Lemma syncInv_updateDoc refuses ref updates :
  (forall σ (d : gmap string value), σ !! ref = Some d ->
     R σ (<[ref := applyUpdates updates d]> σ)) ->
  syncInv R (syncUpdateDocUnless refuses ref updates).
Proof.
  intros H σ r σ'. unfold syncUpdateDocUnless.
  destruct (refuses ref updates); [intros [= _ <-]; reflexivity|].
  unfold syncUpdateDoc, updateDoc.
  destruct (σ !! ref) eqn:E.
  - intros [= _ <-]. auto.
  - intros [= _ <-]. reflexivity.
Qed.

Lemma syncInv_bind_lift {A B : Type} (c : Outcome A) (k : A -> Sync B) :
  (forall a, c = Returns a -> syncInv R (k a)) ->
  syncInv R (syncBind (syncLift c) k).
Proof.
  intros H σ r σ'. unfold syncBind, syncLift. destruct c as [a|e].
  - apply H. reflexivity.
  - intros [= _ <-]. reflexivity.
Qed.

End SyncInv.

Lemma syncInv_weaken (R R' : Store -> Store -> Prop) {A : Type} (c : Sync A) :
  (forall σ σ', R σ σ' -> R' σ σ') -> syncInv R c -> syncInv R' c.
Proof. intros Hsub Hc σ r σ' H. apply Hsub. eapply Hc. exact H. Qed.

Lemma keeps_update σ ref (d : gmap string value) updates :
  σ !! ref = Some d -> bookkeepingUpdates updates ->
  keeps σ (<[ref := applyUpdates updates d]> σ).
Proof.
  intros Hd Hup ref' d' Hd'. destruct (decide (ref = ref')) as [<-|Hne].
  - rewrite lookup_insert_eq. eexists. split; [reflexivity|].
    intros k Hk. rewrite applyUpdates_other_keys by assumption. congruence.
  - rewrite lookup_insert_ne by assumption. eauto.
Qed.

Lemma syncInv_updateDoc_keeps refuses ref updates :
  bookkeepingUpdates updates ->
  syncInv keeps (syncUpdateDocUnless refuses ref updates).
Proof.
  intros H. apply syncInv_updateDoc; [typeclasses eauto|].
  intros σ d Hd. apply keeps_update; assumption.
Qed.

Lemma syncInv_updateDoc_at refuses ref updates :
  syncInv (sameExceptAt ref) (syncUpdateDocUnless refuses ref updates).
Proof.
  apply syncInv_updateDoc; [typeclasses eauto|].
  intros σ d Hd ref' Hne. apply lookup_insert_ne. auto.
Qed.

Lemma docRef_returns userId collectionName docId :
  userId <> "" -> docId <> "" ->
  getUserSubcollectionDocRef userId collectionName docId
  = Returns (userId, collectionName, docId).
Proof.
  intros Hu Hd. unfold getUserSubcollectionDocRef.
  destruct (String.eqb_spec userId ""); [contradiction|].
  destruct (String.eqb_spec docId ""); [contradiction|]. reflexivity.
Qed.

Lemma docRef_shape userId collectionName docId ref :
  getUserSubcollectionDocRef userId collectionName docId = Returns ref ->
  ref = (userId, collectionName, docId) /\ userId <> "" /\ docId <> "".
Proof.
  unfold getUserSubcollectionDocRef.
  destruct (String.eqb_spec userId ""); [discriminate|].
  destruct (String.eqb_spec docId ""); [discriminate|].
  simpl. intros [= <-]. auto.
Qed.

Lemma applyWrites_active (rejects : DocRef -> bool) (ws : list Write)
    (σ σ' : Store) (ref : DocRef) :
  applyWrites rejects ws σ = Some σ' ->
  Forall (fun w => writeData w !! "isActive" = Some (VBool true)) ws ->
  activeAt σ ref \/ (exists w, w ∈ ws /\ writeRef w = ref) ->
  activeAt σ' ref.
Proof.
  revert σ. induction ws as [|w ws IH]; intros σ; simpl.
  - intros [= <-] _ [?|(w & Hw & _)]; [assumption|].
    apply elem_of_nil in Hw as [].
  - destruct (rejects (writeRef w)); [discriminate|].
    destruct (applyWrite w σ) as [σ1|] eqn:Hw; [|discriminate].
    intros Hc Hall Href. apply Forall_cons in Hall as [Hact Hall].
    apply (IH σ1 Hc Hall).
    destruct (decide (writeRef w = ref)) as [<-|Hne].
    + left. destruct w as [r d [|]|r d]; simpl in *.
      * injection Hw as <-. eexists. rewrite lookup_insert_eq.
        split; [reflexivity|]. apply lookup_union_Some_l. exact Hact.
      * injection Hw as <-. eexists. rewrite lookup_insert_eq.
        split; [reflexivity|]. exact Hact.
      * destruct (σ !! r) as [old|]; [|discriminate]. injection Hw as <-.
        eexists. rewrite lookup_insert_eq.
        split; [reflexivity|]. apply lookup_union_Some_l. exact Hact.
    + destruct Href as [(d & Hd & Hactive)|(w' & Hw' & Href)].
      * left. exists d. split; [|assumption].
        rewrite (applyWrite_frame _ _ _ _ Hw Hne). exact Hd.
      * apply elem_of_cons in Hw' as [->|Hw']; [contradiction|].
        right. eauto.
Qed.

Section Finalizer.

Variable autoId : nat -> string.
Variable now : string.
Variable parseDate : string -> option Z.
Variable caspit : PosAdapter.
Variable rejects : DocRef -> bool.
Variable refuses : DocRef -> list (list string * value) -> option string.

(** ** The invoice record *)

Lemma invoiceRecord_id data name pending invoiceId supplierId saved :
  strField (invoiceRecord parseDate data name pending invoiceId supplierId
              saved) "id" = Some invoiceId.
Proof. reflexivity. Qed.

Lemma invoiceRecord_status data name pending invoiceId supplierId saved :
  invoiceRecord parseDate data name pending invoiceId supplierId saved
    !! "status" = Some (VStr "completed").
Proof. reflexivity. Qed.

Lemma invoiceRecord_linkedInvoiceId data name pending invoiceId supplierId
    saved :
  invoiceRecord parseDate data name pending invoiceId supplierId saved
    !! "linkedInvoiceId" = Some VNull.
Proof. reflexivity. Qed.

Lemma invoiceRecord_paymentStatus data name pending invoiceId supplierId
    saved :
  invoiceRecord parseDate data name pending invoiceId supplierId saved
    !! "paymentStatus"
  = Some (VStr (match docType data with
                | receipt | invoiceReceipt => "paid"
                | _ => "unpaid"
                end)).
Proof. reflexivity. Qed.

(** ** The update function, step by step *)

Lemma readPendingDoc_tx σ data tx pending tx' :
  readPendingDoc σ data tx = Returns (pending, tx') -> tx' = tx.
Proof.
  unfold readPendingDoc. destruct (nonEmpty (existingDocumentId data)).
  - unfold txBind, txLift, txRet.
    destruct (getUserSubcollectionDocRef _ _ _); [|discriminate].
    intros [= _ <-]. reflexivity.
  - intros [= _ <-]. reflexivity.
Qed.

Lemma readPendingDoc_returns σ data tx :
  userId data <> "" ->
  exists pending, readPendingDoc σ data tx = Returns (pending, tx).
Proof.
  intros Hu. unfold readPendingDoc.
  destruct (nonEmpty (existingDocumentId data)) as [docId|] eqn:E.
  - apply nonEmpty_Some in E as [_ Hd].
    unfold txBind, txLift, txRet. rewrite docRef_returns by assumption.
    eauto.
  - unfold txRet. eauto.
Qed.

Lemma readSupplier_tx σq σ data name tx existing tx' :
  readSupplier σq σ data name tx = Returns (existing, tx') -> tx' = tx.
Proof.
  unfold readSupplier. destruct (queryFirst _ _ _ _) as [[sid d]|].
  - destruct (σ !! _); [|discriminate]. intros [= _ <-]. reflexivity.
  - intros [= _ <-]. reflexivity.
Qed.

Lemma stageSupplier_writes data name existing tx supplierId tx' :
  stageSupplier autoId data name existing tx = Returns (supplierId, tx') ->
  exists w, staged tx' = (staged tx ++ [w])%list
    /\ writeRef w = (userId data, SUPPLIERS_SUBCOLLECTION, supplierId).
Proof.
  unfold stageSupplier. destruct existing as [[sid d]|].
  - intros [= <- <-]. simpl. eauto.
  - intros [= <- <-]. simpl. eauto.
Qed.

Lemma updateLineItem_writes userId originalId productData saved tx saved' tx' :
  updateLineItem userId originalId productData saved tx
  = Returns (saved', tx') ->
  staged tx'
  = (staged tx ++
     [WUpdate (userId, INVENTORY_SUBCOLLECTION, originalId)
        (<["isActive" := VBool true]>
           (<["lastUpdated" := VServerTimestamp]> productData))])%list
  /\ nextAutoId tx' = nextAutoId tx /\ userId <> "" /\ originalId <> "".
Proof.
  unfold updateLineItem, txBind, txLift.
  destruct (getUserSubcollectionDocRef _ _ _) as [ref|] eqn:E; [|discriminate].
  apply docRef_shape in E as (-> & Hu & Ho).
  intros [= _ <-]. simpl. auto.
Qed.

Lemma createLineItem_writes userId productData saved tx :
  exists saved' tx' record,
    createLineItem autoId userId productData saved tx = Returns (saved', tx')
    /\ staged tx'
       = (staged tx ++
          [WSet (userId, INVENTORY_SUBCOLLECTION, autoId (nextAutoId tx))
             record false])%list
    /\ nextAutoId tx' = S (nextAutoId tx)
    /\ record !! "id" = Some (VStr (autoId (nextAutoId tx)))
    /\ record !! "isActive" = Some (VBool true).
Proof.
  unfold createLineItem, txBind, txNewId, txStage, txRet. simpl.
  eexists _, _, _. split; [reflexivity|]. simpl.
  split; [reflexivity|]. split; [reflexivity|]. split.
  - rewrite !lookup_insert_ne by discriminate. apply lookup_insert_eq.
  - apply lookup_insert_eq.
Qed.

Lemma saveLineItem_staged userId product saved tx saved' tx' :
  saveLineItem autoId userId product saved tx = Returns (saved', tx') ->
  exists w, staged tx' = (staged tx ++ [w])%list.
Proof.
  unfold saveLineItem.
  destruct (createLineItem_writes userId (delete "_originalId" product)
              saved tx) as (s1 & t1 & rec & Hc & Hst & _).
  destruct (product !! "_originalId") as [v|].
  - destruct (truthy v).
    + destruct v; try discriminate.
      destruct (negb _).
      * intros H. apply updateLineItem_writes in H as [-> _]. eauto.
      * rewrite Hc. intros [= _ <-]. eauto.
    + rewrite Hc. intros [= _ <-]. eauto.
  - rewrite Hc. intros [= _ <-]. eauto.
Qed.

Lemma saveLineItems_staged userId products saved tx saved' tx' :
  saveLineItems autoId userId products saved tx = Returns (saved', tx') ->
  exists ws, staged tx' = (staged tx ++ ws)%list.
Proof.
  revert saved tx. induction products as [|p ps IH]; intros saved tx; simpl.
  - intros [= _ <-]. exists []. rewrite app_nil_r. reflexivity.
  - intros H. apply txBind_returns in H as (s1 & t1 & H1 & H2).
    apply saveLineItem_staged in H1 as [w Hw].
    apply IH in H2 as [ws Hws]. exists (w :: ws).
    rewrite Hws, Hw, <- app_assoc. reflexivity.
Qed.

Lemma finalInvoiceRef_shape data tx ref tx' :
  finalInvoiceRef autoId data tx = Returns (ref, tx') ->
  staged tx' = staged tx
  /\ ref = (userId data, DOCUMENTS_SUBCOLLECTION, ref.2)
  /\ ((forall k, autoId k <> "") -> ref.2 <> "").
Proof.
  unfold finalInvoiceRef. destruct (nonEmpty (existingDocumentId data)).
  - unfold txLift.
    destruct (getUserSubcollectionDocRef _ _ _) as [r|] eqn:E; [|discriminate].
    apply docRef_shape in E as (-> & _ & Hd). intros [= <- <-]. auto.
  - intros [= <- <-]. simpl. auto.
Qed.

(** The writes of a run of the update function: the supplier and the line
    items, then the invoice, set with merge under the id it carries. *)
Lemma finalizeTransaction_writes σq σ data name pushed tx0 fin tx :
  finalizeTransaction autoId parseDate σq σ data name pushed tx0
  = Returns (fin, tx) ->
  exists pending ws invoiceId,
    staged tx
    = (staged tx0 ++ ws ++
       [WSet (userId data, DOCUMENTS_SUBCOLLECTION, invoiceId)
          (finalInvoiceRecord fin) true])%list
    /\ finalInvoiceRecord fin
       = invoiceRecord parseDate data name pending invoiceId
           (finalSupplierId fin) (savedOrUpdatedProducts fin)
    /\ ((forall k, autoId k <> "") -> invoiceId <> "")
    /\ exists w, w ∈ ws
         /\ writeRef w
            = (userId data, SUPPLIERS_SUBCOLLECTION, finalSupplierId fin).
Proof.
  unfold finalizeTransaction. intros H.
  apply txBind_returns in H as (pending & t1 & H1 & H).
  apply readPendingDoc_tx in H1 as ->.
  apply txBind_returns in H as (existing & t2 & H2 & H).
  apply readSupplier_tx in H2 as ->.
  apply txBind_returns in H as (sid & t3 & H3 & H).
  apply stageSupplier_writes in H3 as (w & Hw & Hwref).
  apply txBind_returns in H as (saved & t4 & H4 & H).
  apply saveLineItems_staged in H4 as (ws & Hws).
  apply txBind_returns in H as (ref & t5 & H5 & H).
  apply finalInvoiceRef_shape in H5 as (Hst5 & Href & Hne).
  apply txBind_returns in H as ([] & t6 & H6 & H).
  injection H6 as <-. injection H as <- <-. simpl.
  exists pending, (w :: ws), ref.2. rewrite <- Href.
  split; [|split; [|split]].
  - rewrite Hst5, Hws, Hw, <- !app_assoc. reflexivity.
  - reflexivity.
  - exact Hne.
  - exists w. split; [left|assumption].
Qed.

Lemma finalizeTransaction_invoiceId σq σ data name pushed tx0 fin tx :
  finalizeTransaction autoId parseDate σq σ data name pushed tx0
  = Returns (fin, tx) ->
  exists ws,
    staged tx
    = (staged tx0 ++ ws ++
       [WSet (userId data, DOCUMENTS_SUBCOLLECTION, invoiceIdOf fin)
          (finalInvoiceRecord fin) true])%list.
Proof.
  intros H. apply finalizeTransaction_writes in H
    as (pending & ws & iid & Hst & Hrec & _).
  exists ws. unfold invoiceIdOf. rewrite Hrec at 1.
  rewrite invoiceRecord_id. exact Hst.
Qed.

Lemma finalizeTransaction_invoiceId_nonempty σq σ data name pushed tx0 fin
    tx :
  (forall k, autoId k <> "") ->
  finalizeTransaction autoId parseDate σq σ data name pushed tx0
  = Returns (fin, tx) ->
  invoiceIdOf fin <> "".
Proof.
  intros Hauto H. apply finalizeTransaction_writes in H
    as (pending & ws & iid & _ & Hrec & Hne & _).
  unfold invoiceIdOf. rewrite Hrec, invoiceRecord_id. simpl. auto.
Qed.

(** ** The synchronization keeps what was committed *)

Lemma syncSupplier_keeps config ref supplierData :
  syncInv keeps (syncSupplier now caspit refuses config ref supplierData).
Proof.
  unfold syncSupplier. destruct (truthy _).
  - apply syncInv_ret; typeclasses eauto.
  - destruct (success _); [|apply syncInv_throw; typeclasses eauto].
    destruct (nonEmpty (externalId _));
      [|apply syncInv_throw; typeclasses eauto].
    apply syncInv_bind; [typeclasses eauto| |intros ?].
    + apply syncInv_updateDoc_keeps, bookkeeping_posRefs.
    + apply syncInv_ret; typeclasses eauto.
Qed.

Lemma syncProduct_keeps config userId product :
  syncInv keeps (syncProduct now caspit refuses config userId product).
Proof.
  unfold syncProduct.
  destruct (success _); [|apply syncInv_ret; typeclasses eauto].
  destruct (nonEmpty (externalId _)); [|apply syncInv_ret; typeclasses eauto].
  destruct (truthyString _); [|apply syncInv_ret; typeclasses eauto].
  apply syncInv_bind; [typeclasses eauto| |intros ?].
  - apply syncInv_lift; typeclasses eauto.
  - apply syncInv_updateDoc_keeps, bookkeeping_posRefs.
Qed.

Lemma syncProducts_keeps config userId products :
  syncInv keeps (syncProducts now caspit refuses config userId products).
Proof.
  induction products as [|p ps IH]; simpl.
  - apply syncInv_ret; typeclasses eauto.
  - apply syncInv_bind; [typeclasses eauto| |intros ?]; [|exact IH].
    apply syncProduct_keeps.
Qed.

Lemma syncDocument_keeps config docType ref record :
  syncInv keeps (syncDocument now caspit refuses config docType ref record).
Proof.
  unfold syncDocument.
  assert (Hpayable : syncInv keeps
    (match success (createPosExpenseAction caspit config record),
           nonEmpty (externalId (createPosExpenseAction caspit config record))
     with
     | true, Some extId =>
         syncUpdateDocUnless refuses ref
           (syncSuccessFields now ++
            [(posRefsPath (strField config "systemId"),
              posRef now (strField config "systemId") extId)])
     | _, _ =>
         syncThrow ("POS expense creation failed: " ++
                    message (createPosExpenseAction caspit config record))
     end)).
  { destruct (success _); [|apply syncInv_throw; typeclasses eauto].
    destruct (nonEmpty _); [|apply syncInv_throw; typeclasses eauto].
    apply syncInv_updateDoc_keeps, bookkeeping_app;
      [apply bookkeeping_success|apply bookkeeping_posRefs]. }
  destruct docType; try exact Hpayable.
  apply syncInv_updateDoc_keeps, bookkeeping_success.
Qed.

Lemma getUserSettingsService_inv (R : Store -> Store -> Prop) `{!PreOrder R}
    userId :
  syncInv R (getUserSettingsService userId).
Proof.
  unfold getUserSettingsService.
  apply syncInv_bind; [assumption| |intros ?].
  - apply syncInv_lift; assumption.
  - apply syncInv_bind; [assumption| |intros ?].
    + apply syncInv_getDoc; assumption.
    + apply syncInv_ret; assumption.
Qed.

Lemma syncEntities_keeps config data fin supplierRef invoiceRef stored :
  syncInv keeps
    (syncEntities now caspit refuses config data fin supplierRef invoiceRef
       stored).
Proof.
  unfold syncEntities.
  apply syncInv_bind; [typeclasses eauto| |intros posSupplierId].
  { apply syncSupplier_keeps. }
  destruct (truthy posSupplierId); [|apply syncInv_ret; typeclasses eauto].
  apply syncInv_bind; [typeclasses eauto| |intros ?].
  - apply syncProducts_keeps.
  - apply syncDocument_keeps.
Qed.

Lemma posSyncConfigured_keeps config data fin :
  syncInv keeps (posSyncConfigured now caspit refuses config data fin).
Proof.
  unfold posSyncConfigured.
  apply syncInv_bind; [typeclasses eauto| |intros supplierRef].
  { apply syncInv_lift; typeclasses eauto. }
  apply syncInv_bind; [typeclasses eauto| |intros invoiceRef].
  { apply syncInv_lift; typeclasses eauto. }
  apply syncInv_bind; [typeclasses eauto| |intros supplierDoc].
  { apply syncInv_getDoc; typeclasses eauto. }
  destruct supplierDoc as [stored|]; [|apply syncInv_ret; typeclasses eauto].
  apply syncEntities_keeps.
Qed.

Lemma posSync_keeps data fin :
  syncInv keeps (posSync now caspit refuses data fin).
Proof.
  unfold posSync.
  apply syncInv_bind; [typeclasses eauto| |intros settings].
  { apply getUserSettingsService_inv; typeclasses eauto. }
  destruct (posConfigOf settings) as [config|];
    [|apply syncInv_ret; typeclasses eauto].
  apply posSyncConfigured_keeps.
Qed.

Lemma recordSyncError_keeps data fin e :
  syncInv keeps (recordSyncError refuses data fin e).
Proof.
  unfold recordSyncError.
  destruct (negb _); [|apply syncInv_ret; typeclasses eauto].
  apply syncInv_bind; [typeclasses eauto| |intros ?].
  - apply syncInv_lift; typeclasses eauto.
  - apply syncInv_updateDoc_keeps, bookkeeping_error.
Qed.

Lemma relay_keeps data fin :
  syncInv keeps
    (syncCatch (posSync now caspit refuses data fin)
       (recordSyncError refuses data fin)).
Proof.
  apply syncInv_catch; [typeclasses eauto| |intros e].
  - apply posSync_keeps.
  - apply recordSyncError_keeps.
Qed.

Lemma keeps_is_Some σ σ' ref :
  keeps σ σ' -> is_Some (σ !! ref) -> is_Some (σ' !! ref).
Proof. intros Hk [d Hd]. destruct (Hk ref d Hd) as (d' & -> & _). eauto. Qed.

(** The handler of the inner [catch], on an invoice that exists: it
    writes the error on the invoice, unless the store refuses that write;
    then the error of the write leaves the handler, and nothing is
    written. *)
Lemma recordSyncError_outcome data fin e σ1 :
  userId data <> "" -> invoiceIdOf fin <> "" ->
  is_Some (σ1 !! (userId data, DOCUMENTS_SUBCOLLECTION, invoiceIdOf fin)) ->
  match refuses (userId data, DOCUMENTS_SUBCOLLECTION, invoiceIdOf fin)
          (syncErrorFields e) with
  | Some e' => recordSyncError refuses data fin e σ1 = (Throws e', σ1)
  | None =>
      exists σ' (doc : gmap string value),
        recordSyncError refuses data fin e σ1 = (Returns tt, σ')
        /\ σ' !! (userId data, DOCUMENTS_SUBCOLLECTION, invoiceIdOf fin)
           = Some doc
        /\ getPath ["syncStatus"; "status"] doc = Some (VStr "error")
        /\ getPath ["syncStatus"; "error"] doc
           = Some (VStr ("POS Sync Failed: " ++ e))
  end.
Proof.
  intros Hu Hid [d Hd]. unfold recordSyncError.
  destruct (String.eqb_spec (invoiceIdOf fin) ""); [contradiction|]. simpl.
  unfold syncBind, syncLift. rewrite docRef_returns by assumption.
  unfold syncUpdateDocUnless. destruct (refuses _ _) as [e'|]; [reflexivity|].
  unfold syncUpdateDoc, updateDoc. rewrite Hd.
  eexists _, _. split; [reflexivity|]. rewrite lookup_insert_eq.
  split; [reflexivity|]. apply syncErrorFields_read.
Qed.

(** ** The attempts of the transaction *)

(** A transaction of the finalizer that returns: the attempts before the
    last were aborted, and the last one ran on what they left and was
    committed. *)
Lemma runTransaction_returns aborted σq σ autoIds data name fin σc n :
  runTransaction rejects (finalizeAttempt autoId parseDate data name) aborted
    (σq, σ) σ [] autoIds = Returns (fin, σc, n) ->
  exists pushed ids tx,
    earlierAttempts autoId parseDate data name aborted autoIds
    = Returns (pushed, ids)
    /\ finalizeTransaction autoId parseDate σq σ data name pushed
         (mkTx [] ids) = Returns (fin, tx)
    /\ applyWrites rejects (staged tx) σ = Some σc.
Proof.
  unfold runTransaction, earlierAttempts.
  destruct (abortedAttempts _ _ _ _ _) as [[pushed ids]|]; [|discriminate].
  unfold commitOnce, finalizeAttempt, txBind, txRet. cbn [fst snd].
  destruct (finalizeTransaction _ _ _ _ _ _ _ _) as [[fin' tx]|] eqn:Htx;
    [|discriminate].
  destruct (applyWrites _ _ _) as [σ1|] eqn:Hc; [|discriminate].
  intros [= <- <- <-]. eexists _, _, _. split; [reflexivity|].
  split; eassumption.
Qed.

(** The last attempt decides the transaction. *)
Lemma runTransaction_last aborted σq σ autoIds data name pushed ids :
  earlierAttempts autoId parseDate data name aborted autoIds
  = Returns (pushed, ids) ->
  runTransaction rejects (finalizeAttempt autoId parseDate data name) aborted
    (σq, σ) σ [] autoIds
  = match finalizeTransaction autoId parseDate σq σ data name pushed
            (mkTx [] ids) with
    | Returns (fin, tx) =>
        match applyWrites rejects (staged tx) σ with
        | Some σc => Returns (fin, σc, nextAutoId tx)
        | None => Throws "Transaction failed: the commit was rejected"
        end
    | Throws e => Throws e
    end.
Proof.
  unfold runTransaction, earlierAttempts. intros ->.
  unfold commitOnce, finalizeAttempt, txBind, txRet. cbn [fst snd].
  destruct (finalizeTransaction _ _ _ _ _ _ _ _) as [[fin tx]|];
    [|reflexivity].
  destruct (applyWrites _ _ _); reflexivity.
Qed.

(** With no attempt aborted, the transaction is its one attempt. *)
Lemma earlierAttempts_nil data name autoIds :
  earlierAttempts autoId parseDate data name [] autoIds
  = Returns ([], autoIds).
Proof. reflexivity. Qed.

(** What a committed attempt of the finalizer leaves in the store. *)
Lemma committed_invoice σq σ data name pushed ids fin tx σc :
  finalizeTransaction autoId parseDate σq σ data name pushed (mkTx [] ids)
  = Returns (fin, tx) ->
  applyWrites rejects (staged tx) σ = Some σc ->
  exists (old : gmap string value),
    σc !! (userId data, DOCUMENTS_SUBCOLLECTION, invoiceIdOf fin)
    = Some (finalInvoiceRecord fin ∪ old).
Proof.
  intros E Hc.
  apply finalizeTransaction_invoiceId in E as [ws Hst]. simpl in Hst.
  rewrite Hst in Hc. eapply applyWrites_last_set. exact Hc.
Qed.

Lemma committed_supplier σq σ data name pushed ids fin tx σc :
  finalizeTransaction autoId parseDate σq σ data name pushed (mkTx [] ids)
  = Returns (fin, tx) ->
  applyWrites rejects (staged tx) σ = Some σc ->
  is_Some (σc !! (userId data, SUPPLIERS_SUBCOLLECTION, finalSupplierId fin)).
Proof.
  intros E Hc.
  apply finalizeTransaction_writes in E
    as (pending & ws & iid & Hst & _ & _ & w & Hw & Href).
  rewrite <- Href. eapply applyWrites_all_written; [exact Hc|].
  rewrite Hst. simpl. apply elem_of_app. left. exact Hw.
Qed.

Lemma committed_record σq σ data name pushed tx0 fin tx :
  finalizeTransaction autoId parseDate σq σ data name pushed tx0
  = Returns (fin, tx) ->
  finalInvoiceRecord fin !! "status" = Some (VStr "completed")
  /\ ((forall k, autoId k <> "") -> invoiceIdOf fin <> "").
Proof.
  intros E. split.
  - apply finalizeTransaction_writes in E as (pending & ws & iid & _ & -> & _).
    apply invoiceRecord_status.
  - intros Hauto. eapply finalizeTransaction_invoiceId_nonempty; eauto.
Qed.

(** ** The finalizer *)

(** C5. When the supplier that the name lookup found is gone at the time
    the transaction reads it again, the finalizer throws that error and
    leaves the store as it was: no supplier is created in its place. (The
    attempt in question is the one that sees [σq] and [σ]: the first
    attempt, or the one after the aborted attempts.) *)
Theorem supplier_deleted_aborts aborted σq σ autoIds data name pushed ids
    existingId found :
  userId data <> "" ->
  nonEmpty (supplierName data) = Some name ->
  earlierAttempts autoId parseDate data name aborted autoIds
  = Returns (pushed, ids) ->
  queryFirst σq (userId data) SUPPLIERS_SUBCOLLECTION (supplierNamed name)
  = Some (existingId, found) ->
  σ !! (userId data, SUPPLIERS_SUBCOLLECTION, existingId) = None ->
  finalizeSaveProductsService autoId now parseDate caspit rejects refuses
    aborted σq σ autoIds data
  = (Throws
       "Supplier was deleted between the initial query and the transaction start.",
     σ).
Proof.
  intros Hu Hname Hearly Hq Hgone. unfold finalizeSaveProductsService.
  destruct (String.eqb_spec (userId data) ""); [contradiction|].
  rewrite Hname, (runTransaction_last _ _ _ _ _ _ _ _ Hearly).
  unfold finalizeTransaction.
  destruct (readPendingDoc_returns σ data (mkTx [] ids) Hu) as [pending Hp].
  rewrite (txBind_step _ _ _ _ _ Hp).
  erewrite txBind_throws; [reflexivity|].
  unfold readSupplier. rewrite Hq, Hgone. reflexivity.
Qed.

(** C1. A call of the finalizer whose transaction throws leaves the store
    exactly as it found it, and throws that error. A call that returns
    has committed every write the update function staged in the attempt
    that went through, and each written document is in the store. When
    the store refuses any one of the writes staged in that attempt, the
    call throws and nothing of it is in the store. And a call that throws
    has left the store as it found it, unless its transaction had been
    committed before: then the commit stays. *)
Theorem finalize_all_or_nothing aborted σq σ autoIds data out σ' :
  finalizeSaveProductsService autoId now parseDate caspit rejects refuses
    aborted σq σ autoIds data = (out, σ') ->
  (forall name e,
     userId data <> "" ->
     nonEmpty (supplierName data) = Some name ->
     runTransaction rejects (finalizeAttempt autoId parseDate data name)
       aborted (σq, σ) σ [] autoIds = Throws e ->
     out = Throws e /\ σ' = σ)
  /\ (forall r, out = Returns r ->
      exists name pushed ids fin tx σc,
        nonEmpty (supplierName data) = Some name
        /\ earlierAttempts autoId parseDate data name aborted autoIds
           = Returns (pushed, ids)
        /\ finalizeTransaction autoId parseDate σq σ data name pushed
             (mkTx [] ids) = Returns (fin, tx)
        /\ applyWrites rejects (staged tx) σ = Some σc
        /\ keeps σc σ'
        /\ forall w, w ∈ staged tx -> is_Some (σ' !! writeRef w))
  /\ (forall name pushed ids fin tx w,
        nonEmpty (supplierName data) = Some name ->
        earlierAttempts autoId parseDate data name aborted autoIds
        = Returns (pushed, ids) ->
        finalizeTransaction autoId parseDate σq σ data name pushed
          (mkTx [] ids) = Returns (fin, tx) ->
        w ∈ staged tx -> rejects (writeRef w) = true ->
        (exists e, out = Throws e) /\ σ' = σ)
  /\ (forall e, out = Throws e ->
        σ' = σ
        \/ exists name fin σc n,
             nonEmpty (supplierName data) = Some name
             /\ runTransaction rejects
                  (finalizeAttempt autoId parseDate data name) aborted
                  (σq, σ) σ [] autoIds = Returns (fin, σc, n)
             /\ keeps σc σ').
Proof.
  unfold finalizeSaveProductsService.
  destruct (String.eqb_spec (userId data) "") as [Hu|Hu].
  { intros [= <- <-]. split; [|split; [|split]]; [|discriminate|eauto|auto].
    intros name e Hne. contradiction. }
  destruct (nonEmpty (supplierName data)) as [name|] eqn:Hname.
  2:{ intros [= <- <-].
      split; [|split; [|split]]; [discriminate|discriminate|eauto|auto]. }
  destruct (runTransaction _ _ _ _ _ _ _) as [[[fin σc] n]|e] eqn:Hrun.
  2:{ intros [= <- <-]. split; [|split; [|split]]; [|discriminate|eauto|auto].
      intros name' e' _ [= <-] He. rewrite Hrun in He. injection He as <-.
      auto. }
  destruct (runTransaction_returns _ _ _ _ _ _ _ _ _ Hrun)
    as (pushed & ids & tx & Hearly & Htx & Hcommit).
  destruct (syncCatch _ _ σc) as [res σ1] eqn:Hrelay.
  assert (Hkeeps : keeps σc σ1) by (eapply relay_keeps; eauto).
  intros Hcall. assert (σ1 = σ') as -> by (destruct res; congruence).
  split; [|split; [|split]].
  4:{ intros e _. right. exists name, fin, σc, n. auto. }
  - intros name' e _ [= <-] He. rewrite He in Hrun. discriminate.
  - intros r _. exists name, pushed, ids, fin, tx, σc.
    repeat split; auto. intros w Hw.
    eapply keeps_is_Some; [exact Hkeeps|].
    eapply applyWrites_all_written; eauto.
  - intros name' pushed' ids' fin' tx' w [= <-] Hearly' Htx' Hw Hrej.
    rewrite Hearly' in Hearly. injection Hearly as -> ->.
    rewrite Htx' in Htx. injection Htx as -> ->.
    rewrite (applyWrites_rejected _ _ _ _ Hw Hrej) in Hcommit. discriminate.
Qed.

Lemma updateLineItem_returns userId originalId productData saved tx :
  userId <> "" -> originalId <> "" ->
  exists saved' tx',
    updateLineItem userId originalId productData saved tx
    = Returns (saved', tx')
    /\ staged tx'
       = (staged tx ++
          [WUpdate (userId, INVENTORY_SUBCOLLECTION, originalId)
             (<["isActive" := VBool true]>
                (<["lastUpdated" := VServerTimestamp]> productData))])%list
    /\ nextAutoId tx' = nextAutoId tx.
Proof.
  intros Hu Ho. unfold updateLineItem, txBind, txLift.
  rewrite docRef_returns by assumption. simpl. eauto.
Qed.

(** The loop over the line items, whenever it returns: the writes it
    stages are, item by item, an update or a creation as [lineItemWrites]
    has it, and the automatic ids it takes are the next ones. *)
Lemma saveLineItems_writes userId products saved tx saved' tx' :
  saveLineItems autoId userId products saved tx = Returns (saved', tx') ->
  exists ws,
    staged tx' = (staged tx ++ ws)%list
    /\ lineItemWrites autoId userId (nextAutoId tx) products ws
         (nextAutoId tx')
    /\ (nextAutoId tx <= nextAutoId tx')%nat.
Proof.
  revert saved tx. induction products as [|product rest IH];
    intros saved tx; simpl.
  - intros [= _ <-]. exists []. rewrite app_nil_r.
    split; [reflexivity|]. split; [constructor|lia].
  - intros H. apply txBind_returns in H as (s1 & t1 & H1 & H2).
    apply IH in H2 as (ws & Hst2 & Hrel & Hle).
    assert (Hcreate :
      (product !! "_originalId" = None
       \/ (exists v, product !! "_originalId" = Some v /\ truthy v = false)
       \/ (exists originalId,
             product !! "_originalId" = Some (VStr originalId)
             /\ String.prefix "prod-temp-" originalId = true)) ->
      createLineItem autoId userId (delete "_originalId" product) saved tx
      = Returns (s1, t1) ->
      exists ws',
        staged tx' = (staged tx ++ ws')%list
        /\ lineItemWrites autoId userId (nextAutoId tx) (product :: rest) ws'
             (nextAutoId tx')
        /\ (nextAutoId tx <= nextAutoId tx')%nat).
    { intros Hwhy Hc.
      destruct (createLineItem_writes userId (delete "_originalId" product)
                  saved tx)
        as (s1' & t1' & record & Hc' & Hst & Hn & Hid & Hact).
      rewrite Hc in Hc'. injection Hc' as <- <-.
      exists (WSet (userId, INVENTORY_SUBCOLLECTION, autoId (nextAutoId tx))
                record false :: ws).
      split; [rewrite Hst2, Hst, <- app_assoc; reflexivity|].
      split; [|lia].
      apply item_created; auto. rewrite <- Hn. exact Hrel. }
    unfold saveLineItem in H1.
    destruct (product !! "_originalId") as [v|] eqn:Hv.
    + destruct (truthy v) eqn:Htr.
      * destruct v as [| | |originalId| | | |]; try discriminate.
        destruct (String.prefix "prod-temp-" originalId) eqn:Hpre; simpl in H1.
        -- apply Hcreate; [|exact H1]. right. right. eauto.
        -- apply updateLineItem_writes in H1 as (Hst & Hn & _ & Hne).
           eexists (_ :: ws).
           split; [rewrite Hst2, Hst, <- app_assoc; reflexivity|].
           split; [|lia].
           apply item_updated; auto.
           ++ apply lookup_insert_eq.
           ++ rewrite <- Hn. exact Hrel.
      * apply Hcreate; [|exact H1]. right. left. eauto.
    + apply Hcreate; [|exact H1]. left. reflexivity.
Qed.

(** With line items typed as [EditableProduct], the loop returns. *)
Lemma saveLineItems_returns userId products saved tx :
  userId <> "" ->
  Forall wellTypedItem products ->
  exists saved' tx',
    saveLineItems autoId userId products saved tx = Returns (saved', tx').
Proof.
  intros Hu Htyped. revert saved tx.
  induction Htyped as [|product rest Hty _ IH]; intros saved tx; simpl.
  - unfold txRet. eauto.
  - assert (Hcreate : forall s t,
              exists saved' tx',
                txBind (createLineItem autoId userId
                          (delete "_originalId" product) s)
                  (fun saved1 => saveLineItems autoId userId rest saved1) t
                = Returns (saved', tx')).
    { intros s t.
      destruct (createLineItem_writes userId (delete "_originalId" product)
                  s t) as (s1 & t1 & record & Hc & _).
      rewrite (txBind_step _ _ _ s1 t1 Hc). apply IH. }
    unfold saveLineItem.
    destruct (product !! "_originalId") as [v|] eqn:Hv; [|apply Hcreate].
    destruct (truthy v) eqn:Htr; [|apply Hcreate].
    destruct (Hty v Hv Htr) as [originalId ->].
    destruct (String.prefix "prod-temp-" originalId) eqn:Hpre; simpl;
      [apply Hcreate|].
    assert (Hne : originalId <> "") by (intros ->; discriminate).
    destruct (updateLineItem_returns userId originalId
                (delete "_originalId" product) saved tx Hu Hne)
      as (s1 & t1 & Hup & _).
    rewrite (txBind_step _ _ _ s1 t1 Hup). apply IH.
Qed.

Lemma lineItemWrites_active userId n products ws n' :
  lineItemWrites autoId userId n products ws n' ->
  Forall (fun w => writeData w !! "isActive" = Some (VBool true)) ws
  /\ Forall (fun w => exists i,
               writeRef w = (userId, INVENTORY_SUBCOLLECTION, i)) ws.
Proof.
  induction 1 as [|? ? ? ? ? ? ? ? ? ? ? ? [IH1 IH2]
                  |? ? ? ? ? ? ? ? ? ? [IH1 IH2]];
    split; constructor; simpl; eauto.
Qed.

(** The writes of a run of the update function, with the line items in
    the middle: the supplier, one write for every line item, the invoice. *)
Lemma finalizeTransaction_line_items σq σ data name pushed tx0 fin tx :
  finalizeTransaction autoId parseDate σq σ data name pushed tx0
  = Returns (fin, tx) ->
  exists wsup ws invoiceId n n',
    staged tx
    = (staged tx0 ++ wsup :: ws ++
       [WSet (userId data, DOCUMENTS_SUBCOLLECTION, invoiceId)
          (finalInvoiceRecord fin) true])%list
    /\ writeRef wsup
       = (userId data, SUPPLIERS_SUBCOLLECTION, finalSupplierId fin)
    /\ (nextAutoId tx0 <= n)%nat /\ (n' <= nextAutoId tx)%nat
    /\ lineItemWrites autoId (userId data) n (products data) ws n'.
Proof.
  unfold finalizeTransaction. intros H.
  apply txBind_returns in H as (pending & t1 & H1 & H).
  apply readPendingDoc_tx in H1 as ->.
  apply txBind_returns in H as (existing & t2 & H2 & H).
  apply readSupplier_tx in H2 as ->.
  apply txBind_returns in H as (sid & t3 & H3 & H).
  assert (Hn3 : (nextAutoId tx0 <= nextAutoId t3)%nat).
  { revert H3. unfold stageSupplier. destruct existing as [[i d]|];
      intros [= _ <-]; simpl; lia. }
  apply stageSupplier_writes in H3 as (w & Hw & Hwref).
  apply txBind_returns in H as (saved & t4 & H4 & H).
  apply saveLineItems_writes in H4 as (ws & Hws & Hrel & _).
  apply txBind_returns in H as (ref & t5 & H5 & H).
  assert (Hn5 : (nextAutoId t4 <= nextAutoId t5)%nat).
  { revert H5. unfold finalInvoiceRef.
    destruct (nonEmpty (existingDocumentId data)).
    - unfold txLift. destruct (getUserSubcollectionDocRef _ _ _);
        [|discriminate]. intros [= _ <-]. lia.
    - intros [= _ <-]. simpl. lia. }
  apply finalInvoiceRef_shape in H5 as (Hst5 & Href & _).
  apply txBind_returns in H as ([] & t6 & H6 & H).
  injection H6 as <-. injection H as <- <-. simpl.
  exists w, ws, ref.2, (nextAutoId t3), (nextAutoId t4). rewrite <- Href.
  split; [rewrite Hst5, Hws, Hw, <- !app_assoc; reflexivity|].
  split; [exact Hwref|]. split; [exact Hn3|]. split; [exact Hn5|exact Hrel].
Qed.

(** The automatic ids are handed out in order, in the loop, in an attempt
    and from one attempt to the next. *)
Lemma lineItemWrites_le userId n products ws n' :
  lineItemWrites autoId userId n products ws n' -> (n <= n')%nat.
Proof. induction 1; lia. Qed.

Lemma abortedAttempts_ids data name attemptsRemaining aborted pushed0 autoIds
    pushed ids :
  abortedAttempts attemptsRemaining (finalizeAttempt autoId parseDate data name)
    aborted pushed0 autoIds = Returns (pushed, ids) ->
  (autoIds <= ids)%nat.
Proof.
  revert attemptsRemaining pushed0 autoIds.
  induction aborted as [|seen rest IH]; intros k pushed0 autoIds; simpl.
  - intros [= _ <-]. lia.
  - unfold finalizeAttempt at 1. unfold txBind, txRet.
    destruct (finalizeTransaction _ _ _ _ _ _ _ _) as [[fin tx]|] eqn:Htx;
      [|discriminate].
    destruct k as [|k]; [discriminate|]. intros H. apply IH in H.
    apply finalizeTransaction_line_items in Htx
      as (wsup & ws & iid & n & n' & _ & _ & Hn & Hn' & Hrel).
    apply lineItemWrites_le in Hrel. simpl in Hn, H. lia.
Qed.

(** C10. A call that returns has run the loop over its line items, in
    the attempt that was committed, so: between the write of the supplier
    and the write of the invoice the transaction holds one write for
    every line item, in order; it is an update of the inventory record
    named by [_originalId] exactly when [_originalId] is a non-empty
    string that does not start with "prod-temp-", and otherwise (no
    [_originalId], a falsy one, or a "prod-temp-" one) the creation of a
    record under the next automatic id, which the record carries as its
    [id]: an id the generator hands out in that attempt, after all those
    the call has taken before, each creation the one after the last;
    every such write has [isActive = true], and every record so written
    is in the store the call leaves, active. *)
Theorem line_items_update_or_create aborted σq σ autoIds data record saved
    σ' :
  finalizeSaveProductsService autoId now parseDate caspit rejects refuses
    aborted σq σ autoIds data = (Returns (record, saved), σ') ->
  exists name pushed ids fin tx wsup ws invoiceId n n',
    nonEmpty (supplierName data) = Some name
    /\ earlierAttempts autoId parseDate data name aborted autoIds
       = Returns (pushed, ids)
    /\ finalizeTransaction autoId parseDate σq σ data name pushed
         (mkTx [] ids) = Returns (fin, tx)
    /\ staged tx
       = wsup :: (ws ++
           [WSet (userId data, DOCUMENTS_SUBCOLLECTION, invoiceId)
              (finalInvoiceRecord fin) true])%list
    /\ (autoIds <= ids)%nat /\ (ids <= n)%nat /\ (n' <= nextAutoId tx)%nat
    /\ lineItemWrites autoId (userId data) n (products data) ws n'
    /\ Forall (fun w => activeAt σ' (writeRef w)) ws.
Proof.
  unfold finalizeSaveProductsService.
  destruct (String.eqb (userId data) ""); [discriminate|].
  destruct (nonEmpty (supplierName data)) as [name|]; [|discriminate].
  destruct (runTransaction _ _ _ _ _ _ _) as [[[fin σc] m]|] eqn:Hrun;
    [|discriminate].
  apply runTransaction_returns in Hrun
    as (pushed & ids & tx & Hearly & Htx & Hc).
  destruct (syncCatch _ _ σc) as [[[]|e] σ1] eqn:Hrelay; [|discriminate].
  intros [= _ _ <-].
  assert (Hkeeps : keeps σc σ1) by (eapply relay_keeps; eauto).
  destruct (finalizeTransaction_line_items _ _ _ _ _ _ _ _ Htx)
    as (wsup & ws & iid & n & n' & Hst & _ & Hn & Hn' & Hrel).
  simpl in Hst, Hn.
  exists name, pushed, ids, fin, tx, wsup, ws, iid, n, n'.
  split; [reflexivity|]. split; [exact Hearly|]. split; [exact Htx|].
  split; [exact Hst|].
  split; [exact (abortedAttempts_ids _ _ _ _ _ _ _ _ Hearly)|].
  split; [exact Hn|]. split; [exact Hn'|]. split; [exact Hrel|].
  destruct (lineItemWrites_active _ _ _ _ _ Hrel) as [Hact Hrefs].
  rewrite Hst in Hc.
  change (wsup :: (ws ++ ?l)%list) with ([wsup] ++ ws ++ l)%list in Hc.
  apply applyWrites_app in Hc as (σ1' & _ & Hc).
  apply applyWrites_app in Hc as (σ2 & Hitems & Hinv).
  apply Forall_forall. intros w Hw.
  assert (Hw2 : activeAt σ2 (writeRef w)).
  { eapply applyWrites_active; [exact Hitems|exact Hact|]. right. eauto. }
  destruct Hw2 as (d & Hd & Hactive).
  assert (Hframe : σc !! writeRef w = σ2 !! writeRef w).
  { eapply applyWrites_frame; [exact Hinv|].
    constructor; [|constructor]. simpl.
    rewrite Forall_forall in Hrefs. destruct (Hrefs w Hw) as [i ->].
    discriminate. }
  rewrite <- Hframe in Hd.
  destruct (Hkeeps _ _ Hd) as (d' & Hd' & Hsame).
  exists d'. split; [exact Hd'|]. rewrite Hsame; [exact Hactive|].
  unfold posBookkeeping. intros Hin. apply list_elem_of_In in Hin.
  simpl in Hin. intuition discriminate.
Qed.

(** The record the finalizer returns never carries a link to an invoice,
    and a receipt is recorded as paid. *)
Lemma finalized_record_link aborted σq σ autoIds data record saved σ' :
  finalizeSaveProductsService autoId now parseDate caspit rejects refuses
    aborted σq σ autoIds data = (Returns (record, saved), σ') ->
  record !! "linkedInvoiceId" = Some VNull
  /\ record !! "linkedDeliveryNoteIds" = Some (VArr [])
  /\ (docType data = receipt -> record !! "paymentStatus" = Some (VStr "paid")).
Proof.
  unfold finalizeSaveProductsService.
  destruct (String.eqb (userId data) ""); [discriminate|].
  destruct (nonEmpty (supplierName data)) as [name|]; [|discriminate].
  destruct (runTransaction _ _ _ _ _ _ _) as [[[fin σc] m]|] eqn:Hrun;
    [|discriminate].
  apply runTransaction_returns in Hrun as (pushed & ids & tx & _ & Htx & _).
  destruct (syncCatch _ _ σc) as [[[]|e] σ1]; [|discriminate].
  intros [= <- _ _].
  apply finalizeTransaction_writes in Htx as (pending & ws & iid & _ & -> & _).
  split; [reflexivity|]. split; [reflexivity|].
  intros Hd. rewrite invoiceRecord_paymentStatus, Hd. reflexivity.
Qed.

(** ** When the synchronization throws *)

Lemma getUserSettingsService_configured σ userId config :
  userId <> "" -> posConfigured σ userId config ->
  exists settings,
    getUserSettingsService userId σ = (Returns settings, σ)
    /\ posConfigOf settings = Some config.
Proof.
  intros Hu (settings & Hs & Hc). exists settings. split; [|assumption].
  unfold getUserSettingsService, syncBind, syncLift, syncGetDoc, syncRet.
  rewrite docRef_returns by (assumption || discriminate).
  rewrite Hs. reflexivity.
Qed.

Lemma posSync_configured σ data fin config :
  userId data <> "" -> posConfigured σ (userId data) config ->
  posSync now caspit refuses data fin σ
  = posSyncConfigured now caspit refuses config data fin σ.
Proof.
  intros Hu Hc.
  destruct (getUserSettingsService_configured σ (userId data) config Hu Hc)
    as (settings & Hget & Hcfg).
  unfold posSync. rewrite (syncBind_returns_step _ _ _ _ _ Hget), Hcfg.
  reflexivity.
Qed.

Lemma syncSupplier_truthy config ref supplierData σ v σ' :
  syncSupplier now caspit refuses config ref supplierData σ
  = (Returns v, σ') ->
  truthy v = true.
Proof.
  unfold syncSupplier. destruct (truthy (default VNull _)) eqn:Htr.
  - intros [= <- _]. exact Htr.
  - destruct (success _); [|discriminate].
    destruct (nonEmpty (externalId _)) as [extId|] eqn:Hext; [|discriminate].
    apply nonEmpty_Some in Hext as [_ Hne].
    unfold syncBind, syncUpdateDocUnless.
    destruct (refuses _ _); [discriminate|]. unfold syncUpdateDoc.
    destruct (updateDoc _ _ _); [|discriminate].
    intros [= <- _]. simpl.
    destruct (String.eqb_spec extId ""); [contradiction|reflexivity].
Qed.

(** The supplier's external id for the configured system, as
    [syncSupplier] reads it. *)
Lemma syncSupplier_fails config ref stored extra σ :
  truthy (default VNull
            (match nonEmpty (strField config "systemId") with
             | Some sys => getPath ["posRefs"; sys; "externalId"] stored
             | None => None
             end)) = false ->
  success (upsertPosSupplierAction caspit config
             (<["osekMorshe" := extra]> stored)) = false ->
  exists e,
    syncSupplier now caspit refuses config ref
      (<["osekMorshe" := extra]> stored) σ
    = (Throws e, σ).
Proof.
  intros Hno Hfail. unfold syncSupplier.
  replace (match nonEmpty (strField config "systemId") with
           | Some sys =>
               getPath ["posRefs"; sys; "externalId"]
                 (<["osekMorshe" := extra]> stored)
           | None => None
           end)
    with (match nonEmpty (strField config "systemId") with
          | Some sys => getPath ["posRefs"; sys; "externalId"] stored
          | None => None
          end).
  - rewrite Hno, Hfail. unfold syncThrow. eauto.
  - destruct (nonEmpty (strField config "systemId")); [|reflexivity].
    symmetry. apply getPath_insert_other. discriminate.
Qed.

Lemma posSync_throws_when_supplier_fails σc data fin config stored :
  userId data <> "" ->
  posConfigured σc (userId data) config ->
  σc !! (userId data, SUPPLIERS_SUBCOLLECTION, finalSupplierId fin)
  = Some stored ->
  truthy (default VNull
            (match nonEmpty (strField config "systemId") with
             | Some sys => getPath ["posRefs"; sys; "externalId"] stored
             | None => None
             end)) = false ->
  success (upsertPosSupplierAction caspit config
             (<["osekMorshe" := strOrNullRaw (osekMorshe data)]> stored))
  = false ->
  exists e σ1, posSync now caspit refuses data fin σc = (Throws e, σ1).
Proof.
  intros Hu Hcfg Hstored Hno Hfail.
  rewrite (posSync_configured _ _ _ _ Hu Hcfg).
  unfold posSyncConfigured, syncBind, syncLift, syncGetDoc.
  destruct (getUserSubcollectionDocRef _ SUPPLIERS_SUBCOLLECTION _)
    as [sref|e] eqn:Es; [|eauto].
  apply docRef_shape in Es as (-> & _ & _).
  destruct (getUserSubcollectionDocRef _ DOCUMENTS_SUBCOLLECTION _)
    as [iref|e] eqn:Ei; [|eauto].
  rewrite Hstored. unfold syncEntities.
  destruct (syncSupplier_fails config
              (userId data, SUPPLIERS_SUBCOLLECTION, finalSupplierId fin)
              stored (strOrNullRaw (osekMorshe data)) σc Hno Hfail)
    as [e He].
  rewrite (syncBind_throws_step _ _ _ _ _ He). eauto.
Qed.

Lemma syncDocument_fails config docType ref record σ :
  docType <> deliveryNote ->
  success (createPosExpenseAction caspit config record) = false ->
  exists e,
    syncDocument now caspit refuses config docType ref record σ
    = (Throws e, σ).
Proof.
  intros Hd Hfail. unfold syncDocument.
  destruct docType; try contradiction; rewrite Hfail; unfold syncThrow; eauto.
Qed.

Lemma posSync_throws_when_expense_fails σc data fin config :
  userId data <> "" ->
  posConfigured σc (userId data) config ->
  is_Some (σc !! (userId data, SUPPLIERS_SUBCOLLECTION, finalSupplierId fin)) ->
  docType data <> deliveryNote ->
  success (createPosExpenseAction caspit config (finalInvoiceRecord fin))
  = false ->
  exists e σ1, posSync now caspit refuses data fin σc = (Throws e, σ1).
Proof.
  intros Hu Hcfg [stored Hstored] Hd Hfail.
  rewrite (posSync_configured _ _ _ _ Hu Hcfg).
  unfold posSyncConfigured, syncBind, syncLift, syncGetDoc.
  destruct (getUserSubcollectionDocRef _ SUPPLIERS_SUBCOLLECTION _)
    as [sref|e] eqn:Es; [|eauto].
  apply docRef_shape in Es as (-> & _ & _).
  destruct (getUserSubcollectionDocRef _ DOCUMENTS_SUBCOLLECTION _)
    as [iref|e] eqn:Ei; [|eauto].
  rewrite Hstored. unfold syncEntities, syncBind.
  destruct (syncSupplier _ _ _ _ _ _ σc) as [[v|e] σ2] eqn:Esup; [|eauto].
  rewrite (syncSupplier_truthy _ _ _ _ _ _ Esup).
  destruct (syncProducts _ _ _ _ _ _ σ2) as [[[]|e] σ3]; [|eauto].
  destruct (syncDocument_fails config (docType data) iref
              (finalInvoiceRecord fin) σ3 Hd Hfail) as [e ->].
  eauto.
Qed.

(** ** When every adapter call throws *)

Lemma actions_fail config x :
  adapterAlwaysThrows caspit ->
  success (upsertPosSupplierAction caspit config x) = false
  /\ success (upsertPosProductAction caspit config x) = false
  /\ success (createPosExpenseAction caspit config x) = false.
Proof.
  intros (Hp & Hs & He).
  unfold upsertPosSupplierAction, upsertPosProductAction,
    createPosExpenseAction, actionAdapter, getPosAdapter.
  destruct (nonEmpty (strField config "systemId")) as [sys|];
    [|repeat split; reflexivity].
  destruct (String.eqb sys "caspit").
  - repeat split.
    + destruct (upsertSupplier caspit) as [f|] eqn:E; [|reflexivity].
      destruct (Hs f eq_refl x) as [e ->]. reflexivity.
    + destruct (upsertProduct caspit) as [f|] eqn:E; [|reflexivity].
      destruct (Hp f eq_refl x) as [e ->]. reflexivity.
    + destruct (createTaxInvoice caspit) as [f|] eqn:E; [|reflexivity].
      destruct (He f eq_refl x) as [e ->]. reflexivity.
  - destruct (String.eqb sys "hashavshevet"); repeat split; reflexivity.
Qed.

Lemma syncSupplier_unchanged config ref supplierData :
  adapterAlwaysThrows caspit ->
  syncInv eq (syncSupplier now caspit refuses config ref supplierData).
Proof.
  intros Hdown. unfold syncSupplier.
  destruct (truthy _); [apply syncInv_ret; typeclasses eauto|].
  destruct (actions_fail config supplierData Hdown) as (-> & _).
  apply syncInv_throw; typeclasses eauto.
Qed.

Lemma syncProducts_unchanged config userId products :
  adapterAlwaysThrows caspit ->
  syncInv eq (syncProducts now caspit refuses config userId products).
Proof.
  intros Hdown. induction products as [|p ps IH]; simpl.
  - apply syncInv_ret; typeclasses eauto.
  - apply syncInv_bind; [typeclasses eauto| |intros ?; exact IH].
    unfold syncProduct.
    destruct (actions_fail config (<["userId" := VStr userId]> p) Hdown)
      as (_ & -> & _).
    apply syncInv_ret; typeclasses eauto.
Qed.

Lemma syncDocument_at config docType ref record :
  syncInv (sameExceptAt ref)
    (syncDocument now caspit refuses config docType ref record).
Proof.
  unfold syncDocument.
  destruct docType; try apply syncInv_updateDoc_at;
    (destruct (success _); [|apply syncInv_throw; typeclasses eauto]);
    (destruct (nonEmpty _); [|apply syncInv_throw; typeclasses eauto]);
    apply syncInv_updateDoc_at.
Qed.

Lemma eq_sameExceptAt (ref : DocRef) (σ σ' : Store) :
  σ = σ' -> sameExceptAt ref σ σ'.
Proof. intros <- ? _. reflexivity. Qed.

Lemma posSync_at data fin :
  adapterAlwaysThrows caspit ->
  syncInv
    (sameExceptAt (userId data, DOCUMENTS_SUBCOLLECTION, invoiceIdOf fin))
    (posSync now caspit refuses data fin).
Proof.
  intros Hdown. unfold posSync.
  apply syncInv_bind; [typeclasses eauto| |intros settings].
  { apply getUserSettingsService_inv; typeclasses eauto. }
  destruct (posConfigOf settings) as [config|];
    [|apply syncInv_ret; typeclasses eauto].
  unfold posSyncConfigured.
  apply syncInv_bind_lift; [typeclasses eauto|]. intros sref _.
  apply syncInv_bind_lift; [typeclasses eauto|]. intros iref Hi.
  apply docRef_shape in Hi as (-> & _).
  apply syncInv_bind; [typeclasses eauto| |intros supplierDoc].
  { apply syncInv_getDoc; typeclasses eauto. }
  destruct supplierDoc as [stored|]; [|apply syncInv_ret; typeclasses eauto].
  unfold syncEntities.
  apply syncInv_bind; [typeclasses eauto| |intros v].
  { eapply syncInv_weaken; [apply eq_sameExceptAt|].
    apply syncSupplier_unchanged, Hdown. }
  destruct (truthy v); [|apply syncInv_ret; typeclasses eauto].
  apply syncInv_bind; [typeclasses eauto| |intros ?].
  - eapply syncInv_weaken; [apply eq_sameExceptAt|].
    apply syncProducts_unchanged, Hdown.
  - apply syncDocument_at.
Qed.

Lemma recordSyncError_at data fin e :
  syncInv
    (sameExceptAt (userId data, DOCUMENTS_SUBCOLLECTION, invoiceIdOf fin))
    (recordSyncError refuses data fin e).
Proof.
  unfold recordSyncError.
  destruct (negb _); [|apply syncInv_ret; typeclasses eauto].
  apply syncInv_bind_lift; [typeclasses eauto|]. intros ref Hr.
  apply docRef_shape in Hr as (-> & _). apply syncInv_updateDoc_at.
Qed.

(** C2, as the code has it. Once the transaction of a call has committed,
    however the call ends: every committed document is still in the store
    with all its fields but the POS bookkeeping ([posRefs], [syncStatus],
    [isSyncedToPos]) as committed, and the invoice still has
    [status = "completed"]. A call that returns gives the record and the
    products of the transaction. When the synchronization does not throw,
    the call returns. When it throws, the handler writes
    [syncStatus.status = "error"] and the message on the invoice and the
    call returns, unless the store refuses that write: then the error of
    the write reaches the caller, and the invoice stays as the
    synchronization left it. The synchronization throws when the supplier
    has no external id yet and its upsert fails, and when the document is
    payable and the expense creation fails (a failed product upsert alone
    is passed over). And when every adapter call throws, no document but
    the invoice is written, so no [posRefs] entry appears on the supplier
    or a product. *)
Theorem relay_failures_are_isolated aborted σq σ autoIds data name fin σc n
    out σ' :
  (forall k, autoId k <> "") ->
  userId data <> "" ->
  nonEmpty (supplierName data) = Some name ->
  runTransaction rejects (finalizeAttempt autoId parseDate data name) aborted
    (σq, σ) σ [] autoIds = Returns (fin, σc, n) ->
  finalizeSaveProductsService autoId now parseDate caspit rejects refuses
    aborted σq σ autoIds data = (out, σ') ->
  let invoiceRef :=
    (userId data, DOCUMENTS_SUBCOLLECTION, invoiceIdOf fin) in
  let supplierRef :=
    (userId data, SUPPLIERS_SUBCOLLECTION, finalSupplierId fin) in
  let returned :=
    Returns (finalInvoiceRecord fin, savedOrUpdatedProducts fin) in
  keeps σc σ'
  /\ (exists doc : gmap string value,
        σ' !! invoiceRef = Some doc
        /\ doc !! "status" = Some (VStr "completed"))
  /\ (forall r, out = Returns r -> out = returned)
  /\ (forall σ1,
        posSync now caspit refuses data fin σc = (Returns tt, σ1) ->
        out = returned /\ σ' = σ1)
  /\ (forall e σ1,
        posSync now caspit refuses data fin σc = (Throws e, σ1) ->
        match refuses invoiceRef (syncErrorFields e) with
        | None =>
            out = returned
            /\ exists doc : gmap string value,
                 σ' !! invoiceRef = Some doc
                 /\ getPath ["syncStatus"; "status"] doc
                    = Some (VStr "error")
                 /\ getPath ["syncStatus"; "error"] doc
                    = Some (VStr ("POS Sync Failed: " ++ e))
        | Some e' => out = Throws e' /\ σ' = σ1
        end)
  /\ (forall config stored,
        posConfigured σc (userId data) config ->
        σc !! supplierRef = Some stored ->
        truthy (default VNull
                  (match nonEmpty (strField config "systemId") with
                   | Some sys =>
                       getPath ["posRefs"; sys; "externalId"] stored
                   | None => None
                   end)) = false ->
        success (upsertPosSupplierAction caspit config
                   (<["osekMorshe" := strOrNullRaw (osekMorshe data)]>
                      stored)) = false ->
        exists e σ1, posSync now caspit refuses data fin σc = (Throws e, σ1))
  /\ (forall config,
        posConfigured σc (userId data) config ->
        docType data <> deliveryNote ->
        success (createPosExpenseAction caspit config
                   (finalInvoiceRecord fin)) = false ->
        exists e σ1, posSync now caspit refuses data fin σc = (Throws e, σ1))
  /\ (adapterAlwaysThrows caspit -> sameExceptAt invoiceRef σc σ').
Proof.
  intros Hauto Hu Hname Hrun Hcall invoiceRef supplierRef returned.
  destruct (runTransaction_returns _ _ _ _ _ _ _ _ _ Hrun)
    as (pushed & ids & tx & _ & Htx & Hc).
  destruct (committed_invoice _ _ _ _ _ _ _ _ _ Htx Hc) as [old Hinv].
  pose proof (committed_supplier _ _ _ _ _ _ _ _ _ Htx Hc) as Hsup.
  destruct (committed_record _ _ _ _ _ _ _ _ Htx) as [Hstatus Hid].
  specialize (Hid Hauto).
  revert Hcall. unfold finalizeSaveProductsService.
  destruct (String.eqb_spec (userId data) ""); [contradiction|].
  rewrite Hname, Hrun.
  destruct (syncCatch _ _ σc) as [res σ2] eqn:Hrelay. intros Hcall.
  assert (Hσ : σ2 = σ') by (destruct res; congruence). subst σ2.
  assert (Hout : out = match res with
                       | Returns _ => returned
                       | Throws e => Throws e
                       end) by (destruct res; inversion Hcall; reflexivity).
  clear Hcall.
  assert (Hkeeps : keeps σc σ') by (eapply relay_keeps; eauto).
  split; [exact Hkeeps|]. split.
  { destruct (Hkeeps invoiceRef _ Hinv) as (doc & Hdoc & Hsame).
    exists doc. split; [exact Hdoc|]. rewrite Hsame.
    - apply lookup_union_Some_l. exact Hstatus.
    - unfold posBookkeeping. intros H. apply list_elem_of_In in H.
      simpl in H. intuition discriminate. }
  split.
  { intros r Hr. rewrite Hout in *. destruct res; [reflexivity|discriminate]. }
  split.
  { intros σ1 Hsync. unfold syncCatch in Hrelay. rewrite Hsync in Hrelay.
    injection Hrelay as <- <-. auto. }
  split.
  { intros e σ1 Hthrow. unfold syncCatch in Hrelay. rewrite Hthrow in Hrelay.
    pose proof (recordSyncError_outcome data fin e σ1 Hu Hid) as Hrec.
    fold invoiceRef in Hrec.
    destruct (refuses invoiceRef (syncErrorFields e)) as [e'|].
    - rewrite Hrec in Hrelay.
      + injection Hrelay as <- <-. auto.
      + eapply keeps_is_Some; [eapply posSync_keeps; exact Hthrow|].
        exact (mk_is_Some _ _ Hinv).
    - destruct Hrec as (σ3 & doc & Hrec & Hdoc & Hst & Herr).
      + eapply keeps_is_Some; [eapply posSync_keeps; exact Hthrow|].
        exact (mk_is_Some _ _ Hinv).
      + rewrite Hrec in Hrelay. injection Hrelay as <- <-.
        split; [exact Hout|]. eauto. }
  split.
  { intros config stored Hcfg Hstored Hno Hfail.
    exact (posSync_throws_when_supplier_fails σc data fin config stored
             Hu Hcfg Hstored Hno Hfail). }
  split.
  { intros config Hcfg Hd Hfail.
    exact (posSync_throws_when_expense_fails σc data fin config
             Hu Hcfg Hsup Hd Hfail). }
  intros Hdown.
  assert (Hat : syncInv (sameExceptAt invoiceRef)
            (syncCatch (posSync now caspit refuses data fin)
               (recordSyncError refuses data fin))).
  { apply syncInv_catch; [typeclasses eauto| |intros e].
    - apply posSync_at, Hdown.
    - apply recordSyncError_at. }
  eapply Hat. exact Hrelay.
Qed.

End Finalizer.

(** The first attempt sees Acme and is aborted; at the second, Acme is
    gone from the store. *)
Lemma supplier_deleted_aborts_witness :
  finalizeSaveProductsService Scenarios.autoId0 Scenarios.now0
    Scenarios.parseDate0 Scenarios.caspitDown Scenarios.acceptAll
    Scenarios.acceptUpdates [(Scenarios.storeAcme, Scenarios.storeAcme)]
    Scenarios.storeAcme ∅ 0
    (Scenarios.receiptFromAcme [Scenarios.milk] receipt)
  = (Throws
       "Supplier was deleted between the initial query and the transaction start.",
     ∅).
Proof.
  eapply (supplier_deleted_aborts Scenarios.autoId0 Scenarios.now0
            Scenarios.parseDate0 Scenarios.caspitDown Scenarios.acceptAll
            Scenarios.acceptUpdates
            [(Scenarios.storeAcme, Scenarios.storeAcme)]
            Scenarios.storeAcme ∅ 0
            (Scenarios.receiptFromAcme [Scenarios.milk] receipt)
            "Acme" _ _ "s1" Scenarios.acme).
  - discriminate.
  - reflexivity.
  - reflexivity.
  - reflexivity.
  - reflexivity.
Defined.

(** A line item that updates a missing inventory record makes the commit
    fail after the supplier write was staged: Acme's counters stay. *)
Lemma finalize_all_or_nothing_witness :
  let run :=
    finalizeSaveProductsService Scenarios.autoId0 Scenarios.now0
      Scenarios.parseDate0 Scenarios.caspitDown Scenarios.acceptAll
      Scenarios.acceptUpdates [] Scenarios.storeAcme Scenarios.storeAcme 0
      (Scenarios.receiptFromAcme [Scenarios.ghostLine] receipt) in
  run.1 = Throws "Transaction failed: the commit was rejected"
  /\ run.2 = Scenarios.storeAcme.
Proof.
  intros run.
  refine (proj1 (finalize_all_or_nothing Scenarios.autoId0 Scenarios.now0
           Scenarios.parseDate0 Scenarios.caspitDown Scenarios.acceptAll
           Scenarios.acceptUpdates [] Scenarios.storeAcme Scenarios.storeAcme
           0 (Scenarios.receiptFromAcme [Scenarios.ghostLine] receipt)
           run.1 run.2 _) "Acme" _ _ _ _).
  - apply surjective_pairing.
  - discriminate.
  - reflexivity.
  - reflexivity.
Defined.

(** Salt is in stock, inactive; the call updates it and creates the two
    other products. *)
Lemma line_items_update_or_create_witness :
  exists record saved σ',
    finalizeSaveProductsService Scenarios.autoId0 Scenarios.now0
      Scenarios.parseDate0 Scenarios.caspitDown Scenarios.acceptAll
      Scenarios.acceptUpdates [] Scenarios.storeAcmeSalt
      Scenarios.storeAcmeSalt 0
      (Scenarios.receiptFromAcme
         [Scenarios.knownLine; Scenarios.tempLine; Scenarios.milk] receipt)
    = (Returns (record, saved), σ')
    /\ exists ws n n',
         lineItemWrites Scenarios.autoId0 "u1" n
           [Scenarios.knownLine; Scenarios.tempLine; Scenarios.milk] ws n'
         /\ Forall (fun w => activeAt σ' (writeRef w)) ws.
Proof.
  destruct (finalizeSaveProductsService Scenarios.autoId0 Scenarios.now0
              Scenarios.parseDate0 Scenarios.caspitDown Scenarios.acceptAll
              Scenarios.acceptUpdates [] Scenarios.storeAcmeSalt
              Scenarios.storeAcmeSalt 0
              (Scenarios.receiptFromAcme
                 [Scenarios.knownLine; Scenarios.tempLine; Scenarios.milk]
                 receipt))
    as [[[record saved]|e] σ'] eqn:Hrun.
  - exists record, saved, σ'. split; [reflexivity|].
    destruct (line_items_update_or_create Scenarios.autoId0 Scenarios.now0
                Scenarios.parseDate0 Scenarios.caspitDown Scenarios.acceptAll
                Scenarios.acceptUpdates [] Scenarios.storeAcmeSalt
                Scenarios.storeAcmeSalt 0
                (Scenarios.receiptFromAcme
                   [Scenarios.knownLine; Scenarios.tempLine; Scenarios.milk]
                   receipt) record saved σ' Hrun)
      as (name & pushed & ids & fin & tx & wsup & ws & iid & n & n' & _ & _
          & _ & _ & _ & _ & _ & Hrel & Hact).
    exists ws, n, n'. split; [exact Hrel|exact Hact].
  - exfalso.
    assert (H : match (finalizeSaveProductsService Scenarios.autoId0
                         Scenarios.now0 Scenarios.parseDate0
                         Scenarios.caspitDown Scenarios.acceptAll
                         Scenarios.acceptUpdates [] Scenarios.storeAcmeSalt
                         Scenarios.storeAcmeSalt 0
                         (Scenarios.receiptFromAcme
                            [Scenarios.knownLine; Scenarios.tempLine;
                             Scenarios.milk] receipt)).1
                with
                | Returns _ => true
                | Throws _ => false
                end = true) by (vm_compute; reflexivity).
    rewrite Hrun in H. discriminate.
Defined.

(** The inventory that call leaves: [p-9] updated and active again, and
    two new records under the automatic ids the call took. *)
Example line_items_example :
  let run :=
    finalizeSaveProductsService Scenarios.autoId0 Scenarios.now0
      Scenarios.parseDate0 Scenarios.caspitDown Scenarios.acceptAll
      Scenarios.acceptUpdates [] Scenarios.storeAcmeSalt
      Scenarios.storeAcmeSalt 0
      (Scenarios.receiptFromAcme
         [Scenarios.knownLine; Scenarios.tempLine; Scenarios.milk] receipt) in
  Scenarios.salt !! "isActive" = Some (VBool false)
  /\ (fun i => (λ d : DocData, (d !! "name", d !! "isActive"))
                 <$> run.2 !! ("u1", "inventoryProducts", i))
       <$> ["p-9"; "auto"; "auto'"; "prod-temp-17"]
     = [Some (Some (VStr "Salt"), Some (VBool true));
        Some (Some (VStr "Tea"), Some (VBool true));
        Some (Some (VStr "Milk"), Some (VBool true));
        None].
Proof. split; reflexivity. Qed.

(** C6, at the input of the scenario. A receipt from a resolved supplier:
    the flow takes the selected invoice "inv-7" and reaches
    [ready_to_save]; the finalizer returns and records the receipt as
    paid, but the document it writes has [linkedInvoiceId = null], not
    "inv-7": the finalizer has no input for the link. *)
Theorem receipt_link_is_not_written :
  let flow :=
    DialogFlow.handleLinkInvoice "inv-7"
      (DialogFlow.mkFlow DialogFlow.prompt_link_invoice true true false
         (Some "s1") None []) in
  let run :=
    finalizeSaveProductsService Scenarios.autoId0 Scenarios.now0
      Scenarios.parseDate0 Scenarios.caspitDown Scenarios.acceptAll
      Scenarios.acceptUpdates [] Scenarios.storeAcme Scenarios.storeAcme 0
      (Scenarios.receiptFromAcme [Scenarios.milk] receipt) in
  DialogFlow.finalizedLinkedInvoiceId flow = Some "inv-7"
  /\ DialogFlow.currentDialogStep flow = DialogFlow.ready_to_save
  /\ match run.1 with
     | Returns (record, _) =>
         record !! "linkedInvoiceId" = Some VNull
         /\ record !! "paymentStatus" = Some (VStr "paid")
     | Throws _ => False
     end
  /\ match run.2 !! ("u1", "documents", "auto'") with
     | Some doc =>
         doc !! "linkedInvoiceId" = Some VNull
         /\ doc !! "paymentStatus" = Some (VStr "paid")
         /\ doc !! "status" = Some (VStr "completed")
     | None => False
     end.
Proof. vm_compute. repeat split; reflexivity. Qed.

(** ** Supplier creation *)

Lemma queryFirst_sound (σ : gmap (string * string * string) (gmap string value))
    userId collection P i d :
  queryFirst σ userId collection P = Some (i, d) ->
  σ !! (userId, collection, i) = Some d /\ P d = true.
Proof.
  unfold queryFirst. intros H. apply head_Some_elem_of in H.
  apply list_elem_of_omap in H as ([[[u c] j] d'] & Hin & Hsel).
  apply elem_of_map_to_list in Hin.
  destruct (String.eqb_spec u userId) as [->|]; [|discriminate].
  destruct (String.eqb_spec c collection) as [->|]; [|discriminate].
  simpl in Hsel. destruct (P d') eqn:HP; [|discriminate].
  injection Hsel as <- <-. auto.
Qed.

Lemma queryFirst_complete
    (σ : gmap (string * string * string) (gmap string value))
    userId collection P i d :
  σ !! (userId, collection, i) = Some d -> P d = true ->
  is_Some (queryFirst σ userId collection P).
Proof.
  intros Hd HP. unfold queryFirst.
  apply elem_of_map_to_list in Hd.
  assert (Hin : (i, d) ∈ omap
    (fun rd : (string * string * string) * gmap string value =>
       let '((u, c, j), d0) := rd in
       if String.eqb u userId && String.eqb c collection && P d0
       then Some (j, d0) else None) (map_to_list σ)).
  { apply list_elem_of_omap. exists ((userId, collection, i), d).
    split; [assumption|]. rewrite !String.eqb_refl, HP. reflexivity. }
  destruct (omap _ _) as [|x l]; [apply elem_of_nil in Hin as []|].
  simpl. eauto.
Qed.

(** [createSupplierService] with the name of an existing supplier: the
    existing record is returned, and the store is not written. *)
Lemma createSupplierService_existing autoId σ autoIds supplierData userId name
    i existing :
  userId <> "" ->
  nonEmpty (strField supplierData "name") = Some name ->
  σ !! (userId, "suppliers", i) = Some existing ->
  supplierNamed name existing = true ->
  exists i' found,
    createSupplierService autoId σ autoIds supplierData userId
    = (Returns (found ∪ {["id" := VStr i']}), σ)
    /\ σ !! (userId, "suppliers", i') = Some found
    /\ supplierNamed name found = true.
Proof.
  intros Hu Hname Hd Hnamed. unfold createSupplierService. rewrite Hname.
  unfold getUserSubcollectionRef.
  destruct (String.eqb_spec userId ""); [contradiction|].
  destruct (queryFirst_complete σ userId "suppliers" (supplierNamed name) i
              existing Hd Hnamed) as [[i' found] Hq].
  rewrite Hq. apply queryFirst_sound in Hq as [Hf Hn]. eauto.
Qed.

(** C7, at an input where it fails. The user has the supplier Acme, id
    [s1]. [createSupplierService] with the name Acme returns that record
    and leaves the store alone. [createSupplierAndSyncWithPosService] with
    the same name never looks the name up: it returns a record under a new
    id, [auto], which is not the existing record. *)
Theorem supplier_sync_path_ignores_existing_name :
  let supplierData : gmap string value :=
    list_to_map [("name", VStr "Acme")] in
  createSupplierService Scenarios.autoId0 Scenarios.storeAcme 0 supplierData
    "u1" = (Returns Scenarios.acme, Scenarios.storeAcme)
  /\ match (createSupplierAndSyncWithPosService Scenarios.autoId0
              Scenarios.now0 Scenarios.caspitDown Scenarios.storeAcme 0
              supplierData "u1").1 with
     | Returns created =>
         created !! "id" = Some (VStr "auto")
         /\ created !! "name" = Some (VStr "Acme")
         /\ created !! "invoiceCount" = None
     | Throws _ => False
     end.
Proof. split; [reflexivity|]. vm_compute. repeat split. Qed.

(** With Caspit configured and answering, the same call throws: the
    supplier it would update was never written. *)
Example supplier_sync_path_throws :
  createSupplierAndSyncWithPosService Scenarios.autoId0 Scenarios.now0
    Scenarios.caspitRejectingProducts Scenarios.storeAcmeCaspit 0
    (list_to_map [("name", VStr "Acme")]) "u1"
  = (Throws "No document to update", Scenarios.storeAcmeCaspit).
Proof. reflexivity. Qed.

(** C2 as stated fails. Caspit is configured; it takes the supplier and
    the expense, and its product upsert throws. The call commits and
    returns, the throwing product call is caught and passed over, and the
    invoice ends with [syncStatus.status = "success"], not ["error"]. *)
Lemma relay_status_counterexample :
  let run :=
    finalizeSaveProductsService Scenarios.autoId0 Scenarios.now0
      Scenarios.parseDate0 Scenarios.caspitRejectingProducts
      Scenarios.acceptAll Scenarios.acceptUpdates []
      Scenarios.storeAcmeCaspit Scenarios.storeAcmeCaspit 0
      (Scenarios.receiptFromAcme [Scenarios.milk] invoice) in
  alwaysThrows (upsertProduct Scenarios.caspitRejectingProducts)
  /\ match run.1 with
     | Returns (_, saved) =>
         (upsertPosProductAction Scenarios.caspitRejectingProducts
            (list_to_map [("systemId", VStr "caspit")]))
           <$> ((fun p : gmap string value => <["userId" := VStr "u1"]> p)
                  <$> saved)
         = [failed "Caspit API error 500"]
     | Throws _ => False
     end
  /\ match run.2 !! ("u1", "documents", "auto'") with
     | Some doc =>
         doc !! "status" = Some (VStr "completed")
         /\ getPath ["syncStatus"; "status"] doc = Some (VStr "success")
         /\ getPath ["syncStatus"; "status"] doc <> Some (VStr "error")
     | None => False
     end.
Proof.
  split; [|split].
  - intros f [= <-] x. eauto.
  - vm_compute. reflexivity.
  - vm_compute. repeat split. discriminate.
Qed.

(** Caspit is down and the store takes the write of the handler: the
    call returns, with the error on the invoice. *)
Lemma relay_failures_are_isolated_witness :
  exists fin σc n out σ',
    runTransaction Scenarios.acceptAll
      (finalizeAttempt Scenarios.autoId0 Scenarios.parseDate0
         (Scenarios.receiptFromAcme [Scenarios.milk] invoice) "Acme") []
      (Scenarios.storeAcmeCaspit, Scenarios.storeAcmeCaspit)
      Scenarios.storeAcmeCaspit [] 0
    = Returns (fin, σc, n)
    /\ finalizeSaveProductsService Scenarios.autoId0 Scenarios.now0
         Scenarios.parseDate0 Scenarios.caspitDown Scenarios.acceptAll
         Scenarios.acceptUpdates [] Scenarios.storeAcmeCaspit
         Scenarios.storeAcmeCaspit 0
         (Scenarios.receiptFromAcme [Scenarios.milk] invoice)
       = (out, σ')
    /\ keeps σc σ'.
Proof.
  eexists _, _, _, _, _. split; [reflexivity|]. split; [reflexivity|].
  refine (proj1 (relay_failures_are_isolated Scenarios.autoId0 Scenarios.now0
                   Scenarios.parseDate0 Scenarios.caspitDown
                   Scenarios.acceptAll Scenarios.acceptUpdates []
                   Scenarios.storeAcmeCaspit Scenarios.storeAcmeCaspit 0
                   (Scenarios.receiptFromAcme [Scenarios.milk] invoice)
                   "Acme" _ _ _ _ _ _ _ _ _ _)).
  - intros k. discriminate.
  - discriminate.
  - reflexivity.
  - reflexivity.
  - reflexivity.
Defined.

(** With Caspit down, the same call ends with the error on the invoice
    and the supplier as committed. *)
Example relay_down_example :
  let run :=
    finalizeSaveProductsService Scenarios.autoId0 Scenarios.now0
      Scenarios.parseDate0 Scenarios.caspitDown Scenarios.acceptAll
      Scenarios.acceptUpdates [] Scenarios.storeAcmeCaspit
      Scenarios.storeAcmeCaspit 0
      (Scenarios.receiptFromAcme [Scenarios.milk] invoice) in
  match run.2 !! ("u1", "documents", "auto'"),
        run.2 !! ("u1", "suppliers", "s1") with
  | Some doc, Some supplier =>
      doc !! "status" = Some (VStr "completed")
      /\ getPath ["syncStatus"; "status"] doc = Some (VStr "error")
      /\ getPath ["syncStatus"; "error"] doc
         = Some (VStr
             "POS Sync Failed: POS supplier sync failed: Caspit unreachable")
      /\ supplier !! "posRefs" = Some (VObj ∅)
      /\ supplier !! "invoiceCount" = Some (VNum 3)
  | _, _ => False
  end.
Proof. vm_compute. repeat split. Qed.

(** With Caspit down and a store that refuses the writes after the
    commit, the same call throws the error of the handler's write: the
    invoice is committed, completed, and carries no sync status. *)
Example relay_error_reaches_the_caller :
  let run :=
    finalizeSaveProductsService Scenarios.autoId0 Scenarios.now0
      Scenarios.parseDate0 Scenarios.caspitDown Scenarios.acceptAll
      Scenarios.refuseUpdates [] Scenarios.storeAcmeCaspit
      Scenarios.storeAcmeCaspit 0
      (Scenarios.receiptFromAcme [Scenarios.milk] invoice) in
  run.1 = Throws "Missing or insufficient permissions."
  /\ match run.2 !! ("u1", "documents", "auto'") with
     | Some doc =>
         doc !! "status" = Some (VStr "completed")
         /\ doc !! "syncStatus" = None
     | None => False
     end.
Proof. vm_compute. repeat split. Qed.

End BackendFacts.

(** * More facts about the price reconciliation *)

Module LookupFacts.

Import PriceCheck Lookup JsFacts PriceCheckFacts.

(** ** The map only holds inventory records, under their own keys *)

Lemma addProductToMap_sound inventory m product :
  product ∈ inventory -> mapSound inventory m ->
  mapSound inventory (addProductToMap m product).
Proof.
  intros Hin Hm. unfold addProductToMap.
  assert (H1 : mapSound inventory
            match nonEmpty (catalogNumber product) with
            | Some cn => if has m cn then m else <[cn := product]> m
            | None => m
            end).
  { destruct (nonEmpty (catalogNumber product)) as [cn|] eqn:Ecn; [|exact Hm].
    destruct (has m cn); [exact Hm|]. intros k e.
    destruct (decide (cn = k)) as [<-|Hne].
    - rewrite lookup_insert_eq. intros [= <-]. split; [assumption|].
      left. assumption.
    - rewrite lookup_insert_ne by assumption. apply Hm. }
  revert H1. generalize (match nonEmpty (catalogNumber product) with
                         | Some cn => if has m cn then m else <[cn := product]> m
                         | None => m
                         end). intros m1 H1.
  destruct (nonEmpty (barcode product)) as [b|] eqn:Eb; [|exact H1].
  destruct (has m1 b); [exact H1|]. intros k e.
  destruct (decide (b = k)) as [<-|Hne].
  - rewrite lookup_insert_eq. intros [= <-]. split; [assumption|].
    right. assumption.
  - rewrite lookup_insert_ne by assumption. apply H1.
Qed.

Lemma fold_addProductToMap_sound inventory docs m :
  (forall d, d ∈ docs -> d ∈ inventory) -> mapSound inventory m ->
  mapSound inventory (fold_left addProductToMap docs m).
Proof.
  revert m. induction docs as [|d docs IH]; intros m Hsub Hm; simpl; [exact Hm|].
  apply IH.
  - intros d' Hd'. apply Hsub. right. exact Hd'.
  - apply addProductToMap_sound; [apply Hsub; left|exact Hm].
Qed.

Lemma getDocs_inventory inventory q d : d ∈ getDocs inventory q -> d ∈ inventory.
Proof. unfold getDocs. intros H. apply list_elem_of_filter in H as [_ H]. exact H. Qed.

Lemma fetchInChunks_from_sound fuel inventory field values i st :
  mapSound inventory (existingProductsMap st) ->
  mapSound inventory
    (existingProductsMap (fetchInChunks_from fuel inventory field values i st)).
Proof.
  revert i st. induction fuel as [|fuel IH]; intros i st Hm; simpl; [exact Hm|].
  case_bool_decide; [|exact Hm]. apply IH. simpl.
  apply fold_addProductToMap_sound; [|exact Hm].
  intros d. apply getDocs_inventory.
Qed.

Lemma mapSound_empty inventory : mapSound inventory ∅.
Proof. intros k e H. rewrite lookup_empty in H. discriminate. Qed.

(** ** The map has an entry for every key that was asked for and found *)

Lemma addProductToMap_mono m product k :
  is_Some (m !! k) -> is_Some (addProductToMap m product !! k).
Proof.
  intros Hk. unfold addProductToMap.
  assert (H1 : is_Some
            (match nonEmpty (catalogNumber product) with
             | Some cn => if has m cn then m else <[cn := product]> m
             | None => m
             end !! k)).
  { destruct (nonEmpty (catalogNumber product)) as [cn|]; [|exact Hk].
    destruct (has m cn); [exact Hk|].
    destruct (decide (cn = k)) as [<-|Hne].
    - rewrite lookup_insert_eq. eauto.
    - rewrite lookup_insert_ne by assumption. exact Hk. }
  revert H1. generalize (match nonEmpty (catalogNumber product) with
                         | Some cn => if has m cn then m else <[cn := product]> m
                         | None => m
                         end). intros m1 H1.
  destruct (nonEmpty (barcode product)) as [b|]; [|exact H1].
  destruct (has m1 b); [exact H1|].
  destruct (decide (b = k)) as [<-|Hne].
  - rewrite lookup_insert_eq. eauto.
  - rewrite lookup_insert_ne by assumption. exact H1.
Qed.

Lemma nonEmpty_of_Some k : k <> "" -> nonEmpty (Some k) = Some k.
Proof.
  intros Hk. unfold nonEmpty, truthyStr.
  destruct (String.eqb_spec k ""); [contradiction|reflexivity].
Qed.

Lemma addProductToMap_files m product f k :
  fieldOf f product = Some k -> k <> "" ->
  is_Some (addProductToMap m product !! k).
Proof.
  intros Hf Hk. unfold addProductToMap. destruct f; simpl in Hf.
  - assert (H1 : is_Some
              (match nonEmpty (catalogNumber product) with
               | Some cn => if has m cn then m else <[cn := product]> m
               | None => m
               end !! k)).
    { rewrite Hf, nonEmpty_of_Some by assumption. unfold has.
      case_bool_decide as Hhas; [exact Hhas|].
      rewrite lookup_insert_eq. eauto. }
    revert H1. generalize (match nonEmpty (catalogNumber product) with
                           | Some cn =>
                               if has m cn then m else <[cn := product]> m
                           | None => m
                           end). intros m1 H1.
    destruct (nonEmpty (barcode product)) as [b|]; [|exact H1].
    destruct (has m1 b); [exact H1|].
    destruct (decide (b = k)) as [<-|Hne].
    + rewrite lookup_insert_eq. eauto.
    + rewrite lookup_insert_ne by assumption. exact H1.
  - rewrite Hf, nonEmpty_of_Some by assumption. unfold has.
    case_bool_decide as Hhas; [exact Hhas|].
    rewrite lookup_insert_eq. eauto.
Qed.

Lemma fold_addProductToMap_mono docs m k :
  is_Some (m !! k) -> is_Some (fold_left addProductToMap docs m !! k).
Proof.
  revert m. induction docs as [|d docs IH]; intros m Hk; simpl; [exact Hk|].
  apply IH, addProductToMap_mono, Hk.
Qed.

Lemma fold_addProductToMap_files docs m f k e :
  e ∈ docs -> fieldOf f e = Some k -> k <> "" ->
  is_Some (fold_left addProductToMap docs m !! k).
Proof.
  revert m. induction docs as [|d docs IH]; intros m He Hf Hk; simpl.
  - apply elem_of_nil in He as [].
  - apply elem_of_cons in He as [<-|He].
    + apply fold_addProductToMap_mono.
      eapply addProductToMap_files; eassumption.
    + apply IH; assumption.
Qed.

Lemma fetchInChunks_from_mono fuel inventory field values i st k :
  is_Some (existingProductsMap st !! k) ->
  is_Some (existingProductsMap
             (fetchInChunks_from fuel inventory field values i st) !! k).
Proof.
  revert i st. induction fuel as [|fuel IH]; intros i st Hk; simpl; [exact Hk|].
  case_bool_decide; [|exact Hk]. apply IH. simpl.
  apply fold_addProductToMap_mono, Hk.
Qed.

Lemma fetchInChunks_from_covers fuel inventory field values i st :
  (length values <= i + 10 * fuel)%nat ->
  mapCovers inventory field (drop i values)
    (existingProductsMap (fetchInChunks_from fuel inventory field values i st)).
Proof.
  revert i st. induction fuel as [|fuel IH]; intros i st Hfuel k e Hk Hne He Hf.
  - rewrite drop_ge in Hk by lia. apply elem_of_nil in Hk as [].
  - simpl. case_bool_decide as Hi.
    + rewrite <- (take_drop 10 (drop i values)), drop_drop in Hk.
      apply elem_of_app in Hk as [Hk|Hk].
      * apply fetchInChunks_from_mono. simpl.
        apply (fold_addProductToMap_files _ _ field k e); [|assumption..].
        unfold getDocs. apply list_elem_of_filter. split; [|assumption].
        unfold matchesIn. simpl. rewrite Hf. apply bool_decide_eq_true.
        rewrite slice_window. exact Hk.
      * apply (IH (i + 10)%nat _ ltac:(lia) k e); assumption.
    + rewrite drop_ge in Hk by lia. apply elem_of_nil in Hk as [].
Qed.

Lemma fetchInChunks_covers inventory field values st :
  mapCovers inventory field values
    (existingProductsMap (fetchInChunks inventory field values st)).
Proof.
  unfold fetchInChunks.
  pose proof (fetchInChunks_from_covers (length values) inventory field values
                0 st) as H.
  rewrite drop_0 in H. apply H. lia.
Qed.

Lemma mapCovers_mono inventory field values (m m' : gmap string Product) :
  (forall k, is_Some (m !! k) -> is_Some (m' !! k)) ->
  mapCovers inventory field values m -> mapCovers inventory field values m'.
Proof. intros Hmono Hc k e Hk Hne He Hf. eapply Hmono, Hc; eassumption. Qed.

Lemma mapCovers_nil inventory field m : mapCovers inventory field [] m.
Proof. intros k e Hk. apply elem_of_nil in Hk as []. Qed.

Lemma fold_pushClassified_new m ps acc :
  (forall p, p ∈ ps -> findExisting m p = None) ->
  fold_left (pushClassified m) ps acc
  = mkResult (productsToSaveDirectly acc ++ ps) (priceDiscrepancies acc).
Proof.
  revert acc. induction ps as [|p ps IH]; intros acc Hnone; simpl.
  - rewrite app_nil_r. destruct acc; reflexivity.
  - rewrite IH by (intros q Hq; apply Hnone; right; exact Hq).
    unfold pushClassified, classify. rewrite Hnone by left. simpl.
    rewrite <- app_assoc. reflexivity.
Qed.

Lemma findExisting_empty p : findExisting ∅ p = None.
Proof.
  unfold findExisting.
  destruct (nonEmpty (catalogNumber p)); simpl; rewrite ?lookup_empty;
    destruct (nonEmpty (barcode p)); simpl; rewrite ?lookup_empty; reflexivity.
Qed.

(** The map the classification loop works with. *)
Lemma price_check_map inventory productsToCheck :
  exists m,
    mapSound inventory m
    /\ mapCovers inventory FCatalogNumber (catalogNumbers productsToCheck) m
    /\ mapCovers inventory FBarcode (barcodes productsToCheck) m
    /\ (checkProductPricesBeforeSaveService inventory productsToCheck).1
       = fold_left (pushClassified m) productsToCheck (mkResult [] []).
Proof.
  unfold checkProductPricesBeforeSaveService.
  set (cns := catalogNumbers productsToCheck).
  set (bcs := barcodes productsToCheck).
  destruct (Nat.eqb_spec (length cns) 0) as [Hc|Hc];
    destruct (Nat.eqb_spec (length bcs) 0) as [Hb|Hb]; simpl.
  - exists ∅. apply nil_length_inv in Hc, Hb. rewrite Hc, Hb.
    split; [apply mapSound_empty|]. split; [apply mapCovers_nil|].
    split; [apply mapCovers_nil|].
    rewrite fold_pushClassified_new by (intros; apply findExisting_empty).
    reflexivity.
  - destruct (Nat.ltb_spec 0 (length cns)) as [?|_]; [lia|].
    destruct (Nat.ltb_spec 0 (length bcs)) as [_|?]; [|lia].
    eexists. split; [|split; [|split; [|reflexivity]]].
    + apply fetchInChunks_from_sound, mapSound_empty.
    + apply nil_length_inv in Hc. rewrite Hc. apply mapCovers_nil.
    + apply fetchInChunks_covers.
  - destruct (Nat.ltb_spec 0 (length cns)) as [_|?]; [|lia].
    destruct (Nat.ltb_spec 0 (length bcs)) as [?|_]; [lia|].
    eexists. split; [|split; [|split; [|reflexivity]]].
    + apply fetchInChunks_from_sound, mapSound_empty.
    + apply fetchInChunks_covers.
    + apply nil_length_inv in Hb. rewrite Hb. apply mapCovers_nil.
  - destruct (Nat.ltb_spec 0 (length cns)) as [_|?]; [|lia].
    destruct (Nat.ltb_spec 0 (length bcs)) as [_|?]; [|lia].
    eexists. split; [|split; [|split; [|reflexivity]]].
    + apply fetchInChunks_from_sound, fetchInChunks_from_sound,
        mapSound_empty.
    + eapply mapCovers_mono; [|apply fetchInChunks_covers].
      intros k. apply fetchInChunks_from_mono.
    + apply fetchInChunks_covers.
Qed.

Lemma findExisting_key m p e :
  findExisting m p = Some e -> exists k, carriesKey k p /\ m !! k = Some e.
Proof.
  unfold findExisting, carriesKey.
  destruct (nonEmpty (catalogNumber p)) as [cn|]; simpl.
  - destruct (m !! cn) as [e'|] eqn:Ecn.
    + intros [= <-]. eauto.
    + destruct (nonEmpty (barcode p)) as [b|]; simpl; [|discriminate].
      intros H. eauto.
  - destruct (nonEmpty (barcode p)) as [b|]; simpl; [|discriminate].
    intros H. eauto.
Qed.

(** X1. Whatever the price check reports is about the inventory: every
    discrepancy is a candidate carrying the id of an inventory record that
    has one of the candidate's keys (its truthy catalog number or barcode)
    as its own catalog number or barcode, with that record's price as
    [existingUnitPrice], the candidate's as [newUnitPrice], and the test
    [Math.abs(existingUnitPrice - newUnitPrice) > 0.001] true of the two
    as doubles; and every product saved directly is a candidate as it came
    in, or a candidate carrying the id of such a record for which that
    test is false. *)
Theorem price_check_reports_inventory_records inventory productsToCheck :
  let out := (checkProductPricesBeforeSaveService inventory productsToCheck).1
  in
  (forall d, d ∈ priceDiscrepancies out ->
     exists p e k,
       p ∈ productsToCheck /\ e ∈ inventory
       /\ carriesKey k p /\ carriesKey k e
       /\ d = mkDiscrepancy (withId p (id e)) (numberOr0 (unitPrice e))
                (numberOr0 (unitPrice p))
       /\ PrimFloat.ltb 0.001
            (PrimFloat.abs
               (PrimFloat.sub (numberOr0 (unitPrice e))
                  (numberOr0 (unitPrice p)))) = true)
  /\ (forall x, x ∈ productsToSaveDirectly out ->
        x ∈ productsToCheck
        \/ exists p e k,
             p ∈ productsToCheck /\ e ∈ inventory
             /\ carriesKey k p /\ carriesKey k e
             /\ x = withId p (id e)
             /\ PrimFloat.ltb 0.001
                  (PrimFloat.abs
                     (PrimFloat.sub (numberOr0 (unitPrice e))
                        (numberOr0 (unitPrice p)))) = false).
Proof.
  destruct (price_check_map inventory productsToCheck)
    as (m & Hsound & _ & _ & Hout).
  simpl. rewrite Hout. split.
  - intros d Hd. apply fold_pushClassified_discrepancy in Hd
      as [Hd|(p & Hp & Hcl)]; [apply elem_of_nil in Hd as []|].
    apply classify_discrepancy in Hcl as (e & He & -> & Hdiff).
    apply findExisting_key in He as (k & Hkp & Hm).
    destruct (Hsound k e Hm) as [Hin Hke].
    exists p, e, k. repeat split; auto.
  - intros x Hx. apply fold_pushClassified_direct in Hx
      as [Hx|(p & Hp & Hcl)]; [apply elem_of_nil in Hx as []|].
    pose proof (classify_by_lookup m p) as Hby.
    destruct (findExisting m p) as [e|] eqn:He.
    + right. apply findExisting_key in He as (k & Hkp & Hm).
      destruct (Hsound k e Hm) as [Hin Hke].
      exists p, e, k. simpl in Hby. destruct Hby as [[Hle Hc]|[_ Hc]].
      * rewrite Hc in Hcl. injection Hcl as <-. repeat split; auto.
      * rewrite Hc in Hcl. discriminate.
    + left. rewrite Hby in Hcl. injection Hcl as <-. exact Hp.
Qed.

(** X2. A candidate whose truthy catalog number is the catalog number of
    an inventory record, or whose truthy barcode is the barcode of one, is
    never saved as a new product: it comes out carrying the id of an
    inventory record, either among the products to save directly or as a
    price discrepancy against that record. *)
Theorem price_check_finds_matching_records inventory productsToCheck p e :
  p ∈ productsToCheck -> e ∈ inventory -> matchesCandidate e p = true ->
  let out := (checkProductPricesBeforeSaveService inventory productsToCheck).1
  in
  exists e',
    e' ∈ inventory
    /\ (withId p (id e') ∈ productsToSaveDirectly out
        \/ mkDiscrepancy (withId p (id e')) (numberOr0 (unitPrice e'))
             (numberOr0 (unitPrice p)) ∈ priceDiscrepancies out).
Proof.
  intros Hp He Hmatch.
  destruct (price_check_map inventory productsToCheck)
    as (m & Hsound & Hcn & Hbc & Hout).
  simpl. rewrite Hout.
  assert (Hfound : is_Some (findExisting m p)).
  { unfold matchesCandidate, sameKey in Hmatch. unfold findExisting.
    apply orb_prop in Hmatch as [Hm|Hm]; simpl in Hm.
    - destruct (nonEmpty (catalogNumber p)) as [k|] eqn:Ek; [|discriminate].
      destruct (catalogNumber e) as [k'|] eqn:Ek'; [|discriminate].
      apply String.eqb_eq in Hm as <-.
      destruct (Hcn k e) as [e1 He1]; auto.
      + unfold catalogNumbers. apply list_elem_of_omap. eauto.
      + apply nonEmpty_Some in Ek as [_ ?]. assumption.
      + simpl. rewrite He1. eauto.
    - destruct (nonEmpty (barcode p)) as [k|] eqn:Ek; [|discriminate].
      destruct (barcode e) as [k'|] eqn:Ek'; [|discriminate].
      apply String.eqb_eq in Hm as <-.
      destruct (Hbc k e) as [e1 He1]; auto.
      + unfold barcodes. apply list_elem_of_omap. eauto.
      + apply nonEmpty_Some in Ek as [_ ?]. assumption.
      + destruct (nonEmpty (catalogNumber p) ≫= _); [eauto|].
        simpl. rewrite He1. eauto. }
  destruct Hfound as [e' He'].
  pose proof (classify_by_lookup m p) as Hby. rewrite He' in Hby.
  apply findExisting_key in He' as (k & _ & Hm).
  destruct (Hsound k e' Hm) as [Hin _].
  exists e'. split; [exact Hin|]. simpl in Hby.
  destruct Hby as [[_ Hc]|[_ Hc]].
  - left. apply fold_pushClassified_direct. right. eauto.
  - right. apply fold_pushClassified_discrepancy. right. eauto.
Qed.

(** X3. With nothing in the inventory, every candidate is saved directly,
    as it came in and in the order of the scan, and nothing is reported. *)
Theorem price_check_empty_inventory productsToCheck :
  (checkProductPricesBeforeSaveService [] productsToCheck).1
  = mkResult productsToCheck [].
Proof.
  destruct (price_check_map [] productsToCheck) as (m & Hsound & _ & _ & ->).
  rewrite fold_pushClassified_new; [reflexivity|].
  intros p _. destruct (findExisting m p) as [e|] eqn:He; [|reflexivity].
  apply findExisting_key in He as (k & _ & Hm).
  destruct (Hsound k e Hm) as [Hin _]. apply elem_of_nil in Hin as [].
Qed.

(** ** The number of reads *)

Lemma fetchInChunks_from_count fuel inventory field values i st :
  (length values <= i + 10 * fuel)%nat ->
  length (reads (fetchInChunks_from fuel inventory field values i st))
  = (length (reads st) + (length values - i + 9) / 10)%nat.
Proof.
  revert i st.
  induction fuel as [|fuel IH]; intros i st Hfuel; cbn [fetchInChunks_from].
  - replace (length values - i + 9)%nat with 9%nat by lia. simpl. lia.
  - case_bool_decide as Hi.
    + rewrite IH by lia. unfold fetchChunk. cbn [reads].
      rewrite length_app. cbn [length].
      destruct (Nat.le_gt_cases 10 (length values - i)) as [Hfull|Hlast].
      * replace (length values - i + 9)%nat
          with (length values - (i + 10) + 9 + 1 * 10)%nat by lia.
        rewrite Nat.div_add by lia. lia.
      * replace (length values - (i + 10) + 9)%nat with 9%nat by lia.
        rewrite <- (Nat.div_unique (length values - i + 9) 10 1
                      (length values - i - 1)) by lia.
        simpl. lia.
    + replace (length values - i + 9)%nat with 9%nat by lia. simpl. lia.
Qed.

(** X4. The price check reads the inventory once for every started chunk
    of 10 catalog numbers and once for every started chunk of 10 barcodes
    of the candidates: ceil(c/10) + ceil(b/10) reads for [c] truthy catalog
    numbers and [b] truthy barcodes, whatever the inventory holds. *)
Theorem price_check_read_count inventory productsToCheck :
  length (checkProductPricesBeforeSaveService inventory productsToCheck).2
  = ((length (catalogNumbers productsToCheck) + 9) / 10
     + (length (barcodes productsToCheck) + 9) / 10)%nat.
Proof.
  unfold checkProductPricesBeforeSaveService.
  set (cns := catalogNumbers productsToCheck).
  set (bcs := barcodes productsToCheck).
  destruct (Nat.eqb_spec (length cns) 0) as [Hc|Hc];
    destruct (Nat.eqb_spec (length bcs) 0) as [Hb|Hb]; simpl.
  - rewrite Hc, Hb. reflexivity.
  - destruct (Nat.ltb_spec 0 (length cns)) as [?|_]; [lia|].
    destruct (Nat.ltb_spec 0 (length bcs)) as [_|?]; [|lia].
    unfold fetchInChunks. rewrite fetchInChunks_from_count by lia.
    rewrite Hc, Nat.sub_0_r. reflexivity.
  - destruct (Nat.ltb_spec 0 (length cns)) as [_|?]; [|lia].
    destruct (Nat.ltb_spec 0 (length bcs)) as [?|_]; [lia|].
    unfold fetchInChunks. rewrite fetchInChunks_from_count by lia.
    rewrite Hb, Nat.sub_0_r. simpl. lia.
  - destruct (Nat.ltb_spec 0 (length cns)) as [_|?]; [|lia].
    destruct (Nat.ltb_spec 0 (length bcs)) as [_|?]; [|lia].
    unfold fetchInChunks. rewrite !fetchInChunks_from_count by lia.
    rewrite !Nat.sub_0_r. simpl. lia.
Qed.

Lemma price_check_finds_matching_records_witness :
  exists e',
    e' ∈ Scenarios.inventory1
    /\ (withId Scenarios.oliveOilLine (id e')
          ∈ productsToSaveDirectly
              (checkProductPricesBeforeSaveService Scenarios.inventory1
                 [Scenarios.vinegarLine; Scenarios.oliveOilLine]).1
        \/ mkDiscrepancy (withId Scenarios.oliveOilLine (id e'))
             (numberOr0 (unitPrice e'))
             (numberOr0 (unitPrice Scenarios.oliveOilLine))
             ∈ priceDiscrepancies
                 (checkProductPricesBeforeSaveService Scenarios.inventory1
                    [Scenarios.vinegarLine; Scenarios.oliveOilLine]).1).
Proof.
  apply (price_check_finds_matching_records Scenarios.inventory1
           [Scenarios.vinegarLine; Scenarios.oliveOilLine]
           Scenarios.oliveOilLine Scenarios.oliveOil).
  - apply elem_of_cons. right. apply elem_of_cons. left. reflexivity.
  - apply elem_of_cons. left. reflexivity.
  - reflexivity.
Defined.

End LookupFacts.
(** * More facts about the finalizer *)

Module FinalizeFacts.

Import Firestore Backend FinalizeSpec FirestoreFacts JsFacts BackendFacts.

(** ** Commits, write by write *)

Instance sameOutside_preorder P : PreOrder (sameOutside P).
Proof.
  split.
  - intros σ ref _. reflexivity.
  - intros σ1 σ2 σ3 H12 H23 ref Hn. rewrite H23, H12; auto.
Qed.

Lemma syncInv_updateDoc_in (P : DocRef -> Prop) refuses ref updates :
  P ref -> syncInv (sameOutside P) (syncUpdateDocUnless refuses ref updates).
Proof.
  intros HP. apply syncInv_updateDoc; [typeclasses eauto|].
  intros σ d _ ref' Hn. apply lookup_insert_ne. intros ->. contradiction.
Qed.

Lemma applyWrites_sameOutside (P : DocRef -> Prop) rejects ws σ σ' :
  Forall (fun w => P (writeRef w)) ws ->
  applyWrites rejects ws σ = Some σ' -> sameOutside P σ σ'.
Proof.
  intros Hall Hc ref Hn. eapply applyWrites_frame; [exact Hc|].
  eapply Forall_impl; [exact Hall|]. simpl. intros w Hw Heq.
  rewrite Heq in Hw. contradiction.
Qed.

Lemma scope_suppliers userId i :
  finalizeScope userId (userId, SUPPLIERS_SUBCOLLECTION, i).
Proof. split; [reflexivity|]. simpl. set_solver. Qed.

Lemma scope_inventory userId i :
  finalizeScope userId (userId, INVENTORY_SUBCOLLECTION, i).
Proof. split; [reflexivity|]. simpl. set_solver. Qed.

Lemma scope_documents userId i :
  finalizeScope userId (userId, DOCUMENTS_SUBCOLLECTION, i).
Proof. split; [reflexivity|]. simpl. set_solver. Qed.

Lemma scope_not_settings userId i :
  ~ finalizeScope userId (userId, USER_SETTINGS_SUBCOLLECTION, i).
Proof.
  intros [_ H]. simpl in H. apply list_elem_of_In in H. simpl in H.
  intuition discriminate.
Qed.

Lemma not_bookkeeping k :
  k <> "posRefs" -> k <> "syncStatus" -> k <> "isSyncedToPos" ->
  k ∉ posBookkeeping.
Proof.
  intros H1 H2 H3 H. unfold posBookkeeping in H.
  apply list_elem_of_In in H. simpl in H. intuition congruence.
Qed.

Section Finalize.

Variable autoId : nat -> string.
Variable now : string.
Variable parseDate : string -> option Z.
Variable caspit : PosAdapter.
Variable rejects : DocRef -> bool.
Variable refuses : DocRef -> list (list string * value) -> option string.

Lemma invoiceRecord_supplierId data name pending invoiceId supplierId saved :
  invoiceRecord parseDate data name pending invoiceId supplierId saved
    !! "supplierId" = Some (VStr supplierId).
Proof. reflexivity. Qed.

Lemma invoiceRecord_products data name pending invoiceId supplierId saved :
  invoiceRecord parseDate data name pending invoiceId supplierId saved
    !! "products" = Some (VArr (VObj <$> saved)).
Proof. reflexivity. Qed.

Lemma invoiceRecord_id_field data name pending invoiceId supplierId saved :
  invoiceRecord parseDate data name pending invoiceId supplierId saved
    !! "id" = Some (VStr invoiceId).
Proof. reflexivity. Qed.

Lemma invoiceRecord_fileType data name pending invoiceId supplierId saved :
  invoiceRecord parseDate data name pending invoiceId supplierId saved
    !! "fileType" = Some (orElse (pending !! "fileType") (VStr "unknown")).
Proof. reflexivity. Qed.

Lemma invoiceRecord_uploadTime data name pending invoiceId supplierId saved :
  invoiceRecord parseDate data name pending invoiceId supplierId saved
    !! "uploadTime"
  = Some (orElse (pending !! "uploadTime") VServerTimestamp).
Proof. reflexivity. Qed.

(** ** The line items, one by one *)

Lemma createLineItem_detail userId product saved tx saved' tx' :
  createLineItem autoId userId (delete "_originalId" product) saved tx
  = Returns (saved', tx') ->
  exists w s productId,
    staged tx' = (staged tx ++ [w])%list
    /\ saved' = (saved ++ [s])%list
    /\ writeRef w = (userId, INVENTORY_SUBCOLLECTION, productId)
    /\ s !! "id" = Some (VStr productId)
    /\ savedFrom userId product s.
Proof.
  unfold createLineItem, txBind, txNewId, txStage, txRet. simpl.
  intros [= <- <-]. eexists _, _, _. simpl.
  split; [reflexivity|]. split; [reflexivity|]. split; [reflexivity|].
  split; [|split; [|split]].
  - rewrite lookup_delete_ne by discriminate.
    rewrite !lookup_insert_ne by discriminate. apply lookup_insert_eq.
  - rewrite lookup_delete_ne by discriminate.
    rewrite !lookup_insert_ne by discriminate. apply lookup_insert_eq.
  - rewrite lookup_delete_ne by discriminate.
    rewrite !lookup_insert_ne by discriminate. apply lookup_delete_eq.
  - intros k Hk.
    assert (k <> "id" /\ k <> "userId" /\ k <> "_originalId"
            /\ k <> "isActive" /\ k <> "lastUpdated") as (?&?&?&?&?).
    { repeat split; intros ->; apply Hk; set_solver. }
    rewrite lookup_delete_ne by auto. rewrite !lookup_insert_ne by auto.
    apply lookup_delete_ne. auto.
Qed.

Lemma updateLineItem_detail userId originalId product saved tx saved' tx' :
  updateLineItem userId originalId (delete "_originalId" product) saved tx
  = Returns (saved', tx') ->
  exists w s productId,
    staged tx' = (staged tx ++ [w])%list
    /\ saved' = (saved ++ [s])%list
    /\ writeRef w = (userId, INVENTORY_SUBCOLLECTION, productId)
    /\ s !! "id" = Some (VStr productId)
    /\ savedFrom userId product s.
Proof.
  unfold updateLineItem, txBind, txLift.
  destruct (getUserSubcollectionDocRef _ _ _) as [ref|] eqn:E; [|discriminate].
  apply docRef_shape in E as (-> & _ & _). simpl.
  intros [= <- <-]. eexists _, _, _. simpl.
  split; [reflexivity|]. split; [reflexivity|]. split; [reflexivity|].
  split; [|split; [|split]].
  - rewrite lookup_insert_ne by discriminate. apply lookup_insert_eq.
  - apply lookup_insert_eq.
  - rewrite !lookup_insert_ne by discriminate. apply lookup_delete_eq.
  - intros k Hk.
    assert (k <> "id" /\ k <> "userId" /\ k <> "_originalId") as (?&?&?).
    { repeat split; intros ->; apply Hk; set_solver. }
    rewrite !lookup_insert_ne by auto. apply lookup_delete_ne. auto.
Qed.

Lemma saveLineItem_detail userId product saved tx saved' tx' :
  saveLineItem autoId userId product saved tx = Returns (saved', tx') ->
  exists w s productId,
    staged tx' = (staged tx ++ [w])%list
    /\ saved' = (saved ++ [s])%list
    /\ writeRef w = (userId, INVENTORY_SUBCOLLECTION, productId)
    /\ s !! "id" = Some (VStr productId)
    /\ savedFrom userId product s.
Proof.
  unfold saveLineItem. destruct (product !! "_originalId") as [v|].
  - destruct (truthy v).
    + destruct v; try discriminate. destruct (negb _).
      * apply updateLineItem_detail.
      * apply createLineItem_detail.
    + apply createLineItem_detail.
  - apply createLineItem_detail.
Qed.

Lemma saveLineItems_detail userId products saved tx saved' tx' :
  saveLineItems autoId userId products saved tx = Returns (saved', tx') ->
  exists items news,
    staged tx' = (staged tx ++ items)%list
    /\ saved' = (saved ++ news)%list
    /\ Forall (fun w => exists i,
                 writeRef w = (userId, INVENTORY_SUBCOLLECTION, i)) items
    /\ Forall2 (savedFrom userId) products news
    /\ Forall (fun s => exists productId w,
                 s !! "id" = Some (VStr productId) /\ w ∈ items
                 /\ writeRef w = (userId, INVENTORY_SUBCOLLECTION, productId))
         news.
Proof.
  revert saved tx. induction products as [|p ps IH]; intros saved tx; simpl.
  - intros [= <- <-]. exists [], []. rewrite !app_nil_r.
    repeat split; constructor.
  - intros H. apply txBind_returns in H as (s1 & t1 & H1 & H2).
    apply saveLineItem_detail in H1
      as (w & s & pid & Hst & -> & Href & Hid & Hfrom).
    apply IH in H2 as (items & news & Hst2 & -> & Hrefs & Hall & Hids).
    exists (w :: items), (s :: news).
    rewrite Hst2, Hst, <- !app_assoc. simpl.
    split; [reflexivity|]. split; [reflexivity|].
    split; [constructor; eauto|]. split; [constructor; auto|].
    constructor.
    + exists pid, w. split; [assumption|]. split; [left|assumption].
    + eapply Forall_impl; [exact Hids|]. simpl.
      intros s' (pid' & w' & ? & ? & ?). exists pid', w'.
      split; [assumption|]. split; [right|]; assumption.
Qed.

(** ** The update function, in full *)

Lemma readPendingDoc_detail σ data tx pending tx' :
  readPendingDoc σ data tx = Returns (pending, tx') ->
  tx' = tx
  /\ pending
     = match nonEmpty (existingDocumentId data) with
       | Some docId =>
           default ∅ (σ !! (userId data, DOCUMENTS_SUBCOLLECTION, docId))
       | None => ∅
       end.
Proof.
  unfold readPendingDoc. destruct (nonEmpty (existingDocumentId data)).
  - unfold txBind, txLift, txRet.
    destruct (getUserSubcollectionDocRef _ _ _) as [ref|] eqn:E;
      [|discriminate].
    apply docRef_shape in E as (-> & _ & _).
    intros [= <- <-]. auto.
  - intros [= <- <-]. auto.
Qed.

Lemma readSupplier_detail σq σ data name tx existing tx' :
  readSupplier σq σ data name tx = Returns (existing, tx') ->
  tx' = tx
  /\ match queryFirst σq (userId data) SUPPLIERS_SUBCOLLECTION
             (supplierNamed name) with
     | Some (sid, _) =>
         exists old : gmap string value,
           σ !! (userId data, SUPPLIERS_SUBCOLLECTION, sid) = Some old
           /\ existing = Some (sid, old)
     | None => existing = None
     end.
Proof.
  unfold readSupplier. destruct (queryFirst _ _ _ _) as [[sid d]|].
  - destruct (σ !! _) as [old|]; [|discriminate].
    intros [= <- <-]. eauto.
  - intros [= <- <-]. auto.
Qed.

Lemma stageSupplier_detail data name existing tx supplierId tx' :
  stageSupplier autoId data name existing tx = Returns (supplierId, tx') ->
  exists w,
    staged tx' = (staged tx ++ [w])%list
    /\ match existing with
       | Some (sid, old) =>
           supplierId = sid
           /\ w = WUpdate (userId data, SUPPLIERS_SUBCOLLECTION, sid)
                    (supplierCounters old data)
       | None =>
           supplierId = autoId (nextAutoId tx)
           /\ w = WSet (userId data, SUPPLIERS_SUBCOLLECTION,
                        autoId (nextAutoId tx))
                    (newSupplierDoc (autoId (nextAutoId tx)) name data) false
       end.
Proof.
  unfold stageSupplier. destruct existing as [[sid d]|].
  - intros [= <- <-]. simpl. eauto.
  - intros [= <- <-]. simpl. eauto.
Qed.

Lemma finalInvoiceRef_detail data tx ref tx' :
  finalInvoiceRef autoId data tx = Returns (ref, tx') ->
  staged tx' = staged tx
  /\ ref = (userId data, DOCUMENTS_SUBCOLLECTION, ref.2)
  /\ forall docId, nonEmpty (existingDocumentId data) = Some docId ->
                   ref.2 = docId.
Proof.
  unfold finalInvoiceRef. destruct (nonEmpty (existingDocumentId data)).
  - unfold txLift.
    destruct (getUserSubcollectionDocRef _ _ _) as [r|] eqn:E; [|discriminate].
    apply docRef_shape in E as (-> & _ & _). intros [= <- <-].
    repeat split. intros ? [= <-]. reflexivity.
  - intros [= <- <-]. simpl. repeat split. discriminate.
Qed.

(** The writes of the update function, run on a fresh transaction: the
    supplier, the line items, the invoice. The products of the attempt
    come after those the aborted attempts have pushed. *)
Lemma finalizeTransaction_detail σq σ data name pushed autoIds fin tx :
  finalizeTransaction autoId parseDate σq σ data name pushed
    (mkTx [] autoIds)
  = Returns (fin, tx) ->
  exists pending wsup items invoiceId,
    staged tx
    = wsup :: (items ++
        [WSet (userId data, DOCUMENTS_SUBCOLLECTION, invoiceId)
           (finalInvoiceRecord fin) true])%list
    /\ finalInvoiceRecord fin
       = invoiceRecord parseDate data name pending invoiceId
           (finalSupplierId fin) (savedOrUpdatedProducts fin)
    /\ pending
       = match nonEmpty (existingDocumentId data) with
         | Some docId =>
             default ∅ (σ !! (userId data, DOCUMENTS_SUBCOLLECTION, docId))
         | None => ∅
         end
    /\ (forall docId, nonEmpty (existingDocumentId data) = Some docId ->
                      invoiceId = docId)
    /\ match queryFirst σq (userId data) SUPPLIERS_SUBCOLLECTION
               (supplierNamed name) with
       | Some (sid, _) =>
           exists old : gmap string value,
             σ !! (userId data, SUPPLIERS_SUBCOLLECTION, sid) = Some old
             /\ finalSupplierId fin = sid
             /\ wsup = WUpdate (userId data, SUPPLIERS_SUBCOLLECTION, sid)
                         (supplierCounters old data)
       | None =>
           finalSupplierId fin = autoId autoIds
           /\ wsup = WSet (userId data, SUPPLIERS_SUBCOLLECTION,
                           autoId autoIds)
                       (newSupplierDoc (autoId autoIds) name data) false
       end
    /\ Forall (fun w => exists i,
                 writeRef w = (userId data, INVENTORY_SUBCOLLECTION, i)) items
    /\ exists news,
         savedOrUpdatedProducts fin = (pushed ++ news)%list
         /\ Forall2 (savedFrom (userId data)) (products data) news
         /\ Forall (fun s => exists productId w,
                      s !! "id" = Some (VStr productId) /\ w ∈ items
                      /\ writeRef w
                         = (userId data, INVENTORY_SUBCOLLECTION, productId))
              news.
Proof.
  unfold finalizeTransaction. intros H.
  apply txBind_returns in H as (pending & t1 & H1 & H).
  apply readPendingDoc_detail in H1 as [-> Hpending].
  apply txBind_returns in H as (existing & t2 & H2 & H).
  apply readSupplier_detail in H2 as [-> Hexisting].
  apply txBind_returns in H as (sid & t3 & H3 & H).
  apply stageSupplier_detail in H3 as (w & Hw & Hsup).
  apply txBind_returns in H as (saved & t4 & H4 & H).
  apply saveLineItems_detail in H4
    as (items & news & Hitems & Hnews & Hrefs & Hfrom & Hids).
  subst saved.
  apply txBind_returns in H as (ref & t5 & H5 & H).
  apply finalInvoiceRef_detail in H5 as (Hst5 & Href & Hdoc).
  apply txBind_returns in H as ([] & t6 & H6 & H).
  injection H6 as <-. injection H as <- <-. simpl.
  exists pending, w, items, ref.2. rewrite <- Href.
  split; [rewrite Hst5, Hitems, Hw; reflexivity|].
  split; [reflexivity|]. split; [exact Hpending|]. split; [exact Hdoc|].
  split; [|split; [exact Hrefs|exists news; auto]].
  destruct (queryFirst _ _ _ _) as [[sid' found]|].
  - destruct Hexisting as (old & Hold & ->). destruct Hsup as [-> ->]. eauto.
  - subst existing. destruct Hsup as [-> ->]. simpl. auto.
Qed.

(** What the aborted attempts leave in the list of the call: one chunk
    of products per attempt, each with one product per line item. *)
Lemma abortedAttempts_products data name attemptsRemaining aborted pushed0
    autoIds pushed ids :
  abortedAttempts attemptsRemaining (finalizeAttempt autoId parseDate data name)
    aborted pushed0 autoIds = Returns (pushed, ids) ->
  exists chunks,
    pushed = (pushed0 ++ concat chunks)%list
    /\ length chunks = length aborted
    /\ Forall (Forall2 (savedFrom (userId data)) (products data)) chunks.
Proof.
  revert attemptsRemaining pushed0 autoIds.
  induction aborted as [|seen rest IH]; intros n pushed0 autoIds; simpl.
  - intros [= <- <-]. exists []. simpl. rewrite app_nil_r. auto.
  - unfold finalizeAttempt at 1. unfold txBind, txRet.
    destruct (finalizeTransaction _ _ _ _ _ _ _ _) as [[fin tx]|] eqn:Htx;
      [|discriminate].
    destruct n as [|n]; [discriminate|]. intros H.
    apply IH in H as (chunks & -> & Hlen & Hall).
    apply finalizeTransaction_detail in Htx
      as (_ & _ & _ & _ & _ & _ & _ & _ & _ & _ & news & -> & Hfrom & _).
    exists (news :: chunks). simpl. rewrite <- app_assoc.
    split; [reflexivity|]. split; [congruence|]. constructor; assumption.
Qed.

Lemma earlierAttempts_products data name aborted autoIds pushed ids :
  earlierAttempts autoId parseDate data name aborted autoIds
  = Returns (pushed, ids) ->
  exists chunks,
    pushed = concat chunks
    /\ length chunks = length aborted
    /\ Forall (Forall2 (savedFrom (userId data)) (products data)) chunks.
Proof. apply abortedAttempts_products. Qed.

Lemma chunks_length {A B : Type} (R : A -> B -> Prop) (l : list A)
    (chunks : list (list B)) :
  Forall (Forall2 R l) chunks ->
  length (concat chunks) = (length chunks * length l)%nat.
Proof.
  induction 1 as [|c cs Hc _ IH]; simpl; [reflexivity|].
  rewrite length_app, IH. apply Forall2_length in Hc. lia.
Qed.

(** A call that returns: the attempts that were aborted, the transaction
    of the last one, the committed store, and the synchronization that
    follows. *)
Lemma finalize_returns_inv aborted σq σ autoIds data r σ' :
  finalizeSaveProductsService autoId now parseDate caspit rejects refuses
    aborted σq σ autoIds data = (Returns r, σ') ->
  exists name pushed ids fin tx σc,
    userId data <> ""
    /\ nonEmpty (supplierName data) = Some name
    /\ earlierAttempts autoId parseDate data name aborted autoIds
       = Returns (pushed, ids)
    /\ finalizeTransaction autoId parseDate σq σ data name pushed
         (mkTx [] ids)
       = Returns (fin, tx)
    /\ applyWrites rejects (staged tx) σ = Some σc
    /\ syncCatch (posSync now caspit refuses data fin)
         (recordSyncError refuses data fin) σc
       = (Returns tt, σ')
    /\ r = (finalInvoiceRecord fin, savedOrUpdatedProducts fin)
    /\ keeps σc σ'.
Proof.
  unfold finalizeSaveProductsService.
  destruct (String.eqb_spec (userId data) "") as [|Hu]; [discriminate|].
  destruct (nonEmpty (supplierName data)) as [name|]; [|discriminate].
  destruct (runTransaction _ _ _ _ _ _ _) as [[[fin σc] n]|] eqn:Hrun;
    [|discriminate].
  apply runTransaction_returns in Hrun as (pushed & ids & tx & He & Htx & Hc).
  destruct (syncCatch _ _ σc) as [[[]|e] σ1] eqn:Hrelay; [|discriminate].
  intros [= <- <-]. exists name, pushed, ids, fin, tx, σc.
  repeat split; auto. eapply relay_keeps. exact Hrelay.
Qed.

(** ** What the commit leaves *)

Lemma committed_supplier_doc σq σ data name pushed autoIds fin tx σc :
  finalizeTransaction autoId parseDate σq σ data name pushed
    (mkTx [] autoIds)
  = Returns (fin, tx) ->
  applyWrites rejects (staged tx) σ = Some σc ->
  match queryFirst σq (userId data) SUPPLIERS_SUBCOLLECTION
          (supplierNamed name) with
  | Some (sid, _) =>
      exists old : gmap string value,
        σ !! (userId data, SUPPLIERS_SUBCOLLECTION, sid) = Some old
        /\ finalSupplierId fin = sid
        /\ σc !! (userId data, SUPPLIERS_SUBCOLLECTION, sid)
           = Some (supplierCounters old data ∪ old)
  | None =>
      finalSupplierId fin = autoId autoIds
      /\ σc !! (userId data, SUPPLIERS_SUBCOLLECTION, autoId autoIds)
         = Some (newSupplierDoc (autoId autoIds) name data)
  end.
Proof.
  intros Htx Hc. apply finalizeTransaction_detail in Htx
    as (pending & wsup & items & iid & Hst & _ & _ & _ & Hsup & Hrefs & _).
  rewrite Hst in Hc. simpl in Hc.
  destruct (rejects (writeRef wsup)); [discriminate|].
  destruct (applyWrite wsup σ) as [σ1|] eqn:Hw; [|discriminate].
  assert (Hframe : forall sid,
            σc !! (userId data, SUPPLIERS_SUBCOLLECTION, sid)
            = σ1 !! (userId data, SUPPLIERS_SUBCOLLECTION, sid)).
  { intros sid. eapply applyWrites_frame; [exact Hc|].
    apply Forall_app. split.
    - eapply Forall_impl; [exact Hrefs|]. simpl. intros w [i ->]. discriminate.
    - constructor; [simpl; discriminate|constructor]. }
  destruct (queryFirst _ _ _ _) as [[sid found]|].
  - destruct Hsup as (old & Hold & Hid & ->). exists old.
    split; [assumption|]. split; [assumption|]. rewrite Hframe.
    simpl in Hw. rewrite Hold in Hw. injection Hw as <-.
    apply lookup_insert_eq.
  - destruct Hsup as [Hid ->]. split; [assumption|]. rewrite Hframe.
    simpl in Hw. injection Hw as <-. apply lookup_insert_eq.
Qed.

Lemma committed_invoice_doc σq σ data name pushed autoIds fin tx σc :
  finalizeTransaction autoId parseDate σq σ data name pushed
    (mkTx [] autoIds)
  = Returns (fin, tx) ->
  applyWrites rejects (staged tx) σ = Some σc ->
  σc !! (userId data, DOCUMENTS_SUBCOLLECTION, invoiceIdOf fin)
  = Some (finalInvoiceRecord fin
          ∪ default ∅
              (σ !! (userId data, DOCUMENTS_SUBCOLLECTION, invoiceIdOf fin))).
Proof.
  intros Htx Hc. apply finalizeTransaction_detail in Htx
    as (pending & wsup & items & iid & Hst & Hrec & _ & _ & Hsup & Hrefs & _).
  assert (Hiid : invoiceIdOf fin = iid).
  { unfold invoiceIdOf. rewrite Hrec. reflexivity. }
  rewrite Hiid. rewrite Hst in Hc.
  change (wsup :: (items ++ ?l)%list) with ((wsup :: items) ++ l)%list in Hc.
  apply applyWrites_app in Hc as (σ1 & H1 & H2).
  assert (Hframe : σ1 !! (userId data, DOCUMENTS_SUBCOLLECTION, iid)
                   = σ !! (userId data, DOCUMENTS_SUBCOLLECTION, iid)).
  { eapply applyWrites_frame; [exact H1|]. constructor.
    - destruct (queryFirst _ _ _ _) as [[sid found]|].
      + destruct Hsup as (old & _ & _ & ->). simpl. discriminate.
      + destruct Hsup as [_ ->]. simpl. discriminate.
    - eapply Forall_impl; [exact Hrefs|]. simpl. intros w [i ->]. discriminate. }
  simpl in H2. destruct (rejects _); [discriminate|].
  injection H2 as <-. rewrite lookup_insert_eq, Hframe. reflexivity.
Qed.

Lemma committed_products σq σ data name pushed autoIds fin tx σc :
  finalizeTransaction autoId parseDate σq σ data name pushed
    (mkTx [] autoIds)
  = Returns (fin, tx) ->
  applyWrites rejects (staged tx) σ = Some σc ->
  exists news,
    savedOrUpdatedProducts fin = (pushed ++ news)%list
    /\ Forall2 (savedFrom (userId data)) (products data) news
    /\ Forall (fun s => exists productId,
                 s !! "id" = Some (VStr productId)
                 /\ is_Some (σc !! (userId data, INVENTORY_SUBCOLLECTION,
                                    productId)))
         news.
Proof.
  intros Htx Hc. apply finalizeTransaction_detail in Htx
    as (pending & wsup & items & iid & Hst & _ & _ & _ & _ & _ & news & Hsaved
        & Hfrom & Hids).
  exists news. split; [exact Hsaved|]. split; [exact Hfrom|].
  eapply Forall_impl; [exact Hids|]. simpl.
  intros s (pid & w & Hid & Hw & Href). exists pid.
  split; [assumption|]. rewrite <- Href.
  eapply applyWrites_all_written; [exact Hc|].
  rewrite Hst. right. apply elem_of_app. left. exact Hw.
Qed.

(** ** The supplier of a finalized document *)

(** X5. When the supplier of that name exists, a call that returns has
    counted the document on it: the stored supplier has [invoiceCount] one
    higher and [totalSpent] higher by the document's total (a missing
    total counts as 0), every other field but [lastActivityDate] and the
    POS bookkeeping is as it was, and the returned record carries the
    supplier's id. *)
Theorem finalize_counts_on_existing_supplier aborted σq σ autoIds data name
    sid found (old : gmap string value) r σ' :
  nonEmpty (supplierName data) = Some name ->
  queryFirst σq (userId data) SUPPLIERS_SUBCOLLECTION (supplierNamed name)
  = Some (sid, found) ->
  σ !! (userId data, SUPPLIERS_SUBCOLLECTION, sid) = Some old ->
  finalizeSaveProductsService autoId now parseDate caspit rejects refuses
    aborted σq σ autoIds data = (Returns r, σ') ->
  r.1 !! "supplierId" = Some (VStr sid)
  /\ exists stored : gmap string value,
       σ' !! (userId data, SUPPLIERS_SUBCOLLECTION, sid) = Some stored
       /\ stored !! "invoiceCount"
          = Some (VNum (numFieldOr0 old "invoiceCount" + 1))
       /\ stored !! "totalSpent"
          = Some (VNum (numFieldOr0 old "totalSpent"
                        + numOr0 (totalAmount data)))
       /\ forall k,
            k ∉ ["totalSpent"; "invoiceCount"; "lastActivityDate"; "posRefs";
                 "syncStatus"; "isSyncedToPos"] ->
            stored !! k = old !! k.
Proof.
  intros Hname Hq Hold Hrun.
  apply finalize_returns_inv in Hrun
    as (name' & pushed & ids & fin & tx & σc & Hu & Hname' & He & Htx & Hc
        & _ & -> & Hkeeps).
  rewrite Hname in Hname'. injection Hname' as <-.
  pose proof (committed_supplier_doc _ _ _ _ _ _ _ _ _ Htx Hc) as Hsup.
  rewrite Hq in Hsup. destruct Hsup as (old' & Hold' & Hid & Hdoc).
  rewrite Hold in Hold'. injection Hold' as <-.
  split.
  - apply finalizeTransaction_detail in Htx
      as (pending & wsup & items & iid & _ & -> & _).
    cbn [fst]. rewrite invoiceRecord_supplierId, Hid. reflexivity.
  - destruct (Hkeeps _ _ Hdoc) as (stored & Hstored & Hsame).
    exists stored. split; [exact Hstored|].
    split; [|split].
    + rewrite Hsame by (apply not_bookkeeping; discriminate).
      apply lookup_union_Some_l. reflexivity.
    + rewrite Hsame by (apply not_bookkeeping; discriminate).
      apply lookup_union_Some_l. reflexivity.
    + intros k Hk.
      assert (k <> "totalSpent" /\ k <> "invoiceCount"
              /\ k <> "lastActivityDate" /\ k <> "posRefs"
              /\ k <> "syncStatus" /\ k <> "isSyncedToPos")
        as (?&?&?&?&?&?).
      { repeat split; intros ->; apply Hk; set_solver. }
      rewrite Hsame by (apply not_bookkeeping; assumption).
      apply lookup_union_r. unfold supplierCounters. simpl.
      rewrite !lookup_insert_ne by auto. apply lookup_empty.
Qed.

(** X6. When no supplier of that name is found, a call that returns has
    created one under the first automatic id of the attempt that was
    committed (the first automatic id of the call, when no attempt was
    aborted), with the name, [invoiceCount = 1] and [totalSpent] the
    document's total, and the returned record carries that id. *)
Theorem finalize_creates_missing_supplier aborted σq σ autoIds data name
    pushed ids r σ' :
  nonEmpty (supplierName data) = Some name ->
  earlierAttempts autoId parseDate data name aborted autoIds
  = Returns (pushed, ids) ->
  queryFirst σq (userId data) SUPPLIERS_SUBCOLLECTION (supplierNamed name)
  = None ->
  finalizeSaveProductsService autoId now parseDate caspit rejects refuses
    aborted σq σ autoIds data = (Returns r, σ') ->
  (aborted = [] -> ids = autoIds)
  /\ r.1 !! "supplierId" = Some (VStr (autoId ids))
  /\ exists stored : gmap string value,
       σ' !! (userId data, SUPPLIERS_SUBCOLLECTION, autoId ids)
       = Some stored
       /\ stored !! "id" = Some (VStr (autoId ids))
       /\ stored !! "userId" = Some (VStr (userId data))
       /\ stored !! "name" = Some (VStr name)
       /\ stored !! "invoiceCount" = Some (VNum 1)
       /\ stored !! "totalSpent" = Some (VNum (numOr0 (totalAmount data))).
Proof.
  intros Hname Hearlier Hq Hrun.
  split; [intros ->; rewrite earlierAttempts_nil in Hearlier; congruence|].
  apply finalize_returns_inv in Hrun
    as (name' & pushed' & ids' & fin & tx & σc & Hu & Hname' & He & Htx & Hc
        & _ & -> & Hkeeps).
  rewrite Hname in Hname'. injection Hname' as <-.
  rewrite Hearlier in He. injection He as <- <-.
  pose proof (committed_supplier_doc _ _ _ _ _ _ _ _ _ Htx Hc) as Hsup.
  rewrite Hq in Hsup. destruct Hsup as [Hid Hdoc].
  split.
  - apply finalizeTransaction_detail in Htx
      as (pending & wsup & items & iid & _ & -> & _).
    cbn [fst]. rewrite invoiceRecord_supplierId, Hid. reflexivity.
  - destruct (Hkeeps _ _ Hdoc) as (stored & Hstored & Hsame).
    exists stored. split; [exact Hstored|].
    repeat split; rewrite Hsame by (apply not_bookkeeping; discriminate);
      reflexivity.
Qed.

(** ** The returned record and the store *)

(** X7. What a call returns is what the store holds: the returned record
    carries the id of a document of the user's documents collection that
    has every field of the record (outside the POS bookkeeping, and but
    for server timestamps) with the same value; its [supplierId] names a
    supplier document that exists; its [products] are the returned
    products. The returned products are those the aborted attempts of the
    transaction have pushed, one per line item and attempt, followed by
    those of the attempt that was committed, one per line item; the [id]
    of each of the latter names an inventory document that exists. *)
Theorem finalized_record_is_stored aborted σq σ autoIds data record saved
    σ' :
  finalizeSaveProductsService autoId now parseDate caspit rejects refuses
    aborted σq σ autoIds data = (Returns (record, saved), σ') ->
  exists invoiceId supplierId (doc : gmap string value) prior news,
    record !! "id" = Some (VStr invoiceId)
    /\ σ' !! (userId data, DOCUMENTS_SUBCOLLECTION, invoiceId) = Some doc
    /\ (forall k v, k ∉ posBookkeeping -> record !! k = Some v ->
                    v <> VServerTimestamp -> doc !! k = Some v)
    /\ record !! "supplierId" = Some (VStr supplierId)
    /\ is_Some (σ' !! (userId data, SUPPLIERS_SUBCOLLECTION, supplierId))
    /\ record !! "products" = Some (VArr (VObj <$> saved))
    /\ saved = (prior ++ news)%list
    /\ length prior = (length aborted * length (products data))%nat
    /\ length news = length (products data)
    /\ Forall (fun s => exists productId,
                 s !! "id" = Some (VStr productId)
                 /\ is_Some (σ' !! (userId data, INVENTORY_SUBCOLLECTION,
                                    productId))) news.
Proof.
  intros Hrun. apply finalize_returns_inv in Hrun
    as (name & pushed & ids & fin & tx & σc & Hu & Hname & He & Htx & Hc
        & _ & Hr & Hkeeps).
  injection Hr as -> ->.
  pose proof (committed_invoice_doc _ _ _ _ _ _ _ _ _ Htx Hc) as Hinv.
  pose proof (committed_supplier_doc _ _ _ _ _ _ _ _ _ Htx Hc) as Hsup.
  destruct (committed_products _ _ _ _ _ _ _ _ _ Htx Hc)
    as (news & Hsaved & Hfrom & Hprods).
  apply earlierAttempts_products in He as (chunks & -> & Hlen & Hchunks).
  destruct (Hkeeps _ _ Hinv) as (doc & Hdoc & Hsame).
  exists (invoiceIdOf fin), (finalSupplierId fin), doc, (concat chunks), news.
  apply finalizeTransaction_detail in Htx
    as (pending & wsup & items & iid & _ & Hrec & _).
  assert (Hiid : invoiceIdOf fin = iid).
  { unfold invoiceIdOf. rewrite Hrec. reflexivity. }
  split; [rewrite Hrec at 1; rewrite invoiceRecord_id_field, Hiid; reflexivity|].
  split; [exact Hdoc|].
  split; [|split; [|split; [|split; [|split; [|split; [|split]]]]]].
  - intros k v Hk Hv _. rewrite Hsame by assumption.
    apply lookup_union_Some_l. exact Hv.
  - rewrite Hrec at 1. apply invoiceRecord_supplierId.
  - eapply keeps_is_Some; [exact Hkeeps|].
    destruct (queryFirst _ _ _ _) as [[sid found]|].
    + destruct Hsup as (old & _ & -> & ->). eauto.
    + destruct Hsup as [-> ->]. eauto.
  - rewrite Hrec at 1. apply invoiceRecord_products.
  - exact Hsaved.
  - rewrite <- Hlen. eapply chunks_length. exact Hchunks.
  - symmetry. eapply Forall2_length. exact Hfrom.
  - eapply Forall_impl; [exact Hprods|]. simpl.
    intros s (pid & Hid & Hex). exists pid. split; [assumption|].
    eapply keeps_is_Some; eauto.
Qed.

(** X8. A call that returns gives back one product for every line item
    and attempt of its transaction, attempt by attempt, in the order of
    the line items (so one per line item when no attempt was aborted):
    each carries the user's id, has no [_originalId], and has every other
    property of its line item as it was sent (but [id], [isActive] and
    [lastUpdated], which the loop sets). *)
Theorem finalize_returns_one_product_per_line aborted σq σ autoIds data
    record saved σ' :
  finalizeSaveProductsService autoId now parseDate caspit rejects refuses
    aborted σq σ autoIds data = (Returns (record, saved), σ') ->
  exists attempts,
    saved = concat attempts
    /\ length attempts = S (length aborted)
    /\ Forall (Forall2 (savedFrom (userId data)) (products data)) attempts.
Proof.
  intros Hrun. apply finalize_returns_inv in Hrun
    as (name & pushed & ids & fin & tx & σc & _ & _ & He & Htx & _ & _ & Hr
        & _).
  injection Hr as -> ->.
  apply earlierAttempts_products in He as (chunks & -> & Hlen & Hchunks).
  apply finalizeTransaction_detail in Htx
    as (_ & _ & _ & _ & _ & _ & _ & _ & _ & _ & news & -> & Hfrom & _).
  exists (chunks ++ [news])%list. rewrite concat_app. simpl.
  rewrite app_nil_r, length_app. simpl.
  split; [reflexivity|]. split; [lia|].
  apply Forall_app. split; [exact Hchunks|].
  constructor; [exact Hfrom|constructor].
Qed.

(** X9. A call for a pending document finalizes that document in place:
    the returned record has the pending document's id, takes over its
    [fileType] and [uploadTime] when they are truthy, and the stored
    document has all fields of the record (but for server timestamps) and
    keeps every other field the pending document had (outside the POS
    bookkeeping). *)
Theorem finalize_upgrades_pending_document aborted σq σ autoIds data docId
    (pending : gmap string value) record saved σ' :
  nonEmpty (existingDocumentId data) = Some docId ->
  σ !! (userId data, DOCUMENTS_SUBCOLLECTION, docId) = Some pending ->
  finalizeSaveProductsService autoId now parseDate caspit rejects refuses
    aborted σq σ autoIds data = (Returns (record, saved), σ') ->
  record !! "id" = Some (VStr docId)
  /\ record !! "fileType"
     = Some (orElse (pending !! "fileType") (VStr "unknown"))
  /\ record !! "uploadTime"
     = Some (orElse (pending !! "uploadTime") VServerTimestamp)
  /\ exists doc : gmap string value,
       σ' !! (userId data, DOCUMENTS_SUBCOLLECTION, docId) = Some doc
       /\ (forall k v, k ∉ posBookkeeping -> record !! k = Some v ->
                       v <> VServerTimestamp -> doc !! k = Some v)
       /\ (forall k, k ∉ posBookkeeping -> record !! k = None ->
                     doc !! k = pending !! k).
Proof.
  intros Hdocid Hpending Hrun. apply finalize_returns_inv in Hrun
    as (name & pushed & ids & fin & tx & σc & Hu & Hname & He & Htx & Hc
        & _ & Hr & Hkeeps).
  injection Hr as -> ->.
  pose proof (committed_invoice_doc _ _ _ _ _ _ _ _ _ Htx Hc) as Hinv.
  apply finalizeTransaction_detail in Htx
    as (pending' & wsup & items & iid & _ & Hrec & Hp & Hiid & _).
  rewrite Hdocid, Hpending in Hp. simpl in Hp. subst pending'.
  specialize (Hiid docId Hdocid). subst iid.
  assert (Hid : invoiceIdOf fin = docId).
  { unfold invoiceIdOf. rewrite Hrec. reflexivity. }
  rewrite Hid, Hpending in Hinv. simpl in Hinv.
  destruct (Hkeeps _ _ Hinv) as (doc & Hdoc & Hsame).
  split; [rewrite Hrec at 1; apply invoiceRecord_id_field|].
  split; [rewrite Hrec at 1; apply invoiceRecord_fileType|].
  split; [rewrite Hrec at 1; apply invoiceRecord_uploadTime|].
  exists doc. split; [exact Hdoc|]. split.
  - intros k v Hk Hv _. rewrite Hsame by assumption.
    apply lookup_union_Some_l. exact Hv.
  - intros k Hk Hnone. rewrite Hsame by assumption.
    apply lookup_union_r. exact Hnone.
Qed.

(** ** The documents a call can touch *)

Lemma staged_in_scope σq σ data name pushed autoIds fin tx :
  finalizeTransaction autoId parseDate σq σ data name pushed
    (mkTx [] autoIds)
  = Returns (fin, tx) ->
  Forall (fun w => finalizeScope (userId data) (writeRef w)) (staged tx).
Proof.
  intros Htx. apply finalizeTransaction_detail in Htx
    as (pending & wsup & items & iid & -> & _ & _ & _ & Hsup & Hrefs & _).
  constructor.
  - destruct (queryFirst _ _ _ _) as [[sid found]|].
    + destruct Hsup as (old & _ & _ & ->). apply scope_suppliers.
    + destruct Hsup as [_ ->]. apply scope_suppliers.
  - apply Forall_app. split.
    + eapply Forall_impl; [exact Hrefs|]. simpl. intros w [i ->].
      apply scope_inventory.
    + constructor; [apply scope_documents|constructor].
Qed.

Lemma syncSupplier_scope config userId i supplierData :
  syncInv (sameOutside (finalizeScope userId))
    (syncSupplier now caspit refuses config (userId, SUPPLIERS_SUBCOLLECTION, i)
       supplierData).
Proof.
  unfold syncSupplier. destruct (truthy _).
  - apply syncInv_ret; typeclasses eauto.
  - destruct (success _); [|apply syncInv_throw; typeclasses eauto].
    destruct (nonEmpty (externalId _));
      [|apply syncInv_throw; typeclasses eauto].
    apply syncInv_bind; [typeclasses eauto| |intros ?].
    + apply syncInv_updateDoc_in, scope_suppliers.
    + apply syncInv_ret; typeclasses eauto.
Qed.

Lemma syncProducts_scope config userId products :
  syncInv (sameOutside (finalizeScope userId))
    (syncProducts now caspit refuses config userId products).
Proof.
  induction products as [|p ps IH]; simpl.
  - apply syncInv_ret; typeclasses eauto.
  - apply syncInv_bind; [typeclasses eauto| |intros ?]; [|exact IH].
    unfold syncProduct.
    destruct (success _); [|apply syncInv_ret; typeclasses eauto].
    destruct (nonEmpty (externalId _));
      [|apply syncInv_ret; typeclasses eauto].
    destruct (truthyString _); [|apply syncInv_ret; typeclasses eauto].
    apply syncInv_bind_lift; [typeclasses eauto|]. intros ref Href.
    apply docRef_shape in Href as (-> & _).
    apply syncInv_updateDoc_in, scope_inventory.
Qed.

Lemma syncDocument_scope config docType userId i record :
  syncInv (sameOutside (finalizeScope userId))
    (syncDocument now caspit refuses config docType
       (userId, DOCUMENTS_SUBCOLLECTION, i) record).
Proof.
  unfold syncDocument.
  destruct docType;
    try (apply syncInv_updateDoc_in, scope_documents);
    (destruct (success _); [|apply syncInv_throw; typeclasses eauto]);
    (destruct (nonEmpty _); [|apply syncInv_throw; typeclasses eauto]);
    apply syncInv_updateDoc_in, scope_documents.
Qed.

Lemma relay_scope data fin :
  syncInv (sameOutside (finalizeScope (userId data)))
    (syncCatch (posSync now caspit refuses data fin)
       (recordSyncError refuses data fin)).
Proof.
  apply syncInv_catch; [typeclasses eauto| |intros e].
  - unfold posSync.
    apply syncInv_bind; [typeclasses eauto| |intros settings].
    { apply getUserSettingsService_inv; typeclasses eauto. }
    destruct (posConfigOf settings) as [config|];
      [|apply syncInv_ret; typeclasses eauto].
    unfold posSyncConfigured.
    apply syncInv_bind_lift; [typeclasses eauto|]. intros sref Hs.
    apply docRef_shape in Hs as (-> & _).
    apply syncInv_bind_lift; [typeclasses eauto|]. intros iref Hi.
    apply docRef_shape in Hi as (-> & _).
    apply syncInv_bind; [typeclasses eauto| |intros supplierDoc].
    { apply syncInv_getDoc; typeclasses eauto. }
    destruct supplierDoc as [stored|];
      [|apply syncInv_ret; typeclasses eauto].
    unfold syncEntities.
    apply syncInv_bind; [typeclasses eauto| |intros v].
    { apply syncSupplier_scope. }
    destruct (truthy v); [|apply syncInv_ret; typeclasses eauto].
    apply syncInv_bind; [typeclasses eauto| |intros ?].
    + apply syncProducts_scope.
    + apply syncDocument_scope.
  - unfold recordSyncError.
    destruct (negb _); [|apply syncInv_ret; typeclasses eauto].
    apply syncInv_bind_lift; [typeclasses eauto|]. intros ref Hr.
    apply docRef_shape in Hr as (-> & _).
    apply syncInv_updateDoc_in, scope_documents.
Qed.

(** X10. Whatever a call does, returning or throwing, with or without a
    POS system: it leaves every document of every other user untouched,
    and of the calling user every document outside the suppliers, the
    inventory and the documents collection (the settings among them). *)
Theorem finalize_writes_only_its_documents aborted σq σ autoIds data out σ' :
  finalizeSaveProductsService autoId now parseDate caspit rejects refuses
    aborted σq σ autoIds data = (out, σ') ->
  (forall ref : DocRef, ref.1.1 <> userId data -> σ' !! ref = σ !! ref)
  /\ (forall collection docId,
        collection ∉ [SUPPLIERS_SUBCOLLECTION; INVENTORY_SUBCOLLECTION;
                      DOCUMENTS_SUBCOLLECTION] ->
        σ' !! (userId data, collection, docId)
        = σ !! (userId data, collection, docId)).
Proof.
  intros Hrun.
  assert (Hout : sameOutside (finalizeScope (userId data)) σ σ').
  { revert Hrun. unfold finalizeSaveProductsService.
    destruct (String.eqb (userId data) ""); [intros [= _ <-]; reflexivity|].
    destruct (nonEmpty (supplierName data)) as [name|];
      [|intros [= _ <-]; reflexivity].
    destruct (runTransaction _ _ _ _ _ _ _) as [[[fin σc] n]|] eqn:Htx;
      [|intros [= _ <-]; reflexivity].
    apply runTransaction_returns in Htx as (pushed & ids & tx & _ & Htx & Hc).
    destruct (syncCatch _ _ σc) as [res σ1] eqn:Hrelay.
    intros Hres. assert (σ1 = σ') as -> by (destruct res; congruence).
    transitivity σc.
    - eapply applyWrites_sameOutside; [|exact Hc].
      eapply staged_in_scope. exact Htx.
    - eapply relay_scope. exact Hrelay. }
  split.
  - intros ref Hne. apply Hout. intros [Hu _]. contradiction.
  - intros collection docId Hcoll. apply Hout. intros [_ Hin]. contradiction.
Qed.

(** ** Without a POS system *)

(** X11. When the user's settings configure no POS system (no settings
    document, or no truthy [posConfig]), a call that returns has done
    nothing but its transaction: the store it leaves is exactly the store
    with the staged writes of the committed attempt applied. *)
Theorem finalize_without_pos_only_commits aborted σq σ autoIds data r σ' :
  posConfigOf
    (default ∅ (σ !! (userId data, USER_SETTINGS_SUBCOLLECTION,
                      "userProfile"))) = None ->
  finalizeSaveProductsService autoId now parseDate caspit rejects refuses
    aborted σq σ autoIds data = (Returns r, σ') ->
  exists name pushed ids fin tx,
    nonEmpty (supplierName data) = Some name
    /\ earlierAttempts autoId parseDate data name aborted autoIds
       = Returns (pushed, ids)
    /\ finalizeTransaction autoId parseDate σq σ data name pushed
         (mkTx [] ids)
       = Returns (fin, tx)
    /\ r = (finalInvoiceRecord fin, savedOrUpdatedProducts fin)
    /\ applyWrites rejects (staged tx) σ = Some σ'.
Proof.
  intros Hnone Hrun. apply finalize_returns_inv in Hrun
    as (name & pushed & ids & fin & tx & σc & Hu & Hname & He & Htx & Hc
        & Hrelay & Hr & _).
  exists name, pushed, ids, fin, tx. repeat split; auto.
  assert (Hsettings :
            σc !! (userId data, USER_SETTINGS_SUBCOLLECTION, "userProfile")
            = σ !! (userId data, USER_SETTINGS_SUBCOLLECTION, "userProfile")).
  { eapply (applyWrites_sameOutside (finalizeScope (userId data)));
      [eapply staged_in_scope; exact Htx|exact Hc|apply scope_not_settings]. }
  assert (Hsync : posSync now caspit refuses data fin σc = (Returns tt, σc)).
  { unfold posSync, getUserSettingsService, syncBind, syncLift, syncGetDoc,
      syncRet.
    rewrite docRef_returns by (assumption || discriminate).
    rewrite Hsettings, Hnone. reflexivity. }
  unfold syncCatch in Hrelay. rewrite Hsync in Hrelay.
  injection Hrelay as <-. exact Hc.
Qed.

(** ** A POS system without a supplier upsert *)

Lemma getPath_union_r k rest (m1 m2 : gmap string value) :
  m1 !! k = None -> getPath (k :: rest) (m1 ∪ m2) = getPath (k :: rest) m2.
Proof.
  intros H. destruct rest; cbn [getPath]; rewrite lookup_union_r by assumption;
    reflexivity.
Qed.

Lemma nonEmpty_string s : s <> "" -> nonEmpty (Some s) = Some s.
Proof.
  intros Hs. unfold nonEmpty, truthyStr.
  destruct (String.eqb_spec s ""); [contradiction|reflexivity].
Qed.

Lemma upsertPosSupplierAction_unsupported config systemId x :
  strField config "systemId" = Some systemId ->
  systemId <> "" -> systemId <> "caspit" ->
  upsertPosSupplierAction caspit config x
  = failed (if String.eqb systemId "hashavshevet"
            then "Method 'upsertSupplier' not implemented for Hashavshevet."
            else "POS adapter not found for system: " ++ systemId).
Proof.
  intros Hs Hne Hc. unfold upsertPosSupplierAction, actionAdapter.
  rewrite Hs. unfold nonEmpty, truthyStr.
  destruct (String.eqb_spec systemId ""); [contradiction|]. simpl.
  unfold getPosAdapter.
  destruct (String.eqb_spec systemId "caspit"); [contradiction|].
  destruct (String.eqb systemId "hashavshevet"); reflexivity.
Qed.

Lemma syncSupplier_unsupported config systemId ref supplierData σ1 :
  strField config "systemId" = Some systemId ->
  systemId <> "" -> systemId <> "caspit" ->
  truthy (default VNull
            (getPath ["posRefs"; systemId; "externalId"] supplierData))
  = false ->
  syncSupplier now caspit refuses config ref supplierData σ1
  = (Throws ("POS supplier sync failed: " ++
             (if String.eqb systemId "hashavshevet"
              then "Method 'upsertSupplier' not implemented for Hashavshevet."
              else "POS adapter not found for system: " ++ systemId)), σ1).
Proof.
  intros Hs Hne Hc Hno. unfold syncSupplier. cbv zeta.
  rewrite (upsertPosSupplierAction_unsupported _ _ _ Hs Hne Hc).
  rewrite Hs, (nonEmpty_string _ Hne), Hno. reflexivity.
Qed.

(** X12. With a POS system configured that is not Caspit (Hashavshevet,
    whose adapter implements no supplier upsert, or an id no adapter is
    registered for) and a supplier that has no external id in it yet
    (every new supplier), a call that returns leaves the document
    completed and marked with the synchronization error, with the message
    of the failed supplier upsert. *)
Theorem finalize_with_unsupported_pos_records_error aborted σq σ autoIds
    data name config systemId r σ' :
  (forall k, autoId k <> "") ->
  nonEmpty (supplierName data) = Some name ->
  posConfigured σ (userId data) config ->
  strField config "systemId" = Some systemId ->
  systemId <> "" -> systemId <> "caspit" ->
  (forall sid found (old : gmap string value),
     queryFirst σq (userId data) SUPPLIERS_SUBCOLLECTION (supplierNamed name)
     = Some (sid, found) ->
     σ !! (userId data, SUPPLIERS_SUBCOLLECTION, sid) = Some old ->
     sid <> ""
     /\ truthy (default VNull
                  (getPath ["posRefs"; systemId; "externalId"] old))
        = false) ->
  finalizeSaveProductsService autoId now parseDate caspit rejects refuses
    aborted σq σ autoIds data = (Returns r, σ') ->
  exists invoiceId (doc : gmap string value),
    r.1 !! "id" = Some (VStr invoiceId)
    /\ σ' !! (userId data, DOCUMENTS_SUBCOLLECTION, invoiceId) = Some doc
    /\ doc !! "status" = Some (VStr "completed")
    /\ getPath ["syncStatus"; "status"] doc = Some (VStr "error")
    /\ getPath ["syncStatus"; "error"] doc
       = Some (VStr
           ("POS Sync Failed: POS supplier sync failed: " ++
            (if String.eqb systemId "hashavshevet"
             then "Method 'upsertSupplier' not implemented for Hashavshevet."
             else "POS adapter not found for system: " ++ systemId))).
Proof.
  intros Hauto Hname Hcfg Hsys Hne Hcaspit Hsupplier Hrun.
  apply finalize_returns_inv in Hrun
    as (name' & pushed & ids & fin & tx & σc & Hu & Hname' & He & Htx & Hc
        & Hrelay & -> & Hkeeps).
  rewrite Hname in Hname'. injection Hname' as <-.
  pose proof (committed_invoice_doc _ _ _ _ _ _ _ _ _ Htx Hc) as Hinv.
  pose proof (committed_supplier_doc _ _ _ _ _ _ _ _ _ Htx Hc) as Hsup.
  pose proof (finalizeTransaction_invoiceId_nonempty autoId parseDate _ _ _ _
                _ _ _ _ Hauto Htx) as Hid.
  assert (Hcfgc : posConfigured σc (userId data) config).
  { destruct Hcfg as (settings & Hs & Hp). exists settings.
    split; [|exact Hp]. rewrite <- Hs.
    eapply (applyWrites_sameOutside (finalizeScope (userId data)));
      [eapply staged_in_scope; exact Htx|exact Hc|apply scope_not_settings]. }
  assert (Hstored : exists stored : gmap string value,
            σc !! (userId data, SUPPLIERS_SUBCOLLECTION, finalSupplierId fin)
            = Some stored
            /\ finalSupplierId fin <> ""
            /\ truthy (default VNull
                 (getPath ["posRefs"; systemId; "externalId"] stored))
               = false).
  { destruct (queryFirst _ _ _ _) as [[sid found]|] eqn:Hq.
    - destruct Hsup as (old & Hold & -> & Hdoc).
      destruct (Hsupplier sid found old eq_refl Hold) as [Hsid Hno].
      eexists. split; [exact Hdoc|]. split; [exact Hsid|].
      rewrite getPath_union_r by reflexivity. exact Hno.
    - destruct Hsup as [-> Hdoc]. eexists. split; [exact Hdoc|].
      split; [apply Hauto|]. reflexivity. }
  destruct Hstored as (stored & Hstored & Hsid & Hno).
  set (e := ("POS supplier sync failed: " ++
             (if String.eqb systemId "hashavshevet"
              then "Method 'upsertSupplier' not implemented for Hashavshevet."
              else "POS adapter not found for system: " ++ systemId))).
  assert (Hthrow : posSync now caspit refuses data fin σc = (Throws e, σc)).
  { rewrite (posSync_configured now caspit refuses _ _ _ _ Hu Hcfgc).
    unfold posSyncConfigured, syncBind, syncLift, syncGetDoc.
    rewrite !docRef_returns by assumption. rewrite Hstored.
    unfold syncEntities, syncBind.
    rewrite (syncSupplier_unsupported config systemId _ _ _ Hsys Hne Hcaspit);
      [reflexivity|].
    rewrite getPath_insert_other by discriminate. exact Hno. }
  pose proof (recordSyncError_outcome refuses data fin e σc Hu Hid
                (mk_is_Some _ _ Hinv)) as Hrec.
  unfold syncCatch in Hrelay. rewrite Hthrow in Hrelay.
  destruct (refuses _ _) as [e'|]; [rewrite Hrec in Hrelay; discriminate|].
  destruct Hrec as (σ2 & doc & Hrec & Hdoc & Hst & Herr).
  rewrite Hrec in Hrelay. injection Hrelay as <-.
  exists (invoiceIdOf fin), doc.
  apply finalizeTransaction_detail in Htx
    as (pending & wsup & items & iid & _ & Hrec' & _).
  assert (Hiid : invoiceIdOf fin = iid).
  { unfold invoiceIdOf. rewrite Hrec'. reflexivity. }
  split; [cbn [fst]; rewrite Hrec' at 1;
          rewrite invoiceRecord_id_field, Hiid; reflexivity|].
  split; [exact Hdoc|]. split; [|split; assumption].
  destruct (Hkeeps _ _ Hinv) as (doc' & Hdoc' & Hsame).
  rewrite Hdoc in Hdoc'. injection Hdoc' as <-.
  rewrite Hsame by (apply not_bookkeeping; discriminate).
  apply lookup_union_Some_l. rewrite Hrec'. apply invoiceRecord_status.
Qed.

(** ** Calls that are refused at once *)

(** X13. A call without a user id, and a call without a truthy supplier
    name, throw before anything is read or written, with the messages
    "User ID is missing." and "Supplier name is required.". *)
Theorem finalize_requires_user_and_supplier aborted σq σ autoIds data :
  (userId data = "" \/ truthyStr (supplierName data) = false) ->
  finalizeSaveProductsService autoId now parseDate caspit rejects refuses
    aborted σq σ autoIds data
  = (Throws (if String.eqb (userId data) "" then "User ID is missing."
             else "Supplier name is required."), σ).
Proof.
  intros H. unfold finalizeSaveProductsService.
  destruct (String.eqb_spec (userId data) "") as [Hu|Hu]; [reflexivity|].
  destruct H as [H|H]; [contradiction|].
  rewrite (nonEmpty_falsy _ H). reflexivity.
Qed.

End Finalize.

(** ** The theorems at concrete calls *)

Lemma finalize_counts_on_existing_supplier_witness :
  exists r σ',
    finalizeSaveProductsService Scenarios.autoId0 Scenarios.now0
      Scenarios.parseDate0 Scenarios.caspitDown Scenarios.acceptAll
      Scenarios.acceptUpdates [] Scenarios.storeAcme Scenarios.storeAcme 0
      (Scenarios.receiptFromAcme [Scenarios.milk] receipt) = (Returns r, σ')
    /\ r.1 !! "supplierId" = Some (VStr "s1").
Proof.
  eexists _, _. split; [reflexivity|].
  refine (proj1 (finalize_counts_on_existing_supplier Scenarios.autoId0
            Scenarios.now0 Scenarios.parseDate0 Scenarios.caspitDown
            Scenarios.acceptAll Scenarios.acceptUpdates []
            Scenarios.storeAcme Scenarios.storeAcme 0
            (Scenarios.receiptFromAcme [Scenarios.milk] receipt)
            "Acme" "s1" Scenarios.acme Scenarios.acme _ _ _ _ _ _));
    reflexivity.
Defined.

Lemma finalize_creates_missing_supplier_witness :
  exists r σ',
    finalizeSaveProductsService Scenarios.autoId0 Scenarios.now0
      Scenarios.parseDate0 Scenarios.caspitDown Scenarios.acceptAll
      Scenarios.acceptUpdates [] ∅ ∅ 0
      (Scenarios.receiptFromAcme [Scenarios.milk] invoice) = (Returns r, σ')
    /\ r.1 !! "supplierId" = Some (VStr "auto").
Proof.
  eexists _, _. split; [reflexivity|].
  refine (proj1 (proj2 (finalize_creates_missing_supplier Scenarios.autoId0
            Scenarios.now0 Scenarios.parseDate0 Scenarios.caspitDown
            Scenarios.acceptAll Scenarios.acceptUpdates [] ∅ ∅ 0
            (Scenarios.receiptFromAcme [Scenarios.milk] invoice)
            "Acme" [] 0%nat _ _ _ _ _ _))); reflexivity.
Defined.

Lemma finalized_record_is_stored_witness :
  exists record saved σ',
    finalizeSaveProductsService Scenarios.autoId0 Scenarios.now0
      Scenarios.parseDate0 Scenarios.caspitDown Scenarios.acceptAll
      Scenarios.acceptUpdates [] Scenarios.storeAcme Scenarios.storeAcme 0
      (Scenarios.receiptFromAcme [Scenarios.milk] receipt)
    = (Returns (record, saved), σ')
    /\ exists invoiceId, record !! "id" = Some (VStr invoiceId).
Proof.
  eexists _, _, _. split; [reflexivity|].
  destruct (finalized_record_is_stored Scenarios.autoId0
              Scenarios.now0 Scenarios.parseDate0 Scenarios.caspitDown
              Scenarios.acceptAll Scenarios.acceptUpdates []
            Scenarios.storeAcme Scenarios.storeAcme 0
              (Scenarios.receiptFromAcme [Scenarios.milk] receipt)
              _ _ _ eq_refl) as (invoiceId & _ & _ & _ & _ & Hid & _).
  exists invoiceId. exact Hid.
Defined.

(** One attempt is aborted, the second is committed: two line items
    give four products. *)
Lemma finalize_returns_one_product_per_line_witness :
  exists record saved σ',
    finalizeSaveProductsService Scenarios.autoId0 Scenarios.now0
      Scenarios.parseDate0 Scenarios.caspitDown Scenarios.acceptAll
      Scenarios.acceptUpdates [(Scenarios.storeAcme, Scenarios.storeAcme)]
      Scenarios.storeAcme Scenarios.storeAcme 0
      (Scenarios.receiptFromAcme [Scenarios.tempLine; Scenarios.milk] receipt)
    = (Returns (record, saved), σ')
    /\ exists attempts,
         saved = concat attempts
         /\ length attempts = 2%nat
         /\ Forall (Forall2 (savedFrom "u1")
                      [Scenarios.tempLine; Scenarios.milk]) attempts.
Proof.
  destruct (finalizeSaveProductsService Scenarios.autoId0 Scenarios.now0
              Scenarios.parseDate0 Scenarios.caspitDown Scenarios.acceptAll
              Scenarios.acceptUpdates
              [(Scenarios.storeAcme, Scenarios.storeAcme)]
              Scenarios.storeAcme Scenarios.storeAcme 0
              (Scenarios.receiptFromAcme [Scenarios.tempLine; Scenarios.milk]
                 receipt))
    as [[[record saved]|e] σ'] eqn:Hrun.
  - exists record, saved, σ'. split; [reflexivity|].
    exact (finalize_returns_one_product_per_line Scenarios.autoId0
             Scenarios.now0 Scenarios.parseDate0 Scenarios.caspitDown
             Scenarios.acceptAll Scenarios.acceptUpdates
             [(Scenarios.storeAcme, Scenarios.storeAcme)]
             Scenarios.storeAcme Scenarios.storeAcme 0
             (Scenarios.receiptFromAcme [Scenarios.tempLine; Scenarios.milk]
                receipt) record saved σ' Hrun).
  - exfalso.
    assert (H : match (finalizeSaveProductsService Scenarios.autoId0
                         Scenarios.now0 Scenarios.parseDate0
                         Scenarios.caspitDown Scenarios.acceptAll
                         Scenarios.acceptUpdates
                         [(Scenarios.storeAcme, Scenarios.storeAcme)]
                         Scenarios.storeAcme Scenarios.storeAcme 0
                         (Scenarios.receiptFromAcme
                            [Scenarios.tempLine; Scenarios.milk] receipt)).1
                with
                | Returns _ => true
                | Throws _ => false
                end = true) by (vm_compute; reflexivity).
    rewrite Hrun in H. discriminate.
Defined.

Lemma finalize_upgrades_pending_document_witness :
  exists record saved σ',
    finalizeSaveProductsService Scenarios.autoId0 Scenarios.now0
      Scenarios.parseDate0 Scenarios.caspitDown Scenarios.acceptAll
      Scenarios.acceptUpdates []
      MoreScenarios.storePending MoreScenarios.storePending 0
      MoreScenarios.pendingInvoice
    = (Returns (record, saved), σ')
    /\ record !! "id" = Some (VStr "doc-1").
Proof.
  eexists _, _, _. split; [reflexivity|].
  refine (proj1 (finalize_upgrades_pending_document Scenarios.autoId0
            Scenarios.now0 Scenarios.parseDate0 Scenarios.caspitDown
            Scenarios.acceptAll Scenarios.acceptUpdates []
            MoreScenarios.storePending
            MoreScenarios.storePending 0 MoreScenarios.pendingInvoice
            "doc-1" MoreScenarios.pendingDoc _ _ _ _ _ _)); reflexivity.
Defined.

Lemma finalize_writes_only_its_documents_witness :
  exists out σ',
    finalizeSaveProductsService Scenarios.autoId0 Scenarios.now0
      Scenarios.parseDate0 Scenarios.caspitRejectingProducts
      Scenarios.acceptAll Scenarios.acceptUpdates []
      Scenarios.storeAcmeCaspit Scenarios.storeAcmeCaspit 0
      (Scenarios.receiptFromAcme [Scenarios.milk] invoice) = (out, σ')
    /\ forall ref : DocRef, ref.1.1 <> "u1" ->
         σ' !! ref = Scenarios.storeAcmeCaspit !! ref.
Proof.
  eexists _, _. split; [reflexivity|].
  refine (proj1 (finalize_writes_only_its_documents Scenarios.autoId0
            Scenarios.now0 Scenarios.parseDate0
            Scenarios.caspitRejectingProducts Scenarios.acceptAll
            Scenarios.acceptUpdates []
            Scenarios.storeAcmeCaspit Scenarios.storeAcmeCaspit 0
            (Scenarios.receiptFromAcme [Scenarios.milk] invoice) _ _ _)).
  reflexivity.
Defined.

Lemma finalize_without_pos_only_commits_witness :
  exists r σ',
    finalizeSaveProductsService Scenarios.autoId0 Scenarios.now0
      Scenarios.parseDate0 Scenarios.caspitDown Scenarios.acceptAll
      Scenarios.acceptUpdates [] Scenarios.storeAcme Scenarios.storeAcme 0
      (Scenarios.receiptFromAcme [Scenarios.milk] receipt) = (Returns r, σ')
    /\ exists name pushed ids fin tx,
         nonEmpty (Some "Acme") = Some name
         /\ earlierAttempts Scenarios.autoId0 Scenarios.parseDate0
              (Scenarios.receiptFromAcme [Scenarios.milk] receipt) name [] 0
            = Returns (pushed, ids)
         /\ finalizeTransaction Scenarios.autoId0 Scenarios.parseDate0
              Scenarios.storeAcme Scenarios.storeAcme
              (Scenarios.receiptFromAcme [Scenarios.milk] receipt) name
              pushed (mkTx [] ids) = Returns (fin, tx)
         /\ r = (finalInvoiceRecord fin, savedOrUpdatedProducts fin)
         /\ applyWrites Scenarios.acceptAll (staged tx) Scenarios.storeAcme
            = Some σ'.
Proof.
  eexists _, _. split; [reflexivity|].
  apply (finalize_without_pos_only_commits Scenarios.autoId0
           Scenarios.now0 Scenarios.parseDate0 Scenarios.caspitDown
           Scenarios.acceptAll Scenarios.acceptUpdates []
            Scenarios.storeAcme Scenarios.storeAcme 0
           (Scenarios.receiptFromAcme [Scenarios.milk] receipt));
    reflexivity.
Defined.

Lemma finalize_with_unsupported_pos_records_error_witness :
  exists r σ',
    finalizeSaveProductsService Scenarios.autoId0 Scenarios.now0
      Scenarios.parseDate0 Scenarios.caspitDown Scenarios.acceptAll
      Scenarios.acceptUpdates []
      MoreScenarios.storeAcmeHashavshevet MoreScenarios.storeAcmeHashavshevet
      0 (Scenarios.receiptFromAcme [Scenarios.milk] invoice) = (Returns r, σ')
    /\ exists invoiceId (doc : gmap string value),
         r.1 !! "id" = Some (VStr invoiceId)
         /\ σ' !! ("u1", DOCUMENTS_SUBCOLLECTION, invoiceId) = Some doc
         /\ getPath ["syncStatus"; "error"] doc
            = Some (VStr
                ("POS Sync Failed: POS supplier sync failed: " ++
                 "Method 'upsertSupplier' not implemented for Hashavshevet.")).
Proof.
  eexists _, _. split; [reflexivity|].
  edestruct (finalize_with_unsupported_pos_records_error Scenarios.autoId0
              Scenarios.now0 Scenarios.parseDate0 Scenarios.caspitDown
              Scenarios.acceptAll Scenarios.acceptUpdates []
              MoreScenarios.storeAcmeHashavshevet
              MoreScenarios.storeAcmeHashavshevet 0
              (Scenarios.receiptFromAcme [Scenarios.milk] invoice) "Acme"
              (list_to_map [("systemId", VStr "hashavshevet")])
              "hashavshevet")
    as (invoiceId & doc & Hid & Hdoc & _ & _ & Herr).
  - intros k. discriminate.
  - reflexivity.
  - exists MoreScenarios.hashavshevetSettings. split; reflexivity.
  - reflexivity.
  - discriminate.
  - discriminate.
  - intros sid found old Hq Hold.
    assert (Hq' : queryFirst MoreScenarios.storeAcmeHashavshevet "u1"
                    SUPPLIERS_SUBCOLLECTION (supplierNamed "Acme")
                  = Some ("s1", Scenarios.acme)) by reflexivity.
    simpl in Hq. rewrite Hq' in Hq. injection Hq as <- _.
    assert (Hold' : MoreScenarios.storeAcmeHashavshevet
                      !! ("u1", SUPPLIERS_SUBCOLLECTION, "s1")
                    = Some Scenarios.acme) by reflexivity.
    simpl in Hold. rewrite Hold' in Hold. injection Hold as <-.
    split; [discriminate|reflexivity].
  - reflexivity.
  - exists invoiceId, doc. auto.
Defined.

Lemma finalize_requires_user_and_supplier_witness :
  finalizeSaveProductsService Scenarios.autoId0 Scenarios.now0
    Scenarios.parseDate0 Scenarios.caspitDown Scenarios.acceptAll
    Scenarios.acceptUpdates [] Scenarios.storeAcme Scenarios.storeAcme 0
    MoreScenarios.unnamedInvoice
  = (Throws "Supplier name is required.", Scenarios.storeAcme).
Proof.
  apply (finalize_requires_user_and_supplier Scenarios.autoId0
           Scenarios.now0 Scenarios.parseDate0 Scenarios.caspitDown
           Scenarios.acceptAll Scenarios.acceptUpdates []
            Scenarios.storeAcme Scenarios.storeAcme 0
           MoreScenarios.unnamedInvoice).
  right. reflexivity.
Defined.

(** ** A transaction that is tried again *)

(** The first attempt is aborted and the second is committed. The call
    returns the product of both attempts; the id of the first names no
    inventory record, and the ids the first attempt took are not taken
    again. *)
Example retried_transaction_example :
  let run :=
    finalizeSaveProductsService Scenarios.autoId0 Scenarios.now0
      Scenarios.parseDate0 Scenarios.caspitDown Scenarios.acceptAll
      Scenarios.acceptUpdates [(Scenarios.storeAcme, Scenarios.storeAcme)]
      Scenarios.storeAcme Scenarios.storeAcme 0
      (Scenarios.receiptFromAcme [Scenarios.milk] receipt) in
  match run.1 with
  | Returns (record, saved) =>
      record !! "id" = Some (VStr (Scenarios.autoId0 3))
      /\ List.map (fun s : DocData => s !! "id") saved
         = [Some (VStr (Scenarios.autoId0 0));
            Some (VStr (Scenarios.autoId0 2))]
  | Throws _ => False
  end
  /\ List.map
       (fun k =>
          match run.2 !! ("u1", "inventoryProducts", Scenarios.autoId0 k) with
          | Some d => (d : DocData) !! "name"
          | None => None
          end)
       [0; 1; 2; 3]%nat
     = [None; None; Some (VStr "Milk"); None].
Proof. split; vm_compute; [split|]; reflexivity. Qed.

(** A transaction gives up when its fifth attempt is aborted. *)
Example transaction_gives_up_example :
  finalizeSaveProductsService Scenarios.autoId0 Scenarios.now0
    Scenarios.parseDate0 Scenarios.caspitDown Scenarios.acceptAll
    Scenarios.acceptUpdates
    (replicate 5 (Scenarios.storeAcme, Scenarios.storeAcme))
    Scenarios.storeAcme Scenarios.storeAcme 0
    (Scenarios.receiptFromAcme [Scenarios.milk] receipt)
  = (Throws "Transaction failed: the commit was aborted", Scenarios.storeAcme).
Proof. reflexivity. Qed.

End FinalizeFacts.
(** * Facts about the other services *)

Module ServicesFacts.

Import Firestore Backend Services FinalizeSpec.
Import FirestoreFacts JsFacts BackendFacts FinalizeFacts.

(** ** Queries *)

Lemma elem_of_queryAll (σ : Store) userId collection P i (d : DocData) :
  (i, d) ∈ queryAll σ userId collection P
  <-> σ !! (userId, collection, i) = Some d /\ P d = true.
Proof.
  unfold queryAll. rewrite list_elem_of_omap. split.
  - intros ([[[u c] j] d'] & Hin & Hsel).
    apply elem_of_map_to_list in Hin.
    destruct (String.eqb_spec u userId) as [->|]; [|discriminate].
    destruct (String.eqb_spec c collection) as [->|]; [|discriminate].
    simpl in Hsel. destruct (P d') eqn:HP; [|discriminate].
    injection Hsel as <- <-. auto.
  - intros [Hd HP]. exists ((userId, collection, i), d).
    split; [apply elem_of_map_to_list; assumption|].
    rewrite !String.eqb_refl, HP. reflexivity.
Qed.

Lemma fieldIs_true k v (d : DocData) :
  fieldIs k v d = true <-> d !! k = Some (VStr v).
Proof.
  unfold fieldIs. destruct (d !! k) as [[]|]; try (split; discriminate).
  split.
  - intros H. apply String.eqb_eq in H. congruence.
  - intros [= ->]. apply String.eqb_refl.
Qed.

(** ** Payment status *)

Lemma updateDoc_fields (σ : Store) ref updates (d : DocData) :
  σ !! ref = Some d ->
  syncUpdateDoc ref updates σ
  = (Returns tt, <[ref := applyUpdates updates d]> σ).
Proof. intros H. unfold syncUpdateDoc, updateDoc. rewrite H. reflexivity. Qed.

Lemma updateDoc_missing (σ : Store) ref updates :
  σ !! ref = None ->
  syncUpdateDoc ref updates σ = (Throws "No document to update", σ).
Proof. intros H. unfold syncUpdateDoc, updateDoc. rewrite H. reflexivity. Qed.

Lemma updateInvoicePaymentStatusService_writes (σ : Store) invoiceId status userId uri
    (doc : DocData) :
  invoiceId <> "" -> userId <> "" ->
  σ !! (userId, DOCUMENTS_SUBCOLLECTION, invoiceId) = Some doc ->
  exists doc' : DocData,
    updateInvoicePaymentStatusService invoiceId status userId uri σ
    = (Returns tt, <[(userId, DOCUMENTS_SUBCOLLECTION, invoiceId) := doc']> σ)
    /\ doc' !! "paymentStatus" = Some (VStr (paymentStatusName status))
    /\ doc' !! "paymentReceiptImageUri"
       = match status, uri with
         | paid, Some image => Some (strOrNullRaw image)
         | paid, None => doc !! "paymentReceiptImageUri"
         | _, _ => Some VNull
         end
    /\ forall k, k <> "paymentStatus" -> k <> "paymentReceiptImageUri" ->
                 doc' !! k = doc !! k.
Proof.
  intros Hi Hu Hdoc. unfold updateInvoicePaymentStatusService.
  unfold syncBind, syncLift. rewrite docRef_returns by assumption.
  rewrite (updateDoc_fields _ _ _ _ Hdoc). eexists. split; [reflexivity|].
  unfold applyUpdates.
  destruct status; [destruct uri as [image|]|..]; cbn [fold_left fst snd setPath];
    (split; [|split]);
    rewrite ?lookup_insert_eq; try reflexivity;
    try (rewrite lookup_insert_ne by discriminate; apply lookup_insert_eq);
    try (apply lookup_insert_ne; discriminate);
    try (intros k H1 H2; rewrite !lookup_insert_ne by auto; reflexivity).
Qed.


Lemma linkReceiptToInvoiceAction_outcome (σ : Store) invoiceId userId receiptDataUri :
  exists result σ',
    linkReceiptToInvoiceAction invoiceId userId receiptDataUri σ
    = (Returns result, σ')
    /\ (success result = true
        <-> invoiceId <> "" /\ userId <> "" /\ receiptDataUri <> ""
            /\ is_Some (σ !! (userId, DOCUMENTS_SUBCOLLECTION, invoiceId)))
    /\ (success result = false -> σ' = σ)
    /\ (success result = true ->
        exists doc doc' : DocData,
          σ !! (userId, DOCUMENTS_SUBCOLLECTION, invoiceId) = Some doc
          /\ σ' = <[(userId, DOCUMENTS_SUBCOLLECTION, invoiceId) := doc']> σ
          /\ doc' !! "paymentStatus" = Some (VStr "paid")
          /\ doc' !! "paymentReceiptImageUri" = Some (VStr receiptDataUri)
          /\ forall k, k <> "paymentStatus" ->
                       k <> "paymentReceiptImageUri" -> doc' !! k = doc !! k)
    /\ (receiptDataUri = "" ->
        message result = "Missing required data to link receipt.").
Proof.
  unfold linkReceiptToInvoiceAction, syncCatch.
  destruct (String.eqb_spec invoiceId "") as [Hi|Hi].
  { eexists _, _. split; [reflexivity|]. simpl.
    repeat split; try discriminate; tauto. }
  destruct (String.eqb_spec userId "") as [Hu|Hu].
  { eexists _, _. split; [reflexivity|]. simpl.
    repeat split; try discriminate; tauto. }
  destruct (String.eqb_spec receiptDataUri "") as [Hr|Hr].
  { eexists _, _. split; [reflexivity|]. simpl.
    repeat split; try discriminate; tauto. }
  change (false || false || false) with false. cbv iota.
  destruct (σ !! (userId, DOCUMENTS_SUBCOLLECTION, invoiceId)) as [doc|]
    eqn:Hdoc.
  - destruct (updateInvoicePaymentStatusService_writes σ invoiceId paid userId
                (Some (Some receiptDataUri)) doc Hi Hu Hdoc)
      as (doc' & Hrun & Hpaid & Himg & Hrest).
    rewrite (syncBind_returns_step _ _ _ _ _ Hrun).
    eexists _, _. split; [reflexivity|]. simpl.
    split; [split; eauto|]. split; [discriminate|].
    split; [|contradiction]. intros _. exists doc, doc'. auto.
  - assert (Hrun : updateInvoicePaymentStatusService invoiceId paid userId
                     (Some (Some receiptDataUri)) σ
                   = (Throws "No document to update", σ)).
    { unfold updateInvoicePaymentStatusService, syncBind, syncLift.
      rewrite docRef_returns by assumption.
      apply updateDoc_missing, Hdoc. }
    rewrite (syncBind_throws_step _ _ _ _ _ Hrun).
    eexists _, _. split; [reflexivity|]. simpl.
    split; [split; [discriminate|]|].
    { intros (_ & _ & _ & [? ?]). discriminate. }
    repeat split; try discriminate; try contradiction.
Qed.


(** ** The product life cycle *)







(** X18. A product that does not exist cannot be deleted, updated or
    reactivated: each of the three services throws (the first two with
    "Product not found for deactivation." and "Product not found for
    update.") and leaves the store as it was; none of them creates the
    document. *)
Theorem missing_product_is_refused (caspit : PosAdapter) (σ : Store) productId userId
    (productData : DocData) :
  productId <> "" -> userId <> "" ->
  σ !! (userId, INVENTORY_SUBCOLLECTION, productId) = None ->
  deleteProductService caspit productId userId σ
  = (Throws "Product not found for deactivation.", σ)
  /\ updateProductService caspit productId productData userId σ
     = (Throws "Product not found for update.", σ)
  /\ exists e, reactivateProductService productId userId σ = (Throws e, σ).
Proof.
  intros Hp Hu Hnone. split; [|split].
  - unfold deleteProductService, syncBind, syncLift, syncGetDoc.
    rewrite docRef_returns by assumption. rewrite Hnone. reflexivity.
  - unfold updateProductService.
    destruct (String.eqb_spec userId ""); [contradiction|].
    unfold syncBind, syncLift, syncGetDoc.
    rewrite docRef_returns by assumption. rewrite Hnone. reflexivity.
  - unfold reactivateProductService, syncBind, syncLift.
    rewrite docRef_returns by assumption.
    rewrite (updateDoc_missing _ _ _ Hnone). eauto.
Qed.

(** ** The linking lists after a finalization *)

Lemma orderByDate_subset dateBefore docs x :
  x ∈ orderByDate dateBefore docs -> x ∈ docs.
Proof.
  assert (Hins : forall doc v sorted,
            x ∈ insertByDate dateBefore doc v sorted -> x = doc \/ x ∈ sorted).
  { intros doc v sorted. induction sorted as [|doc' rest IH]; simpl.
    - intros H. apply list_elem_of_singleton in H. auto.
    - destruct (doc'.2 !! "date") as [v'|].
      + destruct (dateBefore v' v).
        * intros H. apply elem_of_cons in H as [->|H]; [right; left|].
          destruct (IH H) as [->|?]; [auto|right; right; assumption].
        * intros H. apply elem_of_cons in H as [->|H]; auto.
      + intros H. apply elem_of_cons in H as [->|H]; auto. }
  induction docs as [|doc docs IH]; simpl; [auto|].
  destruct (doc.2 !! "date") as [v|].
  - intros H. apply Hins in H as [->|H]; [left|right; auto].
  - intros H. right. auto.
Qed.

Section AfterFinalize.

Variable autoId : nat -> string.
Variable now : string.
Variable parseDate : string -> option Z.
Variable caspit : PosAdapter.
Variable rejects : DocRef -> bool.
Variable refuses : DocRef -> list (list string * value) -> option string.

Lemma invoiceRecord_documentType data name pending invoiceId supplierId saved :
  invoiceRecord parseDate data name pending invoiceId supplierId saved
    !! "documentType" = Some (VStr (docTypeName (docType data))).
Proof. reflexivity. Qed.

Lemma invoiceRecord_not_linked data name pending invoiceId supplierId saved :
  invoiceRecord parseDate data name pending invoiceId supplierId saved
    !! "linkedToInvoiceId" = None.
Proof. reflexivity. Qed.

(** The document a call that returns leaves for the invoice. *)
Lemma finalize_stored_invoice aborted σq σ autoIds data record saved σ' :
  finalizeSaveProductsService autoId now parseDate caspit rejects refuses
    aborted σq σ autoIds data = (Returns (record, saved), σ') ->
  exists iid sid (doc : DocData),
    record !! "id" = Some (VStr iid)
    /\ record !! "supplierId" = Some (VStr sid)
    /\ σ' !! (userId data, DOCUMENTS_SUBCOLLECTION, iid) = Some doc
    /\ doc !! "status" = Some (VStr "completed")
    /\ doc !! "supplierId" = Some (VStr sid)
    /\ doc !! "documentType" = Some (VStr (docTypeName (docType data)))
    /\ doc !! "paymentStatus"
       = Some (VStr (match docType data with
                     | receipt | invoiceReceipt => "paid"
                     | _ => "unpaid"
                     end))
    /\ doc !! "linkedToInvoiceId"
       = default ∅ (σ !! (userId data, DOCUMENTS_SUBCOLLECTION, iid))
           !! "linkedToInvoiceId".
Proof.
  intros Hrun. apply finalize_returns_inv in Hrun
    as (name & pushed & ids & fin & tx & σc & Hu & Hname & He & Htx & Hc
        & _ & Hr & Hkeeps).
  injection Hr as -> ->.
  pose proof (committed_invoice_doc autoId parseDate rejects _ _ _ _ _ _ _ _
                _ Htx Hc) as Hinv.
  destruct (Hkeeps _ _ Hinv) as (doc & Hdoc & Hsame).
  apply finalizeTransaction_detail in Htx
    as (pending & wsup & items & iid & _ & Hrec & _).
  assert (Hiid : invoiceIdOf fin = iid).
  { unfold invoiceIdOf. rewrite Hrec. reflexivity. }
  rewrite Hiid in *.
  exists iid, (finalSupplierId fin), doc.
  split; [rewrite Hrec at 1; apply invoiceRecord_id_field|].
  split; [rewrite Hrec at 1; apply invoiceRecord_supplierId|].
  split; [exact Hdoc|].
  split; [rewrite Hsame by (apply not_bookkeeping; discriminate);
          apply lookup_union_Some_l; rewrite Hrec at 1;
          apply invoiceRecord_status|].
  split; [rewrite Hsame by (apply not_bookkeeping; discriminate);
          apply lookup_union_Some_l; rewrite Hrec at 1;
          apply invoiceRecord_supplierId|].
  split; [rewrite Hsame by (apply not_bookkeeping; discriminate);
          apply lookup_union_Some_l; rewrite Hrec at 1;
          apply invoiceRecord_documentType|].
  split; [rewrite Hsame by (apply not_bookkeeping; discriminate);
          apply lookup_union_Some_l; rewrite Hrec at 1;
          apply invoiceRecord_paymentStatus|].
  rewrite Hsame by (apply not_bookkeeping; discriminate).
  apply lookup_union_r. rewrite Hrec at 1. apply invoiceRecord_not_linked.
Qed.

(** X19. The unpaid invoices of a supplier, as the link-invoice sheet
    reads them, hold a finalized document exactly when it is an invoice:
    a finalized invoice is in the list of its supplier, and a finalized
    delivery note, receipt or invoice-receipt is in the list of no
    supplier. *)
Theorem finalized_invoices_are_listed_unpaid aborted σq σ autoIds data
    record saved σ' :
  finalizeSaveProductsService autoId now parseDate caspit rejects refuses
    aborted σq σ autoIds data = (Returns (record, saved), σ') ->
  exists iid sid,
    record !! "id" = Some (VStr iid)
    /\ record !! "supplierId" = Some (VStr sid)
    /\ (docType data = invoice ->
        exists doc, (iid, doc) ∈ unpaidInvoiceDocs σ' sid (userId data))
    /\ (docType data <> invoice ->
        forall s, iid ∉ (unpaidInvoiceDocs σ' s (userId data)).*1).
Proof.
  intros Hrun. apply finalize_stored_invoice in Hrun
    as (iid & sid & doc & Hid & Hsid & Hdoc & _ & Hs & Ht & Hp & _).
  exists iid, sid. split; [exact Hid|]. split; [exact Hsid|]. split.
  - intros Hinv. exists doc. apply elem_of_queryAll. split; [exact Hdoc|].
    rewrite Hinv in Ht, Hp.
    rewrite !andb_true_iff, !fieldIs_true. auto.
  - intros Hne s Hin. apply list_elem_of_fmap in Hin as ([i d] & Heq & Hin).
    simpl in Heq. subst i.
    apply elem_of_queryAll in Hin as [Hd HP]. simpl in Hd.
    rewrite Hdoc in Hd. injection Hd as <-.
    rewrite !andb_true_iff, !fieldIs_true in HP.
    destruct HP as [[_ Hunpaid] Htype]. rewrite Ht in Htype.
    destruct (docType data); try discriminate. contradiction.
Qed.

(** X20. [getInvoicesByStatusService] filters on the field [status], and
    every finalized document has [status = "completed"], which is none of
    the values the service can be asked for: a document the finalizer has
    just written is in the result for no status, with or without a
    supplier, in whatever order the store sorts. *)
Theorem finalized_documents_escape_the_status_filter aborted σq σ autoIds
    data record saved σ' dateBefore status supplierId :
  finalizeSaveProductsService autoId now parseDate caspit rejects refuses
    aborted σq σ autoIds data = (Returns (record, saved), σ') ->
  exists iid,
    record !! "id" = Some (VStr iid)
    /\ iid ∉ (invoicesByStatusDocs dateBefore σ' (userId data) status
                supplierId).*1.
Proof.
  intros Hrun. apply finalize_stored_invoice in Hrun
    as (iid & sid & doc & Hid & _ & Hdoc & Hstatus & _).
  exists iid. split; [exact Hid|]. intros Hin.
  apply list_elem_of_fmap in Hin as ([i d] & Heq & Hin).
  simpl in Heq. subst i.
  apply orderByDate_subset, elem_of_queryAll in Hin as [Hd HP].
  simpl in Hd. rewrite Hdoc in Hd. injection Hd as <-.
  apply andb_true_iff in HP as [HP _]. apply fieldIs_true in HP.
  rewrite Hstatus in HP. destruct status; discriminate.
Qed.

(** X21. The finalizer never writes the field [linkedToInvoiceId], and the
    unlinked delivery notes are read with the filter
    [linkedToInvoiceId == null], which a document without the field does
    not pass: a finalized document that did not have the field before
    (every newly created one) is in the list of unlinked delivery notes
    of no supplier. *)
Theorem finalized_documents_are_not_unlinked_notes aborted σq σ autoIds
    data record saved σ' iid :
  finalizeSaveProductsService autoId now parseDate caspit rejects refuses
    aborted σq σ autoIds data = (Returns (record, saved), σ') ->
  record !! "id" = Some (VStr iid) ->
  default ∅ (σ !! (userId data, DOCUMENTS_SUBCOLLECTION, iid))
    !! "linkedToInvoiceId" = None ->
  forall s, iid ∉ (unlinkedDeliveryNoteDocs σ' s (userId data)).*1.
Proof.
  intros Hrun Hid Hold s Hin. apply finalize_stored_invoice in Hrun
    as (iid' & sid & doc & Hid' & _ & Hdoc & _ & _ & _ & _ & Hlinked).
  rewrite Hid in Hid'. injection Hid' as <-.
  apply list_elem_of_fmap in Hin as ([i d] & Heq & Hin).
  simpl in Heq. subst i.
  apply elem_of_queryAll in Hin as [Hd HP]. simpl in Hd.
  rewrite Hdoc in Hd. injection Hd as <-.
  apply andb_true_iff in HP as [_ HP]. unfold fieldIsNull in HP.
  rewrite Hlinked, Hold in HP. discriminate.
Qed.

End AfterFinalize.

(** X22. Once a receipt is linked to an invoice, the invoice is an unpaid
    invoice of no supplier any more, and for every other document nothing
    changes: it is in a supplier's list of unpaid invoices after the call
    exactly if it was before. *)
Theorem linked_receipt_leaves_the_unpaid_list (σ : Store) invoiceId userId
    receiptDataUri result σ' :
  linkReceiptToInvoiceAction invoiceId userId receiptDataUri σ
  = (Returns result, σ') ->
  success result = true ->
  (forall s, invoiceId ∉ (unpaidInvoiceDocs σ' s userId).*1)
  /\ (forall s i d, i <> invoiceId ->
        (i, d) ∈ unpaidInvoiceDocs σ' s userId
        <-> (i, d) ∈ unpaidInvoiceDocs σ s userId).
Proof.
  intros Hrun Hok.
  destruct (linkReceiptToInvoiceAction_outcome σ invoiceId userId
              receiptDataUri) as (result' & σ1 & Hrun' & _ & _ & Hdone & _).
  rewrite Hrun in Hrun'. injection Hrun' as <- <-.
  destruct (Hdone Hok) as (doc & doc' & Hdoc & -> & Hpaid & _).
  split.
  - intros s Hin. apply list_elem_of_fmap in Hin as ([i d] & Heq & Hin).
    simpl in Heq. subst i.
    apply elem_of_queryAll in Hin as [Hd HP]. simpl in Hd.
    rewrite lookup_insert_eq in Hd. injection Hd as <-.
    rewrite !andb_true_iff, !fieldIs_true in HP.
    destruct HP as [[_ Hunpaid] _]. rewrite Hpaid in Hunpaid. discriminate.
  - intros s i d Hne. unfold unpaidInvoiceDocs.
    rewrite !elem_of_queryAll, lookup_insert_ne; [reflexivity|].
    intros [= ?]. auto.
Qed.

(** ** Suppliers *)


(** ** Batches of products *)

Section BatchFacts.

Variable autoId : nat -> string.
Variable rejects : DocRef -> bool.

Lemma upsertOne_detail (userId : string) (m : gmap string DocData)
    (product : DocData) tx tx' :
  upsertOne autoId userId m product tx = Returns (tt, tx') ->
  exists w i,
    staged tx' = (staged tx ++ [w])%list
    /\ writeRef w = (userId, INVENTORY_SUBCOLLECTION, i)
    /\ writeData w !! "isActive" = Some (VBool true)
    /\ forall k, k ∉ ["id"; "userId"; "lastUpdated"; "createdAt"; "isActive"] ->
                 writeData w !! k = product !! k.
Proof.
  unfold upsertOne.
  assert (Hcreate :
    txBind txNewId
      (fun n => txStage
         (WSet (userId, INVENTORY_SUBCOLLECTION, autoId n)
            (<["isActive" := VBool true]>
               (<["createdAt" := VServerTimestamp]>
                  (<["lastUpdated" := VServerTimestamp]>
                     (<["userId" := VStr userId]>
                        (<["id" := VStr (autoId n)]> product))))) false)) tx
    = Returns (tt, tx') ->
    exists w i,
      staged tx' = (staged tx ++ [w])%list
      /\ writeRef w = (userId, INVENTORY_SUBCOLLECTION, i)
      /\ writeData w !! "isActive" = Some (VBool true)
      /\ forall k,
           k ∉ ["id"; "userId"; "lastUpdated"; "createdAt"; "isActive"] ->
           writeData w !! k = product !! k).
  { unfold txBind, txNewId, txStage. simpl. intros [= <-].
    eexists _, _. simpl. split; [reflexivity|]. split; [reflexivity|].
    split; [apply lookup_insert_eq|]. intros k Hk.
    assert (k <> "id" /\ k <> "userId" /\ k <> "lastUpdated"
            /\ k <> "createdAt" /\ k <> "isActive") as (?&?&?&?&?).
    { repeat split; intros ->; apply Hk; set_solver. }
    cbn [writeData]. rewrite !lookup_insert_ne by auto. reflexivity. }
  destruct (lookupExisting m product) as [existing|]; [|exact Hcreate].
  destruct (existing !! "id") as [v|]; [|exact Hcreate].
  unfold txBind, txLift, existingProductRef.
  destruct v; try (destruct (truthy _); discriminate).
  destruct (getUserSubcollectionDocRef _ _ _) as [ref|] eqn:E; [|discriminate].
  apply docRef_shape in E as (-> & _). simpl. intros [= <-].
  eexists _, _. simpl. split; [reflexivity|]. split; [reflexivity|].
  split; [apply lookup_insert_eq|]. intros k Hk.
  assert (k <> "lastUpdated" /\ k <> "isActive") as (?&?).
  { repeat split; intros ->; apply Hk; set_solver. }
  cbn [writeData]. rewrite !lookup_insert_ne by auto. reflexivity.
Qed.

Lemma upsertAll_detail (userId : string) (m : gmap string DocData)
    (products : list DocData) count tx n tx' :
  upsertAll autoId userId m products count tx = Returns (n, tx') ->
  n = (count + length products)%nat
  /\ exists ws,
       staged tx' = (staged tx ++ ws)%list
       /\ Forall2
            (fun product w =>
               (exists i, writeRef w = (userId, INVENTORY_SUBCOLLECTION, i))
               /\ writeData w !! "isActive" = Some (VBool true)
               /\ forall k,
                    k ∉ ["id"; "userId"; "lastUpdated"; "createdAt";
                         "isActive"] ->
                    writeData w !! k = product !! k)
            products ws.
Proof.
  revert count tx. induction products as [|p ps IH]; intros count tx; simpl.
  - intros [= <- <-]. split; [lia|]. exists []. rewrite app_nil_r.
    split; [reflexivity|constructor].
  - intros H. apply txBind_returns in H as ([] & t1 & H1 & H2).
    apply upsertOne_detail in H1 as (w & i & Hst & Href & Hact & Hsame).
    apply IH in H2 as (-> & ws & Hst2 & Hall).
    split; [lia|]. exists (w :: ws).
    rewrite Hst2, Hst, <- app_assoc. split; [reflexivity|].
    constructor; eauto.
Qed.

(** X28. A batch upsert that returns has counted every product it was
    given, once, whether it updated a record or created one: the number
    it returns is the number of products. It has committed one write per
    product, in order, each to the user's inventory, each carrying the
    product's own fields and [isActive = true]; so every inventory record
    the batch touched is active afterwards, also one that had been
    deleted. *)
Theorem batch_upsert_counts_and_activates (σ : Store) autoIds products userId
    n σ' :
  batchUpsertProductsService autoId rejects σ autoIds products userId
  = (Returns n, σ') ->
  n = length products
  /\ exists ws,
       applyWrites rejects ws σ = Some σ'
       /\ Forall2
            (fun product w =>
               (exists i, writeRef w = (userId, INVENTORY_SUBCOLLECTION, i))
               /\ (forall k,
                     k ∉ ["id"; "userId"; "lastUpdated"; "createdAt";
                          "isActive"] ->
                     writeData w !! k = product !! k)
               /\ activeAt σ' (writeRef w))
            products ws.
Proof.
  unfold batchUpsertProductsService.
  destruct (getUserSubcollectionRef _ _); [|discriminate].
  unfold commitOnce.
  destruct (upsertAll _ _ _ _ _ _) as [[n' tx]|] eqn:Hall; [|discriminate].
  destruct (applyWrites _ _ _) as [σc|] eqn:Hc; [|discriminate].
  intros [= <- <-].
  apply upsertAll_detail in Hall as (-> & ws & Hst & Hws).
  simpl in Hst. rewrite Hst in Hc. split; [reflexivity|]. exists ws.
  split; [exact Hc|].
  assert (Hact : Forall (fun w => writeData w !! "isActive"
                                  = Some (VBool true)) ws).
  { clear -Hws. induction Hws as [|p w ps ws (_ & ? & _) _ IH];
      constructor; assumption. }
  assert (Hin : forall w, w ∈ ws -> activeAt σc (writeRef w)).
  { intros w Hw. eapply applyWrites_active; [exact Hc|exact Hact|].
    right. eauto. }
  clear -Hws Hin. induction Hws as [|p w ps ws (Href & _ & Hsame) _ IH];
    constructor.
  - split; [assumption|]. split; [assumption|]. apply Hin. left.
  - apply IH. intros w' Hw'. apply Hin. right. assumption.
Qed.

End BatchFacts.

(** ** The theorems at concrete calls *)




Lemma missing_product_is_refused_witness :
  deleteProductService Scenarios.caspitDown "p-2" "u1"
    MoreScenarios.storeOliveOil
  = (Throws "Product not found for deactivation.", MoreScenarios.storeOliveOil).
Proof.
  refine (proj1 (missing_product_is_refused Scenarios.caspitDown
                   MoreScenarios.storeOliveOil "p-2" "u1" ∅ _ _ _));
    [discriminate|discriminate|reflexivity].
Defined.

Lemma finalized_invoices_are_listed_unpaid_witness :
  exists record saved σ',
    finalizeSaveProductsService Scenarios.autoId0 Scenarios.now0
      Scenarios.parseDate0 Scenarios.caspitDown Scenarios.acceptAll
      Scenarios.acceptUpdates []
      Scenarios.storeAcme Scenarios.storeAcme 0
      (Scenarios.receiptFromAcme [Scenarios.milk] invoice)
    = (Returns (record, saved), σ')
    /\ exists iid sid doc,
         record !! "id" = Some (VStr iid)
         /\ (iid, doc) ∈ unpaidInvoiceDocs σ' sid "u1".
Proof.
  eexists _, _, _. split; [reflexivity|].
  destruct (finalized_invoices_are_listed_unpaid Scenarios.autoId0
              Scenarios.now0 Scenarios.parseDate0 Scenarios.caspitDown
              Scenarios.acceptAll Scenarios.acceptUpdates []
              Scenarios.storeAcme Scenarios.storeAcme 0
              (Scenarios.receiptFromAcme [Scenarios.milk] invoice)
              _ _ _ eq_refl) as (iid & sid & Hid & _ & Hin & _).
  destruct (Hin eq_refl) as [doc Hdoc].
  exists iid, sid, doc. split; [exact Hid|exact Hdoc].
Defined.

Lemma finalized_documents_escape_the_status_filter_witness :
  exists record saved σ',
    finalizeSaveProductsService Scenarios.autoId0 Scenarios.now0
      Scenarios.parseDate0 Scenarios.caspitDown Scenarios.acceptAll
      Scenarios.acceptUpdates []
      Scenarios.storeAcme Scenarios.storeAcme 0
      (Scenarios.receiptFromAcme [Scenarios.milk] invoice)
    = (Returns (record, saved), σ')
    /\ exists iid,
         record !! "id" = Some (VStr iid)
         /\ iid ∉ (invoicesByStatusDocs (fun _ _ => true) σ' "u1" byUnpaid
                     None).*1.
Proof.
  eexists _, _, _. split; [reflexivity|].
  apply (finalized_documents_escape_the_status_filter Scenarios.autoId0
           Scenarios.now0 Scenarios.parseDate0 Scenarios.caspitDown
           Scenarios.acceptAll Scenarios.acceptUpdates []
           Scenarios.storeAcme Scenarios.storeAcme 0
           (Scenarios.receiptFromAcme [Scenarios.milk] invoice)
           _ _ _ (fun _ _ => true) byUnpaid None eq_refl).
Defined.

Lemma finalized_documents_are_not_unlinked_notes_witness :
  exists record saved σ',
    finalizeSaveProductsService Scenarios.autoId0 Scenarios.now0
      Scenarios.parseDate0 Scenarios.caspitDown Scenarios.acceptAll
      Scenarios.acceptUpdates []
      Scenarios.storeAcme Scenarios.storeAcme 0
      (Scenarios.receiptFromAcme [Scenarios.milk] deliveryNote)
    = (Returns (record, saved), σ')
    /\ forall s, "auto'" ∉ (unlinkedDeliveryNoteDocs σ' s "u1").*1.
Proof.
  eexists _, _, _. split; [reflexivity|].
  apply (finalized_documents_are_not_unlinked_notes Scenarios.autoId0
           Scenarios.now0 Scenarios.parseDate0 Scenarios.caspitDown
           Scenarios.acceptAll Scenarios.acceptUpdates []
           Scenarios.storeAcme Scenarios.storeAcme 0
           (Scenarios.receiptFromAcme [Scenarios.milk] deliveryNote)
           _ _ _ "auto'" eq_refl); reflexivity.
Defined.

Lemma linked_receipt_leaves_the_unpaid_list_witness :
  exists result σ',
    linkReceiptToInvoiceAction "inv-7" "u1" MoreScenarios.receiptImage
      MoreScenarios.storeUnpaid = (Returns result, σ')
    /\ forall s, "inv-7" ∉ (unpaidInvoiceDocs σ' s "u1").*1.
Proof.
  eexists _, _. split; [reflexivity|].
  refine (proj1 (linked_receipt_leaves_the_unpaid_list
                   MoreScenarios.storeUnpaid "inv-7" "u1"
                   MoreScenarios.receiptImage _ _ eq_refl _)).
  reflexivity.
Defined.

Lemma batch_upsert_counts_and_activates_witness :
  exists n σ',
    batchUpsertProductsService Scenarios.autoId0 Scenarios.acceptAll
      MoreScenarios.storeOliveOil 0
      [MoreScenarios.importedOliveOil; MoreScenarios.importedSalt] "u1"
    = (Returns n, σ')
    /\ n = 2%nat.
Proof.
  eexists _, _. split; [reflexivity|].
  refine (proj1 (batch_upsert_counts_and_activates Scenarios.autoId0
                   Scenarios.acceptAll MoreScenarios.storeOliveOil 0
                   [MoreScenarios.importedOliveOil; MoreScenarios.importedSalt]
                   "u1" _ _ _)).
  reflexivity.
Defined.


End ServicesFacts.
(** * Facts about the temporary scan data *)

Module LocalStorageFacts.

Import Firestore LocalStorage JsFacts.

Lemma endsWith_unfold s suffix :
  endsWith s suffix
  = String.eqb s suffix
    || match s with
       | EmptyString => false
       | String _ rest => endsWith rest suffix
       end.
Proof. destruct s; reflexivity. Qed.

Lemma endsWith_refl s : endsWith s s = true.
Proof. rewrite endsWith_unfold, String.eqb_refl. reflexivity. Qed.

Lemma endsWith_app a b suffix :
  endsWith b suffix = true -> endsWith (a ++ b) suffix = true.
Proof.
  intros H. induction a as [|c a IH]; [exact H|].
  change (String c a ++ b) with (String c (a ++ b)).
  rewrite endsWith_unfold, IH. apply orb_true_r.
Qed.

Lemma temp_key_shape tempId userId :
  String.prefix TEMP_DATA_KEY_PREFIX
    (getStorageKey (TEMP_DATA_KEY_PREFIX ++ tempId) userId) = true
  /\ endsWith (getStorageKey (TEMP_DATA_KEY_PREFIX ++ tempId) userId) userId
     = true.
Proof.
  split.
  - unfold getStorageKey, TEMP_DATA_KEY_PREFIX. simpl.
    repeat (rewrite Ascii.eqb_refl; simpl). destruct (_ ++ _); reflexivity.
  - unfold getStorageKey. apply endsWith_app.
    assert (H : exists c, ":" ++ userId = String c userId)
      by (eexists; reflexivity).
    destruct H as [c ->].
    rewrite endsWith_unfold, endsWith_refl. apply orb_true_r.
Qed.

Section Clock.

Variable nowMs : Z.
Variable timestampOf : string -> Outcome (option Z).

Lemma visitKey_other force currentUserId (localStorage : Storage) key k :
  k <> key ->
  visitKey nowMs timestampOf force currentUserId localStorage key !! k
  = localStorage !! k.
Proof.
  intros Hne. unfold visitKey.
  destruct (String.prefix _ key); [|reflexivity].
  destruct (force && _); [apply lookup_delete_ne; auto|].
  destruct (localStorage !! key) as [stored|]; [|reflexivity].
  destruct (expired _ _ stored); [apply lookup_delete_ne; auto|reflexivity].
Qed.

Lemma visitKey_at force currentUserId (localStorage : Storage) key :
  visitKey nowMs timestampOf force currentUserId localStorage key !! key
  = match localStorage !! key with
    | Some stored =>
        if removes nowMs timestampOf force currentUserId key stored
        then None else Some stored
    | None => None
    end.
Proof.
  unfold visitKey, removes.
  destruct (String.prefix _ key); simpl.
  - destruct (force && _); simpl.
    + rewrite lookup_delete_eq. destruct (localStorage !! key); reflexivity.
    + destruct (localStorage !! key) as [stored|] eqn:E; [|exact E].
      destruct (expired _ _ stored); [apply lookup_delete_eq|exact E].
  - destruct (localStorage !! key); reflexivity.
Qed.

Lemma fold_visitKey force currentUserId keys (localStorage : Storage) k :
  NoDup keys ->
  fold_left (visitKey nowMs timestampOf force currentUserId) keys localStorage
    !! k
  = if decide (k ∈ keys)
    then visitKey nowMs timestampOf force currentUserId localStorage k !! k
    else localStorage !! k.
Proof.
  revert localStorage. induction keys as [|key keys IH];
    intros localStorage Hnodup; cbn [fold_left].
  - rewrite decide_False by apply not_elem_of_nil. reflexivity.
  - apply NoDup_cons in Hnodup as [Hnotin Hnodup].
    rewrite IH by assumption.
    destruct (decide (k = key)) as [->|Hne].
    + rewrite decide_False by assumption.
      rewrite decide_True by left. reflexivity.
    + destruct (decide (k ∈ keys)) as [Hin|Hout].
      * rewrite decide_True by (right; assumption).
        rewrite !visitKey_at, visitKey_other by assumption. reflexivity.
      * rewrite decide_False
          by (intros H; apply elem_of_cons in H as [?|?]; contradiction).
        apply visitKey_other. assumption.
Qed.

Lemma clear_old_judges_each_entry_aux force currentUserId
    (localStorage : Storage) k :
  clearOldTemporaryScanData nowMs timestampOf force currentUserId localStorage
    !! k
  = match localStorage !! k with
    | Some stored =>
        if removes nowMs timestampOf force currentUserId k stored
        then None else Some stored
    | None => None
    end.
Proof.
  unfold clearOldTemporaryScanData.
  rewrite fold_visitKey by apply NoDup_fst_map_to_list.
  destruct (decide (k ∈ (map_to_list localStorage).*1)) as [Hin|Hout].
  - apply visitKey_at.
  - destruct (localStorage !! k) as [stored|] eqn:E; [|reflexivity].
    exfalso. apply Hout. apply list_elem_of_fmap. exists (k, stored).
    split; [reflexivity|]. apply elem_of_map_to_list. exact E.
Qed.

(** X24. [clearOldTemporaryScanData] judges every entry of the storage on
    its own: an entry goes exactly when its key starts with
    "temp-scan-result-" and either the clearing is forced for a user id
    the key ends with, or the stored value is expired (older than 24
    hours) or unreadable. Every other entry stays as it is, nothing is
    added, and the order of the keys does not matter. *)
Theorem clear_old_judges_each_entry force currentUserId
    (localStorage : Storage) k :
  clearOldTemporaryScanData nowMs timestampOf force currentUserId localStorage
    !! k
  = match localStorage !! k with
    | Some stored =>
        if removes nowMs timestampOf force currentUserId k stored
        then None else Some stored
    | None => None
    end.
Proof. apply clear_old_judges_each_entry_aux. Qed.

(** X25. The scan data stored for a user under
    [getStorageKey("temp-scan-result-" + tempId, userId)] is removed by
    [clearTemporaryScanData(tempId, userId)], which touches no other
    entry, and by a forced [clearOldTemporaryScanData] for that user,
    however fresh it is; and no clearing, forced or not, touches a key
    that does not start with "temp-scan-result-". *)
Theorem scan_data_can_be_cleared (localStorage : Storage) tempId userId force
    currentUserId :
  userId <> "" ->
  let key := getStorageKey (TEMP_DATA_KEY_PREFIX ++ tempId) userId in
  clearTemporaryScanData tempId userId localStorage !! key = None
  /\ (forall k, k <> key ->
        clearTemporaryScanData tempId userId localStorage !! k
        = localStorage !! k)
  /\ clearOldTemporaryScanData nowMs timestampOf true (Some userId)
       localStorage !! key = None
  /\ (forall k, String.prefix TEMP_DATA_KEY_PREFIX k = false ->
        clearOldTemporaryScanData nowMs timestampOf force currentUserId
          localStorage !! k = localStorage !! k).
Proof.
  intros Hu key. subst key.
  destruct (temp_key_shape tempId userId) as [Hpre Hend].
  split; [apply lookup_delete_eq|].
  split; [intros k Hne; apply lookup_delete_ne; auto|].
  split.
  - rewrite clear_old_judges_each_entry_aux.
    destruct (localStorage !! _) as [stored|]; [|reflexivity].
    unfold removes. rewrite Hpre. unfold nonEmpty, truthyStr.
    destruct (String.eqb_spec userId ""); [contradiction|].
    cbn [negb andb orb]. rewrite Hend. reflexivity.
  - intros k Hk. rewrite clear_old_judges_each_entry_aux.
    destruct (localStorage !! k) as [stored|]; [|reflexivity].
    unfold removes. rewrite Hk. reflexivity.
Qed.

End Clock.

Lemma scan_data_can_be_cleared_witness :
  clearOldTemporaryScanData 0 (fun _ => Returns None) true (Some "u1")
    {[ "temp-scan-result-42:u1" := "{}" ]}
    !! getStorageKey (TEMP_DATA_KEY_PREFIX ++ "42") "u1" = None.
Proof.
  refine (proj1 (proj2 (proj2
            (scan_data_can_be_cleared 0 (fun _ => Returns None)
               {[ "temp-scan-result-42:u1" := "{}" ]} "42" "u1" false None
               _)))).
  discriminate.
Defined.

End LocalStorageFacts.

(** * Facts about the payment terms *)

Module PaymentTermsFacts.

Import PaymentTerms JsFacts.

Section Translations.

Variable t : string -> option string -> string.
Variable parseISO : string -> option Z.
Variable formatPP : Z -> string.

(** X26. A standard payment term survives being saved on a supplier and
    read back: when the five standard options have translations that are
    non-empty and differ from one another, the text
    [getPaymentTermStringForSupplierPersistence] writes for a standard
    option is parsed by [parsePaymentTermString] as that option, with no
    date. *)
Theorem standard_payment_terms_round_trip option paymentDueDate :
  translationsDistinct t -> standard option = true ->
  exists text,
    getPaymentTermStringForSupplierPersistence t formatPP (Some option)
      paymentDueDate = Some text
    /\ parsePaymentTermString t parseISO (Some text) = (Some option, None).
Proof.
  intros (Hdflt & Hne & Hinj) Hstd.
  exists (t (optionKey option) None). split.
  - destruct option; try reflexivity. discriminate.
  - unfold parsePaymentTermString, nonEmpty, truthyStr.
    destruct (String.eqb_spec (t (optionKey option) None) "") as [E|_];
      [apply Hne in E; [contradiction|assumption]|].
    cbn [negb]. cbv zeta.
    change "payment_terms_option_immediate" with (optionKey immediate).
    change "payment_terms_option_net30" with (optionKey net30).
    change "payment_terms_option_net60" with (optionKey net60).
    change "payment_terms_option_net90" with (optionKey net90).
    change "payment_terms_option_eom" with (optionKey eom).
    rewrite (Hdflt immediate (Some "Immediate")), (Hdflt net30 (Some "Net 30")),
      (Hdflt net60 (Some "Net 60")), (Hdflt net90 (Some "Net 90")),
      (Hdflt eom (Some "End of Month")) by reflexivity.
    destruct (String.eqb_spec (t (optionKey option) None)
                (t (optionKey immediate) None)) as [E|N1];
      [apply Hinj in E as ->; reflexivity || assumption|].
    destruct (String.eqb_spec (t (optionKey option) None)
                (t (optionKey net30) None)) as [E|N2];
      [apply Hinj in E as ->; reflexivity || assumption|].
    destruct (String.eqb_spec (t (optionKey option) None)
                (t (optionKey net60) None)) as [E|N3];
      [apply Hinj in E as ->; reflexivity || assumption|].
    destruct (String.eqb_spec (t (optionKey option) None)
                (t (optionKey net90) None)) as [E|N4];
      [apply Hinj in E as ->; reflexivity || assumption|].
    destruct (String.eqb_spec (t (optionKey option) None)
                (t (optionKey eom) None)) as [E|N5];
      [apply Hinj in E as ->; reflexivity || assumption|].
    destruct option; try contradiction. discriminate.
Qed.

End Translations.

Lemma standard_payment_terms_round_trip_witness :
  exists text,
    getPaymentTermStringForSupplierPersistence MoreScenarios.english
      (fun _ => "Jan 1, 2025") (Some net60) None = Some text
    /\ parsePaymentTermString MoreScenarios.english (fun _ => None)
         (Some text) = (Some net60, None).
Proof.
  apply (standard_payment_terms_round_trip MoreScenarios.english
           (fun _ => None) (fun _ => "Jan 1, 2025") net60 None).
  - split; [|split].
    + intros o dflt Ho. destruct o; try reflexivity. discriminate.
    + intros o Ho. destruct o; discriminate.
    + intros o o' Ho Ho'. destruct o, o'; try reflexivity; discriminate.
  - reflexivity.
Defined.

End PaymentTermsFacts.

(** * Facts about the fingerprint matcher *)

Module ProductReviewFacts.

Import PriceCheck ProductReview JsFacts.












(** The record with catalog number X and barcode Z, which the price check
    takes for a match of a line with catalog number Z, is no match for the
    fingerprint matcher: the line needs review. *)
Example review_keeps_catalog_and_barcode_apart :
  productsNeedingReview Scenarios.inventory1
    [Scenarios.vinegarLine; Scenarios.oliveOilLine]
  = [Scenarios.vinegarLine].
Proof. vm_compute. reflexivity. Qed.

End ProductReviewFacts.
(** * Facts about the start of the flow *)

Module SessionFacts.

Import Firestore DialogFlow PaymentTerms Session JsFacts.

Section Props.

Variable user : option string.
Variable docType : option DocType.
Variable productsForNextStep : list PriceCheck.Product.
Variable initialScannedSupplierId : option string.
Variable aiScannedOsekMorsheFromStorage : option string.
Variable aiScannedSupplierNameFromStorage : option string.
Variable t : string -> option string -> string.
Variable parseISO : string -> option Z.
Variable getSupplierByIdService : string -> string -> Outcome (option Supplier).
Variable getSuppliersService : string -> Outcome (list Supplier).
Variable getProductsService : string -> Outcome (list PriceCheck.Product).

#[local] Notation "'check'" :=
  (checkForNewProductsAndDetails user docType getProductsService).
#[local] Notation "'start'" :=
  (startInitialDialogFlow user docType productsForNextStep
     initialScannedSupplierId aiScannedOsekMorsheFromStorage
     aiScannedSupplierNameFromStorage t parseISO getSupplierByIdService
     getSuppliersService getProductsService).

(** The product check writes the step, the products to show and the
    events, and nothing else. *)
Lemma check_keeps products s :
  finalizedSupplierId (flow (check products s)) = finalizedSupplierId (flow s)
  /\ isDialogFlowActive (flow (check products s)) = isDialogFlowActive (flow s)
  /\ finalSupplierNameFromFlow (check products s) = finalSupplierNameFromFlow s
  /\ finalOsekMorsheFromFlow (check products s) = finalOsekMorsheFromFlow s
  /\ isSupplierFlowLocked (check products s) = isSupplierFlowLocked s
  /\ hasFlowStarted (check products s) = hasFlowStarted s
  /\ existingSuppliers (check products s) = existingSuppliers s
  /\ dialogFlowError (check products s) = dialogFlowError s.
Proof.
  unfold checkForNewProductsAndDetails.
  destruct (nonEmpty user); [|repeat split].
  destruct (length products =? 0)%nat; [repeat split|].
  destruct (getProductsService _); [|repeat split].
  destruct (0 <? _)%nat; repeat split.
Qed.

Lemma check_step products s userId :
  nonEmpty user = Some userId ->
  currentDialogStep (flow (check products s))
    ∈ [new_product_details; prompt_link_invoice; prompt_link_delivery_notes;
       ready_to_save; error_loading].
Proof.
  intros Hu. unfold checkForNewProductsAndDetails. rewrite Hu.
  assert (Hnext : nextStep docType new_product_details
                    ∈ [new_product_details; prompt_link_invoice;
                       prompt_link_delivery_notes; ready_to_save;
                       error_loading]).
  { apply list_elem_of_In. destruct docType as [[]|]; simpl; tauto. }
  destruct (length products =? 0)%nat; [exact Hnext|].
  destruct (getProductsService _);
    [|apply list_elem_of_In; simpl; tauto].
  destruct (0 <? _)%nat; [apply list_elem_of_In; simpl; tauto|exact Hnext].
Qed.

Lemma settled_step step :
  step ∈ [new_product_details; prompt_link_invoice;
          prompt_link_delivery_notes; ready_to_save; error_loading] ->
  step <> idle /\ step <> processing /\ step <> supplier_payment_details.
Proof.
  intros H. apply list_elem_of_In in H. simpl in H.
  repeat split; intros ->; intuition discriminate.
Qed.

(** What [startInitialDialogFlow] makes of a supplier it has found. *)
Lemma start_matched userId s s2 matched :
  nonEmpty user = Some userId -> hasFlowStarted s = false ->
  resolveSupplier initialScannedSupplierId aiScannedOsekMorsheFromStorage
    aiScannedSupplierNameFromStorage getSupplierByIdService getSuppliersService
    userId
    (setStep processing
       (setDialogFlowError None
          (setIsDialogFlowActive true (setHasFlowStarted true s))))
  = Returns (s2, Some matched) ->
  resolvedTo matched (start s)
  /\ existingSuppliers (start s) = existingSuppliers s2.
Proof.
  intros Hu Hns Hres. unfold startInitialDialogFlow.
  rewrite Hu, Hns, Hres.
  match goal with
  | |- resolvedTo _ (check ?ps ?s0) /\ _ =>
      destruct (check_keeps ps s0) as (Hid & _ & Hname & Htax & Hlock & _ & Hsup & _);
      pose proof (check_step ps s0 userId Hu) as Hstep
  end.
  apply settled_step in Hstep as (_ & _ & Hstep).
  unfold resolvedTo. rewrite Hid, Hname, Htax, Hlock, Hsup.
  repeat split. exact Hstep.
Qed.

(** X29. The supplier of a scan is resolved by the scanned supplier id
    first, then by the scanned tax id, then by the scanned name, and the
    first match settles it: a supplier found by id is taken without
    reading the suppliers at all; otherwise the first supplier with the
    scanned tax id is taken, also when another supplier has the scanned
    name; when the tax id finds none, the first supplier with the scanned
    name is taken. A matched supplier locks the supplier step and the
    flow goes on to the products; with no match the flow asks for the
    supplier details, with the scanned name and tax id filled in, and
    leaves the supplier id and the lock as they were. *)
Theorem start_resolves_the_supplier userId s :
  nonEmpty user = Some userId -> hasFlowStarted s = false ->
  (forall supplierId matched,
     nonEmpty initialScannedSupplierId = Some supplierId ->
     getSupplierByIdService supplierId userId = Returns (Some matched) ->
     resolvedTo matched (start s)
     /\ existingSuppliers (start s) = existingSuppliers s)
  /\ (forall suppliers,
        (nonEmpty initialScannedSupplierId = None
         \/ exists supplierId,
              nonEmpty initialScannedSupplierId = Some supplierId
              /\ getSupplierByIdService supplierId userId = Returns None) ->
        getSuppliersService userId = Returns suppliers ->
        existingSuppliers (start s) = suppliers
        /\ (forall taxId matched,
              nonEmpty aiScannedOsekMorsheFromStorage = Some taxId ->
              find (fun s => bool_decide (osekMorshe s = Some taxId)) suppliers
              = Some matched ->
              resolvedTo matched (start s))
        /\ (forall supplierName matched,
              match nonEmpty aiScannedOsekMorsheFromStorage with
              | Some taxId =>
                  find (fun s => bool_decide (osekMorshe s = Some taxId))
                    suppliers
              | None => None
              end = None ->
              nonEmpty aiScannedSupplierNameFromStorage = Some supplierName ->
              find (fun s => String.eqb (name s) supplierName) suppliers
              = Some matched ->
              resolvedTo matched (start s))
        /\ (matchAmong aiScannedOsekMorsheFromStorage
              aiScannedSupplierNameFromStorage suppliers = None ->
            currentDialogStep (flow (start s)) = supplier_payment_details
            /\ potentialSupplierNameForSheet (start s)
               = nonEmpty aiScannedSupplierNameFromStorage
            /\ potentialOsekMorsheForSheet (start s)
               = nonEmpty aiScannedOsekMorsheFromStorage
            /\ finalizedSupplierId (flow (start s))
               = finalizedSupplierId (flow s)
            /\ isSupplierFlowLocked (start s) = isSupplierFlowLocked s)).
Proof.
  intros Hu Hns. split.
  - intros supplierId matched Hid Hget.
    edestruct (start_matched userId s) as [Hres Hsup];
      [exact Hu|exact Hns
      |unfold resolveSupplier; rewrite Hid, Hget; reflexivity|].
    split; [exact Hres|]. rewrite Hsup. reflexivity.
  - intros suppliers Hnoid Hall.
    assert (Hres : forall s1,
              resolveSupplier initialScannedSupplierId
                aiScannedOsekMorsheFromStorage aiScannedSupplierNameFromStorage
                getSupplierByIdService getSuppliersService userId s1
              = Returns (setExistingSuppliers suppliers s1,
                         matchAmong aiScannedOsekMorsheFromStorage
                           aiScannedSupplierNameFromStorage suppliers)).
    { intros s1. unfold resolveSupplier.
      destruct Hnoid as [->|(supplierId & -> & ->)]; simpl; rewrite Hall;
        reflexivity. }
    split; [|split; [|split]].
    + unfold startInitialDialogFlow. rewrite Hu, Hns, Hres.
      destruct (matchAmong _ _ suppliers) as [matched|]; [|reflexivity].
      match goal with
      | |- existingSuppliers (check ?ps ?s0) = _ =>
          destruct (check_keeps ps s0) as (_ & _ & _ & _ & _ & _ & -> & _)
      end.
      reflexivity.
    + intros taxId matched Htax Hfind.
      eapply start_matched; [exact Hu|exact Hns|].
      rewrite Hres. unfold matchAmong. rewrite Htax, Hfind. reflexivity.
    + intros supplierName matched Hno Hname Hfind.
      eapply start_matched; [exact Hu|exact Hns|].
      rewrite Hres. unfold matchAmong. cbv zeta.
      rewrite Hno, Hname, Hfind. reflexivity.
    + intros Hnone. unfold startInitialDialogFlow.
      rewrite Hu, Hns, Hres, Hnone. repeat split.
Qed.

(** X30. Starting the flow for a signed-in user always settles it: the
    flow is marked as started, and it ends in a step that waits for the
    user or for the save (never in [idle] or [processing]), also when a
    read fails, in which case the step is [error_loading], the error is
    recorded with the message of the failure and [onDialogError] is
    called. Starting it again changes nothing. *)
Theorem start_settles_the_flow userId s :
  nonEmpty user = Some userId -> hasFlowStarted s = false ->
  hasFlowStarted (start s) = true
  /\ currentDialogStep (flow (start s)) <> idle
  /\ currentDialogStep (flow (start s)) <> processing
  /\ start (start s) = start s
  /\ (forall s1 e,
        resolveSupplier initialScannedSupplierId
          aiScannedOsekMorsheFromStorage aiScannedSupplierNameFromStorage
          getSupplierByIdService getSuppliersService userId s1 = Throws e ->
        currentDialogStep (flow (start s)) = error_loading
        /\ isDialogFlowActive (flow (start s)) = false
        /\ dialogFlowError (start s)
           = Some ("Error during initial flow: " ++ e)
        /\ last (events (start s))
           = Some (DialogError "Failed to process invoice details.")).
Proof.
  intros Hu Hns.
  assert (Hstarted : hasFlowStarted (start s) = true
                     /\ currentDialogStep (flow (start s)) <> idle
                     /\ currentDialogStep (flow (start s)) <> processing).
  { unfold startInitialDialogFlow. rewrite Hu, Hns.
    destruct (resolveSupplier _ _ _ _ _ _ _) as [[s2 [matched|]]|e] eqn:Hres.
    - match goal with
      | |- hasFlowStarted (check ?ps ?s0) = _ /\ _ =>
          destruct (check_keeps ps s0) as (_ & _ & _ & _ & _ & -> & _);
          pose proof (check_step ps s0 userId Hu) as Hstep
      end.
      apply settled_step in Hstep as (? & ? & _).
      split; [|split; assumption].
      unfold resolveSupplier, obind in Hres.
      destruct (match nonEmpty initialScannedSupplierId with
                | Some supplierId => getSupplierByIdService supplierId userId
                | None => Returns None
                end) as [[m|]|]; [| |discriminate].
      + injection Hres as <- _. reflexivity.
      + destruct (getSuppliersService userId); [|discriminate].
        injection Hres as <- _. reflexivity.
    - split; [|split; discriminate].
      unfold resolveSupplier, obind in Hres.
      destruct (match nonEmpty initialScannedSupplierId with
                | Some supplierId => getSupplierByIdService supplierId userId
                | None => Returns None
                end) as [[m|]|]; [discriminate| |discriminate].
      destruct (getSuppliersService userId); [|discriminate].
      injection Hres as <- _. reflexivity.
    - repeat split; discriminate. }
  destruct Hstarted as (Hstarted & Hidle & Hproc).
  split; [exact Hstarted|]. split; [exact Hidle|]. split; [exact Hproc|].
  split.
  - unfold startInitialDialogFlow at 1. rewrite Hu, Hstarted. reflexivity.
  - intros s1 e Hthrow.
    assert (Hany : forall s0,
              resolveSupplier initialScannedSupplierId
                aiScannedOsekMorsheFromStorage aiScannedSupplierNameFromStorage
                getSupplierByIdService getSuppliersService userId s0
              = Throws e).
    { intros s0. revert Hthrow. unfold resolveSupplier, obind.
      destruct (match nonEmpty initialScannedSupplierId with
                | Some supplierId => getSupplierByIdService supplierId userId
                | None => Returns None
                end) as [[m|]|]; [discriminate| |auto].
      destruct (getSuppliersService userId); [discriminate|auto]. }
    unfold startInitialDialogFlow. rewrite Hu, Hns, Hany.
    repeat split. simpl. apply last_snoc.
Qed.

End Props.

(** The scan carries the name of Acme and the tax id of the bakery: the
    tax id wins. *)
Lemma start_resolves_the_supplier_witness :
  resolvedTo MoreScenarios.bakerySupplier
    (startInitialDialogFlow (Some "u1") (Some invoice) [] None
       (Some "515000000") (Some "Acme") MoreScenarios.english
       (fun _ => None) (fun _ _ => Returns None)
       (fun _ => Returns [MoreScenarios.acmeSupplier;
                          MoreScenarios.bakerySupplier])
       (fun _ => Returns []) MoreScenarios.freshSession).
Proof.
  refine (proj1 (proj2 (proj2
            (start_resolves_the_supplier (Some "u1") (Some invoice) [] None
               (Some "515000000") (Some "Acme") MoreScenarios.english
               (fun _ => None) (fun _ _ => Returns None)
               (fun _ => Returns [MoreScenarios.acmeSupplier;
                                  MoreScenarios.bakerySupplier])
               (fun _ => Returns []) "u1" MoreScenarios.freshSession _ _)
            [MoreScenarios.acmeSupplier; MoreScenarios.bakerySupplier] _ _))
          "515000000" MoreScenarios.bakerySupplier _ _).
  - reflexivity.
  - reflexivity.
  - left. reflexivity.
  - reflexivity.
  - reflexivity.
  - reflexivity.
Defined.

Lemma start_settles_the_flow_witness :
  hasFlowStarted
    (startInitialDialogFlow (Some "u1") (Some invoice) [] None
       (Some "515000000") (Some "Acme") MoreScenarios.english
       (fun _ => None) (fun _ _ => Returns None)
       (fun _ => Throws "offline") (fun _ => Returns [])
       MoreScenarios.freshSession) = true.
Proof.
  refine (proj1
            (start_settles_the_flow (Some "u1") (Some invoice) [] None
               (Some "515000000") (Some "Acme") MoreScenarios.english
               (fun _ => None) (fun _ _ => Returns None)
               (fun _ => Throws "offline") (fun _ => Returns [])
               "u1" MoreScenarios.freshSession _ _)); reflexivity.
Defined.

End SessionFacts.
